(** * Course service: cache-aside reads, bulk CSV ingest, search-index sync

    A shallow embedding of the course microservice
    (services/courses/server.js, its Mongoose schema models/Course.js, and
    the adapters config/redis.js and config/elasticsearch.js).

    Conventions of the embedding:
    - an [async] handler is a pure function from the state of the three
      back-ends (document store, Redis, Elasticsearch) and a request to a
      response and the next state; each handler runs to completion, i.e.
      the development describes one request at a time;
    - a string is held as its UTF-8 bytes; [trim] removes the white
      space of ECMAScript, [length] counts UTF-16 code units, and the
      case mappings act on the letters of ASCII;
    - the Numbers that [parseInt] makes of [page], [limit] and [size], and
      what the handlers compute from them, are the doubles that hold an
      integer, with NaN, the infinities and the negative zero ([JS.Num]);
      the numbers held in course fields and the statistics computed from
      them are exact rationals [Q]; counters and instants (milliseconds)
      are integers;
    - an object handed to [new Course] is a record of the paths of the
      schema, each absent or holding a value of its type ([CourseData]);
    - a thrown exception is a value of an error type, caught where the
      source catches it;
    - the engines behind the adapters that the repository does not contain
      (regular expressions, the sort and the cursor of the store,
      Elasticsearch scoring, [parseFloat], the ObjectId cast of the
      driver) are the fields of the class [Platform]. *)

From Stdlib Require Import Ascii QArith Qround.
From stdpp Require Import base strings gmap list pretty.

Local Close Scope Q_scope.
Local Open Scope string_scope.
Local Open Scope list_scope.
Local Open Scope Z_scope.

(** ** JavaScript string helpers *)

Module JS.

(** A string of the program is held as its UTF-8 bytes. *)

Definition code (a : ascii) : N := N_of_ascii a.

(** A byte that continues a character of several bytes. *)
Definition is_continuation (a : ascii) : bool :=
  ((128 <=? code a) && (code a <=? 191))%N.

Definition glue (a : ascii) (cs : list string) : list string :=
  match cs with
  | String b c :: rest =>
      if is_continuation b then String a (String b c) :: rest
      else String a EmptyString :: cs
  | _ => String a EmptyString :: cs
  end.

(** The characters of a string: each byte that is not a continuation
    byte, with the continuation bytes that follow it. *)
Fixpoint chars (s : string) : list string :=
  match s with
  | EmptyString => []
  | String a s' => glue a (chars s')
  end.

Definition concat (cs : list string) : string := foldr String.append "" cs.

(** TAB, LF, VT, FF, CR and SPACE. *)
Definition is_space (a : ascii) : bool :=
  (((9 <=? code a) && (code a <=? 13)) || (code a =? 32))%N.

(** The white space and line terminators of the language, which
    [String.prototype.trim] and [parseInt] skip: the six characters of
    one byte, U+00A0, U+1680, U+2000 to U+200A, U+2028, U+2029, U+202F,
    U+205F, U+3000 and U+FEFF. *)
Definition is_white (c : string) : bool :=
  match c with
  | String a EmptyString => is_space a
  | String a (String b EmptyString) => ((code a =? 194) && (code b =? 160))%N
  | String a (String b (String d EmptyString)) =>
      (((code a =? 225) && (code b =? 154) && (code d =? 128))
       || ((code a =? 226) && (code b =? 128)
           && (((128 <=? code d) && (code d <=? 138))
               || (code d =? 168) || (code d =? 169) || (code d =? 175)))
       || ((code a =? 226) && (code b =? 129) && (code d =? 159))
       || ((code a =? 227) && (code b =? 128) && (code d =? 128))
       || ((code a =? 239) && (code b =? 187) && (code d =? 191)))%N
  | _ => false
  end.

Fixpoint drop_while {A} (f : A -> bool) (l : list A) : list A :=
  match l with
  | [] => []
  | x :: rest => if f x then drop_while f rest else l
  end.

(** What is left of a list once the elements at its end that pass a
    test are removed. *)
Fixpoint drop_end {A} (f : A -> bool) (l : list A) : list A :=
  match l with
  | [] => []
  | x :: rest =>
      match drop_end f rest with
      | [] => if f x then [] else [x]
      | t => x :: t
      end
  end.

Definition trimStart (s : string) : string :=
  concat (drop_while is_white (chars s)).

Definition trimEnd (s : string) : string :=
  concat (drop_end is_white (chars s)).

Definition trim (s : string) : string := trimEnd (trimStart s).

(** [s.length]: the UTF-16 code units of the string, one for a character
    of up to three bytes and two for a character of four. *)
Fixpoint length (s : string) : nat :=
  match s with
  | EmptyString => 0
  | String a s' =>
      ((if is_continuation a then 0 else if (240 <=? code a)%N then 2 else 1)
       + length s')%nat
  end.

(** The case mappings of the letters of one byte; the other characters
    are left as they are. *)
Definition upper_ascii (a : ascii) : ascii :=
  let n := nat_of_ascii a in
  if ((97 <=? n)%nat && (n <=? 122)%nat) then ascii_of_nat (n - 32) else a.

Definition lower_ascii (a : ascii) : ascii :=
  let n := nat_of_ascii a in
  if ((65 <=? n)%nat && (n <=? 90)%nat) then ascii_of_nat (n + 32) else a.

Fixpoint map_string (f : ascii -> ascii) (s : string) : string :=
  match s with
  | EmptyString => EmptyString
  | String a s' => String (f a) (map_string f s')
  end.

Definition toUpperCase : string -> string := map_string upper_ascii.
Definition toLowerCase : string -> string := map_string lower_ascii.

(** [s.split(sep)] for a one-character separator. *)
Fixpoint split (sep : ascii) (s : string) : list string :=
  match s with
  | EmptyString => [EmptyString]
  | String a s' =>
      if Ascii.eqb a sep then EmptyString :: split sep s'
      else match split sep s' with
           | h :: t => String a h :: t
           | [] => [String a EmptyString]
           end
  end.

(** [parts.join(sep)]. *)
Fixpoint join (sep : string) (parts : list string) : string :=
  match parts with
  | [] => EmptyString
  | [p] => p
  | p :: rest => p +:+ sep +:+ join sep rest
  end.

(** Truthiness of a possibly undefined string: defined and non-empty. *)
Definition truthy (o : option string) : bool :=
  match o with
  | Some (String _ _) => true
  | _ => false
  end.

(** [o || d] on a possibly undefined string. *)
Definition or_else (o : option string) (d : string) : string :=
  match o with
  | Some (String a s) => String a s
  | _ => d
  end.

(** [word.charAt(0)]: the empty string when the word is empty. *)
Definition charAt0 (s : string) : string := default "" (head (chars s)).

(** [s.substring(0, n)]. *)
Definition prefix (n : nat) (s : string) : string := concat (take n (chars s)).

(** The double-quote character, as a string. *)
Definition dquote : string := String (ascii_of_nat 34) EmptyString.

(** [s.slice(-n)]: the last [n] characters. *)
Definition suffix (n : nat) (s : string) : string :=
  String.substring (String.length s - n) n s.

(** *** Numbers *)

(** The Numbers that [parseInt] returns and that the handlers compute
    from them: NaN, the two infinities, and the integers that a double
    holds, zero with its sign. *)
Inductive Num :=
| NaN
| Inf (negative : bool)
| Fin (negative : bool) (magnitude : N).

(** The integer a double holds that is nearest to [m]: 53 significant
    bits are kept, a tie goes to the even one. *)
Definition round53 (m : N) : N :=
  let bits := N.size m in
  if (bits <=? 53)%N then m
  else
    let e := (bits - 53)%N in
    let q := N.shiftr m e in
    let r := (m - N.shiftl q e)%N in
    let half := N.shiftl 1 (e - 1) in
    let q' := if (r <? half)%N then q
              else if (half <? r)%N then (q + 1)%N
              else if N.even q then q else (q + 1)%N in
    N.shiftl q' e.

(** 2^53: the integers up to it are doubles. *)
Definition exact : N := 9007199254740992.

(** 2^1024, from which on a magnitude is infinite. *)
Definition overflow : N := Eval vm_compute in (2 ^ 1024)%N.

Definition double (negative : bool) (m : N) : Num :=
  if (round53 m <? overflow)%N then Fin negative (round53 m) else Inf negative.

Definition digit_value (radix : N) (a : ascii) : option N :=
  let n := code a in
  let v := if ((48 <=? n) && (n <=? 57))%N then Some (n - 48)%N
           else if ((97 <=? n) && (n <=? 122))%N then Some (n - 87)%N
           else if ((65 <=? n) && (n <=? 90))%N then Some (n - 55)%N
           else None in
  match v with
  | Some d => if (d <? radix)%N then Some d else None
  | None => None
  end.

(** The value of the digits at the head of a string, [None] when there
    is none. *)
Fixpoint digits_value (radix : N) (s : string) (acc : option N) : option N :=
  match s with
  | EmptyString => acc
  | String a s' =>
      match digit_value radix a with
      | Some d => digits_value radix s' (Some (default 0%N acc * radix + d)%N)
      | None => acc
      end
  end.

(** [parseInt(s)]: white space, a sign, [0x] for radix 16, digits; what
    follows the digits is ignored. *)
Definition parseInt (s : string) : Num :=
  let s1 := trimStart s in
  let signed :=
    match s1 with
    | String "-" r => (true, r)
    | String "+" r => (false, r)
    | _ => (false, s1)
    end in
  let based :=
    match snd signed with
    | String "0" (String "x" r) | String "0" (String "X" r) => (16%N, r)
    | s2 => (10%N, s2)
    end in
  match digits_value (fst based) (snd based) None with
  | Some m => double (fst signed) m
  | None => NaN
  end.

(** [x - 1] *)
Definition sub1 (x : Num) : Num :=
  match x with
  | NaN => NaN
  | Inf s => Inf s
  | Fin false m => if (m =? 0)%N then Fin true 1 else double false (m - 1)
  | Fin true m => double true (m + 1)
  end.

(** [x * y] *)
Definition mul (x y : Num) : Num :=
  match x, y with
  | NaN, _ | _, NaN => NaN
  | Inf s, Inf s' => Inf (xorb s s')
  | Inf s, Fin s' m | Fin s m, Inf s' =>
      if (m =? 0)%N then NaN else Inf (xorb s s')
  | Fin s m, Fin s' m' => double (xorb s s') (m * m')
  end.

(** [Math.ceil(total / x)] for a count [total]; below 2^53 the division
    of doubles followed by [Math.ceil] gives the exact ceiling. *)
Definition ceil_div (total : N) (x : Num) : Num :=
  match x with
  | NaN => NaN
  | Inf s => Fin s 0
  | Fin s 0 => if (total =? 0)%N then NaN else Inf s
  | Fin false m => Fin false ((total + m - 1) / m)
  | Fin true m => Fin true (total / m)
  end.

Definition signed (negative : bool) (m : N) : Z :=
  if negative then - Z.of_N m else Z.of_N m.

(** [x < y] *)
Definition lt (x y : Num) : bool :=
  match x, y with
  | NaN, _ | _, NaN => false
  | Inf true, Inf true => false
  | Inf true, _ => true
  | _, Inf true => false
  | Inf false, _ => false
  | _, Inf false => true
  | Fin s m, Fin s' m' => signed s m <? signed s' m'
  end.

(** What [JSON.stringify] makes of a Number: [null] for NaN and the
    infinities. *)
Definition json (x : Num) : option Z :=
  match x with
  | Fin s m => Some (signed s m)
  | _ => None
  end.

(** The decimal of at most [k] significant digits nearest to [m], if one
    reads back as the double [m]. *)
Definition nearest_short (m : N) (k : nat) : option N :=
  let n := String.length (pretty m) in
  let p := (10 ^ N.of_nat (n - k))%N in
  let lo := (m / p * p)%N in
  let hi := (lo + p)%N in
  let reads_back v := (round53 v =? m)%N in
  match reads_back lo, reads_back hi with
  | true, true =>
      if (m - lo <? hi - m)%N then Some lo
      else if (hi - m <? m - lo)%N then Some hi
      else Some (if N.even (lo / p) then lo else hi)
  | true, false => Some lo
  | false, true => Some hi
  | false, false => None
  end.

Fixpoint shortest (m : N) (k fuel : nat) : N :=
  match fuel with
  | O => m
  | S fuel' =>
      match nearest_short m k with
      | Some v => v
      | None => shortest m (S k) fuel'
      end
  end.

Fixpoint strip_zeros (s : string) : string :=
  match s with
  | EmptyString => EmptyString
  | String a s' =>
      match strip_zeros s' with
      | EmptyString => if Ascii.eqb a "0" then EmptyString else String a EmptyString
      | t => String a t
      end
  end.

(** The digits of a positive integer held by a double, as
    [Number.prototype.toString] writes them: all of them below 2^53, the
    fewest that read back as the same double from there on, and with an
    exponent from 10^21 on. *)
Definition digits (m : N) : string :=
  if (m <? exact)%N then pretty m
  else
    let v := pretty (shortest m 1 17) in
    if (String.length v <=? 21)%nat then v
    else
      match strip_zeros v with
      | String a EmptyString =>
          String a EmptyString +:+ "e+" +:+ pretty (String.length v - 1)%nat
      | String a rest =>
          String a ("." +:+ rest) +:+ "e+" +:+ pretty (String.length v - 1)%nat
      | EmptyString => v
      end.

(** [String(x)], as in a template literal or in [Array.prototype.join]. *)
Definition toString (x : Num) : string :=
  match x with
  | NaN => "NaN"
  | Inf false => "Infinity"
  | Inf true => "-Infinity"
  | Fin s m =>
      if (m =? 0)%N then "0" else (if s then "-" else "") +:+ digits m
  end.

End JS.

(** ** Data model *)

(** An ObjectId, identified with a number; [toString] on it is injective,
    so the search index is keyed by the same number. *)
Definition ObjectId := N.

(** A stored course document (models/Course.js), after setters and
    defaults. *)
Record Course := {
  _id : ObjectId;
  course_id : string;
  title : string;
  description : string;
  category : string;
  instructor : string;
  duration : Q;
  level : string;
  price : Q;
  enrollments : Q;
  rating : Q;
  tags : list string;
  prerequisites : list string;
  learning_outcomes : list string;
  thumbnail_url : string;
  status : string;
  created_by : string;
  created_at : Z;
  updated_at : Z
}.

(** The object handed to [new Course(...)], for the objects whose members
    are paths of the schema, each holding a value of its type, in the
    order of the schema: a path is absent or holds its value. *)
Record CourseData := {
  in_course_id : option string;
  in_title : option string;
  in_description : option string;
  in_category : option string;
  in_instructor : option string;
  in_duration : option Q;
  in_level : option string;
  in_price : option Q;
  in_enrollments : option Q;
  in_rating : option Q;
  in_tags : list string;
  in_prerequisites : list string;
  in_learning_outcomes : list string;
  in_thumbnail_url : option string;
  in_status : option string;
  in_created_by : option string
}.

(** The body indexed for a course (ElasticsearchClient.indexCourse). *)
Record IndexDoc := {
  d_course_id : string;
  d_title : string;
  d_description : string;
  d_category : string;
  d_instructor : string;
  d_duration : Q;
  d_created_at : Z;
  d_updated_at : Z
}.

(** One element of [hits]: [{...hit._source, _id: hit._id, _score}]. *)
Record Hit := {
  h_source : IndexDoc;
  h_id : ObjectId;
  h_score : Q
}.

(** The [must] clause of the search body. *)
Inductive MustClause :=
| MultiMatch (query : string)   (* fields title^2, description, instructor,
                                   category; best_fields; fuzziness AUTO *)
| MatchAll.

(** The body sent to [client.search]; the sort is always by [_score]
    descending, then [created_at] descending. *)
Record SearchBody := {
  sb_must : MustClause;
  sb_filter_category : option string;
  sb_filter_instructor : option string;
  sb_from : JS.Num;
  sb_size : JS.Num
}.

(** The engines outside the repository. *)
Class Platform := {
  (** [parseFloat] on a string; [None] is NaN. *)
  parseFloat : string -> option Q;
  (** [new RegExp(pattern, 'i')] matched against a string by the store;
      [None] when the pattern is refused: the constructor throws, or the
      store rejects the query. *)
  regexp_i : string -> option (string -> bool);
  (** [.sort({[field]: order})] of the store; [true] is descending;
      [None] when the store refuses the sort key. *)
  store_sort : string -> bool -> list Course -> option (list Course);
  (** [.skip(skip).limit(limit)] of the store where the two are not
      both integers from 0 to 2^53 (and [skip] is not a negative integer):
      what the cursor returns, [None] when the query throws. *)
  store_window : JS.Num -> JS.Num -> list Course -> option (list Course);
  (** The driver's cast of a route parameter to an ObjectId; [None] makes
      the query throw. *)
  castObjectId : string -> option ObjectId;
  (** The search engine: the page of hits and [hits.total.value] for a
      body, as a function of the documents indexed; [None] when the
      request fails. *)
  es_search : gmap N IndexDoc -> SearchBody -> option (list Hit * N);
  (** [process.env.NODE_ENV === 'development'] *)
  development : bool
}.

(** ** The Course model (models/Course.js) *)

Module Schema.

Definition categories : list string :=
  [ "Programming"; "Data Science"; "Web Development"; "Mobile Development";
    "Machine Learning"; "DevOps"; "Database"; "Cloud Computing";
    "Cybersecurity"; "UI/UX Design"; "Digital Marketing"; "Business";
    "Other" ].

Definition levels : list string := [ "Beginner"; "Intermediate"; "Advanced" ].

Definition statuses : list string := [ "draft"; "published"; "archived" ].

Definition default_thumbnail : string :=
  "https://images.pexels.com/photos/3861958/pexels-photo-3861958.jpeg".

Definition default_level : string := "Beginner".
Definition default_status : string := "published".
Definition default_created_by : string := "admin".

(** [values.includes(x)] *)
Definition includes (values : list string) (x : string) : bool :=
  bool_decide (x ∈ values).

(** The setters of the string paths: [trim], [uppercase], [lowercase]. *)
Definition apply_setters (d : CourseData) : CourseData :=
  {| in_course_id := (fun s => JS.toUpperCase (JS.trim s)) <$> in_course_id d;
     in_title := JS.trim <$> in_title d;
     in_description := JS.trim <$> in_description d;
     in_category := JS.trim <$> in_category d;
     in_instructor := JS.trim <$> in_instructor d;
     in_duration := in_duration d;
     in_level := in_level d;
     in_price := in_price d;
     in_enrollments := in_enrollments d;
     in_rating := in_rating d;
     in_tags := (fun s => JS.toLowerCase (JS.trim s)) <$> in_tags d;
     in_prerequisites := JS.trim <$> in_prerequisites d;
     in_learning_outcomes := JS.trim <$> in_learning_outcomes d;
     in_thumbnail_url := JS.trim <$> in_thumbnail_url d;
     in_status := in_status d;
     in_created_by := in_created_by d |}.

(** A path's validators run in order and the first failure is the
    path's error: [required] first, which an empty string fails, then the
    length, range or enum validators, which accept an absent value. *)

Definition enum_message (path value : string) : string :=
  "`" +:+ value +:+ "` is not a valid enum value for path `" +:+ path +:+ "`.".

Definition check_required (msg : string) (v : option string) : option string :=
  if JS.truthy v then None else Some msg.

(** [minlength] and [maxlength], on [v.length]. *)
Definition check_length (lo hi : nat) (lo_msg hi_msg : string)
    (v : option string) : option string :=
  match v with
  | None => None
  | Some s =>
      if (JS.length s <? lo)%nat then Some lo_msg
      else if (hi <? JS.length s)%nat then Some hi_msg
      else None
  end.

Definition check_enum (path : string) (values : list string)
    (v : option string) : option string :=
  match v with
  | None => None
  | Some s => if includes values s then None else Some (enum_message path s)
  end.

Definition check_min (lo : Q) (msg : string) (v : option Q) : option string :=
  match v with
  | None => None
  | Some x => if Qle_bool lo x then None else Some msg
  end.

Definition check_max (hi : Q) (msg : string) (v : option Q) : option string :=
  match v with
  | None => None
  | Some x => if Qle_bool x hi then None else Some msg
  end.

(** The first failure of a chain of validators. *)
Fixpoint first_failure (checks : list (option string)) : option string :=
  match checks with
  | [] => None
  | Some msg :: _ => Some msg
  | None :: rest => first_failure rest
  end.

Definition path_error (path : string) (checks : list (option string))
    : list (string * string) :=
  match first_failure checks with
  | Some msg => [(path, msg)]
  | None => []
  end.

(** The error of a required path that holds nothing. *)
Definition missing {A} (path msg : string) (v : option A)
    : list (string * string) :=
  match v with
  | None => [(path, msg)]
  | Some _ => []
  end.

(** The validators of a path that holds a value. *)
Definition held {A} (v : option A) (checks : list (option string))
    : list (option string) :=
  match v with
  | Some _ => checks
  | None => []
  end.

(** [doc.validate()]: the failing paths with their messages, in the
    order in which [error.errors] lists them: first the required paths
    that hold nothing, the last declared first, then the paths that hold
    a value, in their order.  The argument has gone through the setters;
    a path that is absent and has a default is valid. *)
Definition validate (d : CourseData) : list (string * string) :=
  missing "duration" "Course duration is required" (in_duration d)
  ++ missing "instructor" "Instructor name is required" (in_instructor d)
  ++ missing "category" "Course category is required" (in_category d)
  ++ missing "description" "Course description is required" (in_description d)
  ++ missing "title" "Course title is required" (in_title d)
  ++ missing "course_id" "Course ID is required" (in_course_id d)
  ++ path_error "course_id"
    (held (in_course_id d)
       [ check_required "Course ID is required" (in_course_id d) ])
  ++ path_error "title"
    (held (in_title d)
       [ check_required "Course title is required" (in_title d);
         check_length 3 200 "Title must be at least 3 characters long"
           "Title cannot exceed 200 characters" (in_title d) ])
  ++ path_error "description"
    (held (in_description d)
       [ check_required "Course description is required" (in_description d);
         check_length 10 2000 "Description must be at least 10 characters long"
           "Description cannot exceed 2000 characters" (in_description d) ])
  ++ path_error "category"
    (held (in_category d)
       [ check_required "Course category is required" (in_category d);
         check_enum "category" categories (in_category d) ])
  ++ path_error "instructor"
    (held (in_instructor d)
       [ check_required "Instructor name is required" (in_instructor d);
         check_length 2 100 "Instructor name must be at least 2 characters long"
           "Instructor name cannot exceed 100 characters" (in_instructor d) ])
  ++ path_error "duration"
    [ check_min 1 "Duration must be at least 1 hour" (in_duration d);
      check_max 1000 "Duration cannot exceed 1000 hours" (in_duration d) ]
  ++ path_error "level"
    [ check_enum "level" levels (in_level d) ]
  ++ path_error "price"
    [ check_min 0 "Price cannot be negative" (in_price d) ]
  ++ path_error "enrollments"
    [ check_min 0 "Enrollments cannot be negative" (in_enrollments d) ]
  ++ path_error "rating"
    [ check_min 0 "Rating cannot be negative" (in_rating d);
      check_max 5 "Rating cannot exceed 5" (in_rating d) ]
  ++ path_error "status"
    [ check_enum "status" statuses (in_status d) ].

(** The document built by [new Course(data)] once the setters have run:
    absent paths take their defaults, the timestamps are the instant of
    the save. *)
Definition build (oid : ObjectId) (now : Z) (d : CourseData) : Course :=
  {| _id := oid;
     course_id := default "" (in_course_id d);
     title := default "" (in_title d);
     description := default "" (in_description d);
     category := default "" (in_category d);
     instructor := default "" (in_instructor d);
     duration := default 0%Q (in_duration d);
     level := default default_level (in_level d);
     price := default 0%Q (in_price d);
     enrollments := default 0%Q (in_enrollments d);
     rating := default 0%Q (in_rating d);
     tags := in_tags d;
     prerequisites := in_prerequisites d;
     learning_outcomes := in_learning_outcomes d;
     thumbnail_url := default default_thumbnail (in_thumbnail_url d);
     status := default default_status (in_status d);
     created_by := default default_created_by (in_created_by d);
     created_at := now;
     updated_at := now |}.

Definition with_course_id (c : Course) (cid : string) : Course :=
  {| _id := _id c; course_id := cid; title := title c;
     description := description c; category := category c;
     instructor := instructor c; duration := duration c; level := level c;
     price := price c; enrollments := enrollments c; rating := rating c;
     tags := tags c; prerequisites := prerequisites c;
     learning_outcomes := learning_outcomes c;
     thumbnail_url := thumbnail_url c; status := status c;
     created_by := created_by c; created_at := created_at c;
     updated_at := updated_at c |}.

(** The [pre('save')] middleware: derive a course id from the title and
    the clock when the document has none.  Validation runs before the
    middleware of the schema. *)
Definition pre_save (now : Z) (c : Course) : Course :=
  match course_id c with
  | EmptyString =>
      let titleAbbr :=
        JS.prefix 4
          (JS.join "" ((fun word => JS.toUpperCase (JS.charAt0 word))
                         <$> JS.split " " (title c))) in
      let timestamp := JS.suffix 4 (pretty now) in
      with_course_id c (titleAbbr +:+ timestamp)
  | _ => c
  end.

End Schema.

(** ** The document store *)

(** The collection in insertion order, and the next ObjectId. *)
Record Store := {
  docs : list Course;
  next_oid : ObjectId
}.

Inductive SaveError :=
| ValidationError (errs : list (string * string))   (* error.name *)
| DuplicateKey.                                      (* error.code 11000 *)

(** [error.message] *)
Definition error_message (e : SaveError) : string :=
  match e with
  | ValidationError errs =>
      "Course validation failed: "
      +:+ JS.join ", " ((fun pm => fst pm +:+ ": " +:+ snd pm) <$> errs)
  | DuplicateKey => "E11000 duplicate key error collection: courses index: course_id_1"
  end.

(** The unique index on [course_id]. *)
Definition has_course_id (cid : string) (l : list Course) : bool :=
  existsb (fun c => String.eqb (course_id c) cid) l.

(** [new Course(data)] followed by [course.save()]. *)
Definition save (now : Z) (s : Store) (data : CourseData)
    : SaveError + (Course * Store) :=
  let d := Schema.apply_setters data in
  match Schema.validate d with
  | e :: errs => inl (ValidationError (e :: errs))
  | [] =>
      let c := Schema.pre_save now (Schema.build (next_oid s) now d) in
      if has_course_id (course_id c) (docs s) then inl DuplicateKey
      else inr (c, {| docs := docs s ++ [c]; next_oid := N.succ (next_oid s) |})
  end.

(** ** Payloads and responses *)

(** The [pagination] member as it is sent and cached: a Number that is
    NaN or infinite is written [null], here [None]. *)
Record Pagination := {
  current_page : option Z;
  total_pages : option Z;
  total_items : N;
  items_per_page : option Z;
  has_next : bool;
  has_prev : bool
}.

Record Overview := {
  totalCourses : Z;
  totalEnrollments : Q;
  averageRating : Q;
  averageDuration : Q;
  averagePrice : Q
}.

Record CategoryStat := {
  cs_category : string;
  cs_courseCount : Z;
  cs_totalEnrollments : Q;
  cs_averageRating : Q
}.

(** The values the handlers put in the cache.  [JSON.stringify] followed
    by [JSON.parse] is the identity on them. *)
Inductive Payload :=
| PList (courses : list Course) (pagination : Pagination)
| PSearch (courses : list Hit) (pagination : Pagination) (query : string)
| PCourse (course : Course)
| PStats (overview : Overview) (categories : list CategoryStat).

(** The [data] member of a response. *)
Inductive Data :=
| DResult (result : Payload)                 (* data: result *)
| DCourse (course : Payload)                 (* data: { course } *)
| DReport (total_rows valid_courses saved_courses : nat)
          (courses : list Course).

(** The [errors] member of a response. *)
Inductive Errors :=
| RowErrors (messages : list string)
| FieldErrors (fields : list (string * string)).

(** What [res.status(...).json(...)] sends; an absent member is [None]. *)
Record Response := {
  res_status : nat;
  res_success : bool;
  res_message : string;
  res_data : option Data;
  res_errors : option Errors;
  res_error : option string;
  res_cached : option bool
}.

Definition reply (code : nat) (ok : bool) (msg : string) : Response :=
  {| res_status := code; res_success := ok; res_message := msg;
     res_data := None; res_errors := None; res_error := None;
     res_cached := None |}.

Definition reply_data (code : nat) (msg : string) (d : Data) : Response :=
  {| res_status := code; res_success := true; res_message := msg;
     res_data := Some d; res_errors := None; res_error := None;
     res_cached := None |}.

Definition reply_cached (msg : string) (d : Data) : Response :=
  {| res_status := 200; res_success := true; res_message := msg;
     res_data := Some d; res_errors := None; res_error := None;
     res_cached := Some true |}.

(** ** The Redis adapter (config/redis.js) *)

Module RedisClient.

(** The commands the adapter sends. *)
Inductive Command := GET | SETEX | DEL.

(** [isConnected] is the flag of the adapter; [rejects] says which
    commands of the underlying client fail (they throw inside the
    adapter's [try]); [keys] maps a key to its value and to the instant
    (milliseconds) at which it expires. *)
Record t := {
  isConnected : bool;
  rejects : Command -> bool;
  keys : gmap string (Payload * Z)
}.

Definition with_keys (r : t) (k : gmap string (Payload * Z)) : t :=
  {| isConnected := isConnected r; rejects := rejects r; keys := k |}.

(** [client.get(key)]: the value of a key that has not expired. *)
Definition live (r : t) (now : Z) (key : string) : option Payload :=
  match keys r !! key with
  | Some (v, expires) => if now <? expires then Some v else None
  | None => None
  end.

Definition get (r : t) (now : Z) (key : string) : option Payload :=
  if negb (isConnected r) then None
  else if rejects r GET then None
  else live r now key.

(** [set(key, value, expiry)], [expiry] in seconds ([setEx]). *)
Definition set (r : t) (now : Z) (key : string) (value : Payload)
    (expiry : Z) : bool * t :=
  if negb (isConnected r) then (false, r)
  else if rejects r SETEX then (false, r)
  else (true, with_keys r (<[key := (value, now + expiry * 1000)]> (keys r))).

(** [del(key)]: the command DEL removes the key of that exact name. *)
Definition del (r : t) (key : string) : bool * t :=
  if negb (isConnected r) then (false, r)
  else if rejects r DEL then (false, r)
  else (true, with_keys r (delete key (keys r))).

(** The [options] handed to [retry_strategy]: the code of
    [options.error] when there is one, the time spent retrying
    (milliseconds) and the number of the attempt. *)
Record RetryOptions := {
  error_code : option string;
  total_retry_time : Z;
  attempt : Z
}.

Inductive RetryDecision :=
| RetryError (message : string)     (* return new Error(...) *)
| RetryStop                         (* return undefined *)
| RetryAfter (milliseconds : Z).    (* return the delay *)

(** [retry_strategy] of [connect]. *)
Definition retry_strategy (options : RetryOptions) : RetryDecision :=
  if bool_decide (error_code options = Some "ECONNREFUSED") then
    RetryError "Redis server connection refused"
  else if 1000 * 60 * 60 <? total_retry_time options then
    RetryError "Retry time exhausted"
  else if 10 <? attempt options then RetryStop
  else RetryAfter (Z.min (attempt options * 100) 3000).

End RedisClient.

(** ** The Elasticsearch adapter (config/elasticsearch.js) *)

Module ElasticsearchClient.

(** [has_client] is [this.client] being non-null; [rejects] says that
    the requests of the client fail; [index] is the [courses] index, a
    document per id. *)
Record t := {
  isConnected : bool;
  has_client : bool;
  rejects : bool;
  index : gmap N IndexDoc
}.

Record SearchResults := {
  hits : list Hit;
  total : N
}.

Definition body_of (course : Course) : IndexDoc :=
  {| d_course_id := course_id course;
     d_title := title course;
     d_description := description course;
     d_category := category course;
     d_instructor := instructor course;
     d_duration := duration course;
     d_created_at := created_at course;
     d_updated_at := updated_at course |}.

Definition isHealthy (e : t) : bool := isConnected e.

Definition indexCourse (e : t) (course : Course) : bool * t :=
  if negb (isConnected e) || negb (has_client e) then (false, e)
  else if rejects e then (false, e)
  else (true,
        {| isConnected := isConnected e; has_client := has_client e;
           rejects := rejects e;
           index := <[_id course := body_of course]> (index e) |}).

Definition empty_results : SearchResults := {| hits := []; total := 0 |}.

(** The two returns of an empty result: the adapter is not connected,
    or the search throws and is caught. *)
Definition searchCourses `{Platform} (e : t) (query : string)
    (filter_category filter_instructor : option string) (page size : JS.Num)
    : SearchResults :=
  if negb (isConnected e) || negb (has_client e) then empty_results
  else if rejects e then empty_results
  else
    let body :=
      {| sb_must := match query with
                    | EmptyString => MatchAll
                    | _ => MultiMatch query
                    end;
         sb_filter_category :=
           if JS.truthy filter_category then filter_category else None;
         sb_filter_instructor :=
           if JS.truthy filter_instructor then filter_instructor else None;
         sb_from := JS.mul (JS.sub1 page) size;
         sb_size := size |} in
    match es_search (index e) body with
    | Some response => {| hits := fst response; total := snd response |}
    | None => empty_results
    end.

End ElasticsearchClient.

(** ** The state of the service *)

Record Services := {
  store : Store;
  redis : RedisClient.t;
  es : ElasticsearchClient.t
}.

Definition with_redis (sv : Services) (r : RedisClient.t) : Services :=
  {| store := store sv; redis := r; es := es sv |}.

(** ** The course service (services/courses/server.js) *)

Section CourseService.

Context `{Platform}.

(** [`courses:${prefix}:${params.join(':')}`] *)
Definition getCacheKey (prefix : string) (params : list string) : string :=
  "courses:" +:+ prefix +:+ ":" +:+ JS.join ":" params.

(** *** Index synchronisation *)

Definition published (c : Course) : bool := String.eqb (status c) "published".

(** [Course.find({ status: 'published' }).limit(1000)], then
    [indexCourse] on each in turn. *)
Definition syncCoursesToElasticsearch (sv : Services) : Services :=
  if negb (ElasticsearchClient.isHealthy (es sv)) then sv
  else
    let courses := take 1000 (List.filter published (docs (store sv))) in
    {| store := store sv; redis := redis sv;
       es := fold_left (fun e course => snd (ElasticsearchClient.indexCourse e course))
               courses (es sv) |}.

(** *** Authentication middleware *)

Record User := { user_id : string; user_role : string }.

(** [authHeader && authHeader.split(' ')[1]] *)
Definition bearer_token (authHeader : option string) : option string :=
  match authHeader with
  | Some (String a s) => JS.split " " (String a s) !! 1%nat
  | other => other
  end.

(** Either the 401 response, or [req.user] for the next handler.  Any
    non-empty token is accepted. *)
Definition authenticateToken (authorization : option string)
    : Response + User :=
  if negb (JS.truthy (bearer_token authorization)) then
    inl (reply 401 false "Access denied. No token provided.")
  else
    inr {| user_id := "demo-user"; user_role := "admin" |}.

(** *** The queries of the model *)

(** [.skip(skip).limit(limitNum)] on the documents a query selects, in
    their order: the store refuses a negative [skip], and a [limitNum] of
    0 is no limit. *)
Definition window (skip limitNum : JS.Num) (l : list Course)
    : option (list Course) :=
  match skip, limitNum with
  | JS.Fin false s, JS.Fin false n =>
      if ((JS.exact <? s) || (JS.exact <? n))%N then store_window skip limitNum l
      else if (n =? 0)%N then Some (drop (N.to_nat s) l)
      else Some (take (N.to_nat n) (drop (N.to_nat s) l))
  | JS.Fin true (Npos _), _ => None
  | _, _ => store_window skip limitNum l
  end.

(** [Course.find(query).sort({[field]: order}).skip(skip).limit(limitNum)];
    [None] when the query throws. *)
Definition find (st : Store) (query : Course -> bool) (field : string)
    (descending : bool) (skip limitNum : JS.Num) : option (list Course) :=
  match store_sort field descending (List.filter query (docs st)) with
  | Some sorted => window skip limitNum sorted
  | None => None
  end.

(** [Course.countDocuments(query)] *)
Definition countDocuments (st : Store) (query : Course -> bool) : N :=
  N.of_nat (length (List.filter query (docs st))).

(** *** GET /api/courses *)

(** The query string, each parameter given at most once. *)
Record ListQuery := {
  lq_page : option string;
  lq_limit : option string;
  lq_category : option string;
  lq_instructor : option string;
  lq_level : option string;
  lq_status : option string;
  lq_sort : option string;
  lq_order : option string;
  lq_search : option string
}.

(** [parseInt(page)], [page] being 1 by default. *)
Definition page_number (page : option string) : JS.Num :=
  JS.parseInt (default "1" page).

(** [parseInt(limit)], [limit] being 10 by default. *)
Definition page_size (limit : option string) : JS.Num :=
  JS.parseInt (default "10" limit).

(** The [pagination] member of a result. *)
Definition paginate (pageNum limitNum : JS.Num) (total : N) : Pagination :=
  {| current_page := JS.json pageNum;
     total_pages := JS.json (JS.ceil_div total limitNum);
     total_items := total;
     items_per_page := JS.json limitNum;
     has_next := JS.lt pageNum (JS.ceil_div total limitNum);
     has_prev := JS.lt (JS.Fin false 1) pageNum |}.

(** [new RegExp(pattern, 'i')] when the parameter is given: the outer
    [None] is the pattern being refused. *)
Definition pattern_of (parameter : option string)
    : option (option (string -> bool)) :=
  if JS.truthy parameter then
    match regexp_i (default "" parameter) with
    | Some re => Some (Some re)
    | None => None
    end
  else Some None.

(** The filter built by the handler, evaluated on a document. *)
Definition list_match (q : ListQuery)
    (instructor_re search_re : option (string -> bool)) (c : Course) : bool :=
  String.eqb (status c) (default "published" (lq_status q))
  && (if JS.truthy (lq_category q)
      then String.eqb (category c) (default "" (lq_category q)) else true)
  && match instructor_re with
     | Some re => re (instructor c)
     | None => true
     end
  && (if JS.truthy (lq_level q)
      then String.eqb (level c) (default "" (lq_level q)) else true)
  && match search_re with
     | Some re =>
         re (title c) || re (description c) || re (instructor c)
         || existsb re (tags c)
     | None => true
     end.

(** The [query] object; [None] when [new RegExp] throws. *)
Definition list_query (q : ListQuery) : option (Course -> bool) :=
  match pattern_of (lq_instructor q), pattern_of (lq_search q) with
  | Some instructor_re, Some search_re =>
      Some (list_match q instructor_re search_re)
  | _, _ => None
  end.

Definition list_key (q : ListQuery) : string :=
  getCacheKey "list"
    [ JS.toString (page_number (lq_page q));
      JS.toString (page_size (lq_limit q));
      JS.or_else (lq_category q) "all";
      JS.or_else (lq_instructor q) "all";
      JS.or_else (lq_level q) "all";
      default "published" (lq_status q);
      default "created_at" (lq_sort q);
      default "desc" (lq_order q);
      JS.or_else (lq_search q) "none" ].

(** The result computed from the store on a miss; [None] when building
    or running the query throws. *)
Definition list_result (st : Store) (q : ListQuery) : option Payload :=
  let pageNum := page_number (lq_page q) in
  let limitNum := page_size (lq_limit q) in
  let skip := JS.mul (JS.sub1 pageNum) limitNum in
  match list_query q with
  | Some query =>
      let descending := String.eqb (default "desc" (lq_order q)) "desc" in
      match find st query (default "created_at" (lq_sort q)) descending
              skip limitNum with
      | Some courses =>
          Some (PList courses
                  (paginate pageNum limitNum (countDocuments st query)))
      | None => None
      end
  | None => None
  end.

Definition get_courses (sv : Services) (now : Z) (q : ListQuery)
    : Response * Services :=
  let cacheKey := list_key q in
  match RedisClient.get (redis sv) now cacheKey with
  | Some cachedResult =>
      (reply_cached "Courses retrieved from cache" (DResult cachedResult), sv)
  | None =>
      match list_result (store sv) q with
      | Some result =>
          let r := snd (RedisClient.set (redis sv) now cacheKey result 300) in
          (reply_data 200 "Courses retrieved successfully" (DResult result),
           with_redis sv r)
      | None =>
          (reply 500 false "Internal server error while retrieving courses", sv)
      end
  end.

(** *** GET /api/courses/search *)

(** The query string, each parameter given at most once. *)
Record SearchQuery := {
  sq_q : option string;
  sq_category : option string;
  sq_instructor : option string;
  sq_page : option string;
  sq_size : option string
}.

(** The key is built from [page] and [size] as they were sent. *)
Definition search_key (q : SearchQuery) : string :=
  getCacheKey "search"
    [ default "" (sq_q q);
      JS.or_else (sq_category q) "all";
      JS.or_else (sq_instructor q) "all";
      default "1" (sq_page q);
      default "10" (sq_size q) ].

Definition search_result (e : ElasticsearchClient.t) (q : SearchQuery)
    : Payload :=
  let page := page_number (sq_page q) in
  let size := page_size (sq_size q) in
  let searchResults :=
    ElasticsearchClient.searchCourses e (JS.trim (default "" (sq_q q)))
      (sq_category q) (sq_instructor q) page size in
  PSearch (ElasticsearchClient.hits searchResults)
    (paginate page size (ElasticsearchClient.total searchResults))
    (default "" (sq_q q)).

Definition search_courses (sv : Services) (now : Z) (q : SearchQuery)
    : Response * Services :=
  if negb (JS.truthy (sq_q q))
     || String.eqb (JS.trim (default "" (sq_q q))) "" then
    (reply 400 false "Search query is required", sv)
  else
    let cacheKey := search_key q in
    match RedisClient.get (redis sv) now cacheKey with
    | Some cachedResult =>
        (reply_cached "Search results retrieved from cache"
           (DResult cachedResult), sv)
    | None =>
        let result := search_result (es sv) q in
        let r := snd (RedisClient.set (redis sv) now cacheKey result 120) in
        (reply_data 200 "Courses searched successfully" (DResult result),
         with_redis sv r)
    end.

(** *** GET /api/courses/:id *)

(** [Course.findOne({ $or: [{ _id: id }, { course_id: id.toUpperCase() }] })]:
    the outer [None] is the cast of [id] failing, which throws. *)
Definition findOne (st : Store) (id : string) : option (option Course) :=
  match castObjectId id with
  | None => None
  | Some oid =>
      Some (List.find
              (fun c => N.eqb (_id c) oid
                        || String.eqb (course_id c) (JS.toUpperCase id))
              (docs st))
  end.

Definition single_key (id : string) : string := getCacheKey "single" [id].

Definition get_course (sv : Services) (now : Z) (id : string)
    : Response * Services :=
  let cacheKey := single_key id in
  match RedisClient.get (redis sv) now cacheKey with
  | Some cachedCourse =>
      (reply_cached "Course retrieved from cache" (DCourse cachedCourse), sv)
  | None =>
      match findOne (store sv) id with
      | None =>
          (reply 500 false "Internal server error while retrieving course", sv)
      | Some None => (reply 404 false "Course not found", sv)
      | Some (Some course) =>
          let r := snd (RedisClient.set (redis sv) now cacheKey
                          (PCourse course) 600) in
          (reply_data 200 "Course retrieved successfully"
             (DCourse (PCourse course)),
           with_redis sv r)
      end
  end.

(** *** GET /api/courses/stats/overview *)

Definition Qsum (l : list Q) : Q := fold_right Qplus 0%Q l.

(** [$avg] over a non-empty group. *)
Definition Qavg (l : list Q) : Q := (Qsum l / inject_Z (Z.of_nat (length l)))%Q.

(** [$round: [x, places]]: to the nearest, ties to the even digit. *)
Definition round_half_even (x : Q) : Z :=
  let f := Qfloor x in
  match Qcompare (x - inject_Z f) (1 # 2) with
  | Lt => f
  | Gt => f + 1
  | Eq => if Z.even f then f else f + 1
  end.

Definition mongo_round (x : Q) (places : nat) : Q :=
  let scale := inject_Z (10 ^ Z.of_nat places) in
  (inject_Z (round_half_even (x * scale)) / scale)%Q.

(** [Math.round(x)] *)
Definition math_round (x : Q) : Z := Qfloor (x + (1 # 2)).

(** The first pipeline: one group for the whole collection, no group
    when the collection is empty. *)
Definition aggregate_overview (l : list Course) : list Overview :=
  match l with
  | [] => []
  | _ =>
      [ {| totalCourses := Z.of_nat (length l);
           totalEnrollments := Qsum (enrollments <$> l);
           averageRating := mongo_round (Qavg (rating <$> l)) 2;
           averageDuration := mongo_round (Qavg (duration <$> l)) 1;
           averagePrice := mongo_round (Qavg (price <$> l)) 2 |} ]
  end.

(** The values of a key in order of first occurrence. *)
Fixpoint distinct (l : list string) : list string :=
  match l with
  | [] => []
  | x :: rest => x :: List.filter (fun y => negb (String.eqb x y)) (distinct rest)
  end.

(** A group of the second pipeline, before the sort:
    [_id], [count], [totalEnrollments], [averageRating]. *)
Definition category_group (l : list Course) (cat : string)
    : string * Z * Q * Q :=
  let members := List.filter (fun c => String.eqb (category c) cat) l in
  (cat, Z.of_nat (length members), Qsum (enrollments <$> members),
   Qavg (rating <$> members)).

Definition group_count (g : string * Z * Q * Q) : Z := snd (fst (fst g)).

(** [$sort: { count: -1 }], groups of equal count staying in the order
    of first occurrence. *)
Fixpoint insert_by_count (g : string * Z * Q * Q)
    (sorted : list (string * Z * Q * Q)) : list (string * Z * Q * Q) :=
  match sorted with
  | [] => [g]
  | h :: rest =>
      if group_count h <=? group_count g then g :: h :: rest
      else h :: insert_by_count g rest
  end.

Definition aggregate_categories (l : list Course)
    : list (string * Z * Q * Q) :=
  fold_right insert_by_count []
    (category_group l <$> distinct (category <$> l)).

Definition stats_result (st : Store) : Payload :=
  let stats := aggregate_overview (docs st) in
  let categoryStats := aggregate_categories (docs st) in
  PStats
    (default {| totalCourses := 0; totalEnrollments := 0;
                averageRating := 0; averageDuration := 0;
                averagePrice := 0 |} (head stats))
    ((fun cat : string * Z * Q * Q =>
        {| cs_category := fst (fst (fst cat));
           cs_courseCount := group_count cat;
           cs_totalEnrollments := snd (fst cat);
           cs_averageRating :=
             (inject_Z (math_round (snd cat * 100)) / 100)%Q |})
       <$> categoryStats).

Definition stats_key : string := getCacheKey "stats" ["overview"].

Definition get_stats (sv : Services) (now : Z) : Response * Services :=
  let cacheKey := stats_key in
  match RedisClient.get (redis sv) now cacheKey with
  | Some cachedStats =>
      (reply_cached "Statistics retrieved from cache" (DResult cachedStats), sv)
  | None =>
      let result := stats_result (store sv) in
      let r := snd (RedisClient.set (redis sv) now cacheKey result 900) in
      (reply_data 200 "Statistics retrieved successfully" (DResult result),
       with_redis sv r)
  end.

(** *** POST /api/courses/upload *)

(** What the CSV parser made of the uploaded file: the row objects,
    keyed by header, or a stream error. *)
Inductive CsvOutcome :=
| CsvRows (results : list (gmap string string))
| CsvError (message : string).

Definition requiredFields : list string :=
  [ "title"; "description"; "category"; "instructor"; "duration" ].

(** [!row[field] || row[field].trim() === ''] *)
Definition blank (row : gmap string string) (field : string) : bool :=
  negb (JS.truthy (row !! field))
  || String.eqb (JS.trim (default "" (row !! field))) "".

Definition missingFields (row : gmap string string) : list string :=
  List.filter (blank row) requiredFields.

Definition row_error (rowNum : nat) (missing : list string) : string :=
  "Row " +:+ pretty rowNum +:+ ": Missing required fields: "
  +:+ JS.join ", " missing.

(** [parseFloat(x) || 0]; [parseFloat(undefined)] is NaN. *)
Definition float_or_zero (x : option string) : Q :=
  match x with
  | None => 0%Q
  | Some s => default 0%Q (parseFloat s)
  end.

(** [Math.min(x, 5)] *)
Definition min5 (x : Q) : Q := if Qle_bool x 5 then x else 5%Q.

(** [x ? x.split(',').map(f) : []] *)
Definition split_list (f : string -> string) (x : option string) : list string :=
  if JS.truthy x then f <$> JS.split "," (default "" x) else [].

(** The [courseData] prepared from a row, with the category and the
    level coerced into their closed sets. *)
Definition prepare (row : gmap string string) : CourseData :=
  let category := JS.trim <$> row !! "category" in
  let level := JS.or_else (JS.trim <$> row !! "level") "Beginner" in
  {| in_course_id := (fun s => JS.trim (JS.toUpperCase s)) <$> row !! "course_id";
     in_title := JS.trim <$> row !! "title";
     in_description := JS.trim <$> row !! "description";
     in_category :=
       match category with
       | Some cat => if Schema.includes Schema.categories cat
                     then Some cat else Some "Other"
       | None => Some "Other"
       end;
     in_instructor := JS.trim <$> row !! "instructor";
     in_duration := Some (float_or_zero (row !! "duration"));
     in_level := if Schema.includes Schema.levels level
                 then Some level else Some "Beginner";
     in_price := Some (float_or_zero (row !! "price"));
     in_enrollments := None;
     in_rating := Some (min5 (float_or_zero (row !! "rating")));
     in_tags := split_list (fun tag => JS.toLowerCase (JS.trim tag)) (row !! "tags");
     in_prerequisites := split_list JS.trim (row !! "prerequisites");
     in_learning_outcomes := split_list JS.trim (row !! "learning_outcomes");
     in_thumbnail_url :=
       Some (JS.or_else (JS.trim <$> row !! "thumbnail_url")
               Schema.default_thumbnail);
     in_status := None;
     in_created_by := None |}.

(** The validation loop: [coursesToSave] and [errors], both in row
    order; [rowNum] is the number of the first row of [results]. *)
Fixpoint validate_rows (rowNum : nat) (results : list (gmap string string))
    : list CourseData * list string :=
  match results with
  | [] => ([], [])
  | row :: rest =>
      let later := validate_rows (S rowNum) rest in
      match missingFields row with
      | [] => (prepare row :: fst later, snd later)
      | missing => (fst later, row_error rowNum missing :: snd later)
      end
  end.

Record SaveLoop := {
  savedCourses : list Course;
  saveErrors : list string;
  loop_store : Store;
  loop_es : ElasticsearchClient.t
}.

Definition save_error_message (courseData : CourseData) (e : SaveError) : string :=
  match e with
  | DuplicateKey =>
      "Course with ID " +:+ default "undefined" (in_course_id courseData)
      +:+ " already exists"
  | _ =>
      "Error saving course " +:+ JS.dquote
      +:+ default "undefined" (in_title courseData) +:+ JS.dquote +:+ ": "
      +:+ error_message e
  end.

(** The save loop: each course is saved and, when the index is healthy,
    indexed; a failed save is recorded and the loop goes on. *)
Fixpoint save_courses (now : Z) (st : Store) (e : ElasticsearchClient.t)
    (coursesToSave : list CourseData) : SaveLoop :=
  match coursesToSave with
  | [] => {| savedCourses := []; saveErrors := []; loop_store := st; loop_es := e |}
  | courseData :: rest =>
      match save now st courseData with
      | inr (savedCourse, st') =>
          let e' := if ElasticsearchClient.isHealthy e
                    then snd (ElasticsearchClient.indexCourse e savedCourse)
                    else e in
          let later := save_courses now st' e' rest in
          {| savedCourses := savedCourse :: savedCourses later;
             saveErrors := saveErrors later;
             loop_store := loop_store later;
             loop_es := loop_es later |}
      | inl error =>
          let later := save_courses now st e rest in
          {| savedCourses := savedCourses later;
             saveErrors := save_error_message courseData error :: saveErrors later;
             loop_store := loop_store later;
             loop_es := loop_es later |}
      end
  end.

(** The handler, after [upload.single('csvFile')]: [file] is [req.file]
    as parsed, [None] when the request has no file. *)
Definition upload_courses (sv : Services) (now : Z) (file : option CsvOutcome)
    : Response * Services :=
  match file with
  | None => (reply 400 false "No CSV file uploaded", sv)
  | Some (CsvError message) =>
      ({| res_status := 500; res_success := false;
          res_message := "Internal server error during CSV upload";
          res_data := None; res_errors := None;
          res_error := if development then Some message else None;
          res_cached := None |}, sv)
  | Some (CsvRows results) =>
      match results with
      | [] => (reply 400 false "CSV file is empty or invalid", sv)
      | _ =>
          let prepared := validate_rows 1 results in
          let coursesToSave := fst prepared in
          let errors := snd prepared in
          match coursesToSave with
          | [] =>
              ({| res_status := 400; res_success := false;
                  res_message := "No valid courses found in CSV";
                  res_data := None; res_errors := Some (RowErrors errors);
                  res_error := None; res_cached := None |}, sv)
          | _ =>
              let loop := save_courses now (store sv) (es sv) coursesToSave in
              (* computed and not used by the handler *)
              let cachePattern := getCacheKey "list" ["*"] in
              ({| res_status := 200; res_success := true;
                  res_message := "CSV upload processed successfully";
                  res_data :=
                    Some (DReport (length results) (length coursesToSave)
                            (length (savedCourses loop)) (savedCourses loop));
                  res_errors := Some (RowErrors (errors ++ saveErrors loop));
                  res_error := None; res_cached := None |},
               {| store := loop_store loop; redis := redis sv;
                  es := loop_es loop |})
          end
      end
  end.

(** *** POST /api/courses *)

(** [{ ...req.body, created_by: req.user.id }] *)
Definition with_created_by (body : CourseData) (uid : string) : CourseData :=
  {| in_course_id := in_course_id body; in_title := in_title body;
     in_description := in_description body; in_category := in_category body;
     in_instructor := in_instructor body; in_duration := in_duration body;
     in_level := in_level body; in_price := in_price body;
     in_enrollments := in_enrollments body; in_rating := in_rating body;
     in_tags := in_tags body; in_prerequisites := in_prerequisites body;
     in_learning_outcomes := in_learning_outcomes body;
     in_thumbnail_url := in_thumbnail_url body; in_status := in_status body;
     in_created_by := Some uid |}.

Definition create_course (sv : Services) (now : Z) (user : User)
    (body : CourseData) : Response * Services :=
  let courseData := with_created_by body (user_id user) in
  match save now (store sv) courseData with
  | inr (savedCourse, st') =>
      let e' := if ElasticsearchClient.isHealthy (es sv)
                then snd (ElasticsearchClient.indexCourse (es sv) savedCourse)
                else es sv in
      let r' := snd (RedisClient.del (redis sv) (getCacheKey "list" ["*"])) in
      (reply_data 201 "Course created successfully"
         (DCourse (PCourse savedCourse)),
       {| store := st'; redis := r'; es := e' |})
  | inl (ValidationError errs) =>
      ({| res_status := 400; res_success := false;
          res_message := "Validation error";
          res_data := None; res_errors := Some (FieldErrors errs);
          res_error := None; res_cached := None |}, sv)
  | inl DuplicateKey =>
      (reply 409 false "Course with this ID already exists", sv)
  end.

(** *** Route registration *)

Inductive Route :=
| GET_courses (q : ListQuery)
| GET_courses_search (q : SearchQuery)
| GET_courses_id (id : string)
| POST_courses_upload (csvFile : option CsvOutcome)
| POST_courses (body : CourseData)
| GET_courses_stats_overview.

Record Request := {
  authorization : option string;      (* req.headers['authorization'] *)
  route : Route
}.

(** The application: each route with the middleware it is registered
    with.  Only [POST /api/courses] goes through [authenticateToken]. *)
Definition app (sv : Services) (now : Z) (req : Request)
    : Response * Services :=
  match route req with
  | GET_courses q => get_courses sv now q
  | GET_courses_search q => search_courses sv now q
  | GET_courses_id id => get_course sv now id
  | POST_courses_upload csvFile => upload_courses sv now csvFile
  | POST_courses body =>
      match authenticateToken (authorization req) with
      | inl denied => (denied, sv)
      | inr user => create_course sv now user body
      end
  | GET_courses_stats_overview => get_stats sv now
  end.

End CourseService.

(** ** A concrete platform and sample data *)

Module Sample.

Definition digit (a : ascii) : option Z :=
  let n := nat_of_ascii a in
  if ((48 <=? n)%nat && (n <=? 57)%nat)%bool then Some (Z.of_nat (n - 48)) else None.

(** The digits at the head of a string: their value, their number, and
    the rest of the string. *)
Fixpoint digits (s : string) (acc : Z) (count : nat) : Z * nat * string :=
  match s with
  | EmptyString => (acc, count, s)
  | String a s' =>
      match digit a with
      | Some d => digits s' (acc * 10 + d) (S count)
      | None => (acc, count, s)
      end
  end.

(** [parseFloat] on plain decimal literals: leading white space, an
    optional sign, digits, an optional fraction. *)
Definition parse_decimal (s : string) : option Q :=
  let s1 := JS.trimStart s in
  let signed :=
    match s1 with
    | String a r =>
        if Ascii.eqb a "-" then (true, r)
        else if Ascii.eqb a "+" then (false, r) else (false, s1)
    | EmptyString => (false, s1)
    end in
  let ip := digits (snd signed) 0 0 in
  let fp :=
    match snd ip with
    | String a r => if Ascii.eqb a "." then digits r 0 0 else (0, 0%nat, snd ip)
    | EmptyString => (0, 0%nat, snd ip)
    end in
  if (snd (fst ip) + snd (fst fp) =? 0)%nat then None
  else
    let v := (inject_Z (fst (fst ip))
              + inject_Z (fst (fst fp)) / inject_Z (10 ^ Z.of_nat (snd (fst fp))))%Q in
    Some (Qred (if fst signed then (- v)%Q else v)).

Definition hex_digit (a : ascii) : option N :=
  let n := nat_of_ascii a in
  if ((48 <=? n)%nat && (n <=? 57)%nat)%bool then Some (N.of_nat (n - 48))
  else if ((97 <=? n)%nat && (n <=? 102)%nat)%bool then Some (N.of_nat (n - 87))
  else if ((65 <=? n)%nat && (n <=? 70)%nat)%bool then Some (N.of_nat (n - 55))
  else None.

Fixpoint hex_value (s : string) (acc : N) : option N :=
  match s with
  | EmptyString => Some acc
  | String a s' =>
      match hex_digit a with
      | Some d => hex_value s' (acc * 16 + d)%N
      | None => None
      end
  end.

(** The cast of the driver: a string of 24 hexadecimal digits. *)
Definition cast_hex24 (s : string) : option ObjectId :=
  if (String.length s =? 24)%nat then hex_value s 0%N else None.

(** A pattern without metacharacters matches where it occurs, whatever
    the letter case. *)
Fixpoint occurs (p s : string) : bool :=
  String.prefix p s
  || match s with
     | EmptyString => false
     | String _ s' => occurs p s'
     end.

Definition contains_i (pattern s : string) : bool :=
  occurs (JS.toLowerCase pattern) (JS.toLowerCase s).

(** The characters that are not literal in a pattern. *)
Definition metacharacters : string := "\^$.|?*+()[]{}".

Fixpoint literal (pattern : string) : bool :=
  match pattern with
  | EmptyString => true
  | String a rest =>
      negb (existsb (Ascii.eqb a) (String.list_ascii_of_string metacharacters))
      && literal rest
  end.

(** The sample engine takes the patterns without metacharacters and
    refuses the others, as [new RegExp] refuses [(]. *)
Definition literal_pattern (pattern : string) : option (string -> bool) :=
  if literal pattern then Some (contains_i pattern) else None.

(** The collection is kept in creation order: descending on the
    creation instant is the reverse.  The sample store sorts on the
    creation instant only. *)
Definition sort_created (field : string) (descending : bool)
    (l : list Course) : option (list Course) :=
  if String.eqb field "created_at" then Some (if descending then rev l else l)
  else None.

(** The sample store throws on a window that [window] leaves to it. *)
Definition no_window (skip limitNum : JS.Num) (l : list Course)
    : option (list Course) := None.

(** A search engine that scores 1 the documents whose title contains
    the query, and returns the requested page in key order; it fails on
    a [from] or a [size] that is not an integer from 0 on. *)
Definition title_search (idx : gmap N IndexDoc) (body : SearchBody)
    : option (list Hit * N) :=
  let matching :=
    List.filter
      (fun kd : N * IndexDoc =>
         match sb_must body with
         | MultiMatch q => contains_i q (d_title (snd kd))
         | MatchAll => true
         end)
      (map_to_list idx) in
  match sb_from body, sb_size body with
  | JS.Fin false from, JS.Fin false size =>
      Some ((fun kd : N * IndexDoc =>
               {| h_source := snd kd; h_id := fst kd; h_score := 1%Q |})
              <$> take (N.to_nat size) (drop (N.to_nat from) matching),
            N.of_nat (length matching))
  | _, _ => None
  end.

#[export] Instance platform : Platform :=
  {| parseFloat := parse_decimal;
     regexp_i := literal_pattern;
     store_sort := sort_created;
     store_window := no_window;
     castObjectId := cast_hex24;
     es_search := title_search;
     development := false |}.

Definition row (fields : list (string * string)) : gmap string string :=
  list_to_map fields.

Definition good_row (cid ttl : string) : gmap string string :=
  row [ ("course_id", cid); ("title", ttl);
        ("description", "An introduction to the subject");
        ("category", "Programming"); ("instructor", "Ada Lovelace");
        ("duration", "40"); ("level", "Beginner"); ("price", "19.5");
        ("rating", "4.5"); ("tags", "code, Basics") ].

(** The row of [good_row] without its title. *)
Definition untitled_row (cid : string) : gmap string string :=
  delete "title" (good_row cid "").

Definition redis_up : RedisClient.t :=
  {| RedisClient.isConnected := true; RedisClient.rejects := fun _ => false;
     RedisClient.keys := ∅ |}.




Definition es_up : ElasticsearchClient.t :=
  {| ElasticsearchClient.isConnected := true;
     ElasticsearchClient.has_client := true;
     ElasticsearchClient.rejects := false;
     ElasticsearchClient.index := ∅ |}.

Definition es_down : ElasticsearchClient.t :=
  {| ElasticsearchClient.isConnected := false;
     ElasticsearchClient.has_client := true;
     ElasticsearchClient.rejects := false;
     ElasticsearchClient.index := ∅ |}.

Definition empty_store : Store := {| docs := []; next_oid := 0%N |}.

(** A fresh service: nothing stored, cached or indexed. *)
Definition fresh : Services :=
  {| store := empty_store; redis := redis_up; es := es_up |}.

Definition no_list_query : ListQuery :=
  {| lq_page := None; lq_limit := None; lq_category := None;
     lq_instructor := None; lq_level := None; lq_status := None;
     lq_sort := None; lq_order := None; lq_search := None |}.

Definition search_for (q : string) : SearchQuery :=
  {| sq_q := Some q; sq_category := None; sq_instructor := None;
     sq_page := None; sq_size := None |}.

Definition body_of_course (cid ttl : string) : CourseData :=
  {| in_course_id := Some cid; in_title := Some ttl;
     in_description := Some "An introduction to the subject";
     in_category := Some "Programming"; in_instructor := Some "Ada Lovelace";
     in_duration := Some 40%Q; in_level := None; in_price := None;
     in_enrollments := None; in_rating := None; in_tags := [];
     in_prerequisites := []; in_learning_outcomes := [];
     in_thumbnail_url := None; in_status := None; in_created_by := None |}.

Definition demo_user : User := {| user_id := "demo-user"; user_role := "admin" |}.

Definition request (auth : option string) (r : Route) : Request :=
  {| authorization := auth; route := r |}.

(** The document of a course with a given ordinal: the id is the
    ordinal, the course id is [C] followed by the ordinal. *)
Definition numbered (n : nat) : Course :=
  Schema.build (N.of_nat n) 0
    (Schema.apply_setters
       (body_of_course ("C" +:+ pretty n) ("Course number " +:+ pretty n))).

(** A store of [n] published courses. *)
Definition store_of (n : nat) : Store :=
  {| docs := numbered <$> seq 0 n; next_oid := N.of_nat n |}.


End Sample.

(** ** Vocabulary of the statements *)



(** The cache adapter is connected and its commands work. *)
Definition cache_up (r : RedisClient.t) : Prop :=
  RedisClient.isConnected r = true ∧ ∀ c, RedisClient.rejects r c = false.

(** The search adapter is unavailable. *)
Definition index_down (e : ElasticsearchClient.t) : Prop :=
  ElasticsearchClient.isConnected e = false
  ∨ ElasticsearchClient.has_client e = false
  ∨ ElasticsearchClient.rejects e = true.

Definition index_up (e : ElasticsearchClient.t) : Prop :=
  ElasticsearchClient.isConnected e = true
  ∧ ElasticsearchClient.has_client e = true
  ∧ ElasticsearchClient.rejects e = false.

(** [!q || q.trim() === ''] *)
Definition blank_query (q : SearchQuery) : bool :=
  negb (JS.truthy (sq_q q)) || String.eqb (JS.trim (default "" (sq_q q))) "".

(** The four read operations. *)
Definition read_route (r : Route) : bool :=
  match r with
  | GET_courses _ | GET_courses_search _ | GET_courses_id _
  | GET_courses_stats_overview => true
  | POST_courses_upload _ | POST_courses _ => false
  end.

(** What the cache answers to the lookup a route makes, if it makes
    one. *)
Definition cache_answer (sv : Services) (now : Z) (r : Route)
    : option Payload :=
  match r with
  | GET_courses q => RedisClient.get (redis sv) now (list_key q)
  | GET_courses_search q =>
      if blank_query q then None
      else RedisClient.get (redis sv) now (search_key q)
  | GET_courses_id id => RedisClient.get (redis sv) now (single_key id)
  | GET_courses_stats_overview => RedisClient.get (redis sv) now stats_key
  | POST_courses_upload _ | POST_courses _ => None
  end.

(** How a route wraps a payload in [data]. *)
Definition wrap (r : Route) (p : Payload) : Data :=
  match r with
  | GET_courses_id _ => DCourse p
  | _ => DResult p
  end.

(** The answer of a read computed from the store or the index alone;
    [None] on the routes that are not reads. *)
Definition direct_answer `{Platform} (sv : Services) (r : Route)
    : option Response :=
  match r with
  | GET_courses q =>
      Some match list_result (store sv) q with
           | Some result =>
               reply_data 200 "Courses retrieved successfully" (DResult result)
           | None =>
               reply 500 false "Internal server error while retrieving courses"
           end
  | GET_courses_search q =>
      Some (if blank_query q then reply 400 false "Search query is required"
            else reply_data 200 "Courses searched successfully"
                   (DResult (search_result (es sv) q)))
  | GET_courses_id id =>
      Some match findOne (store sv) id with
           | None => reply 500 false "Internal server error while retrieving course"
           | Some None => reply 404 false "Course not found"
           | Some (Some course) =>
               reply_data 200 "Course retrieved successfully"
                 (DCourse (PCourse course))
           end
  | GET_courses_stats_overview =>
      Some (reply_data 200 "Statistics retrieved successfully"
              (DResult (stats_result (store sv))))
  | POST_courses_upload _ | POST_courses _ => None
  end.

(** The page of results built from no hits: [{hits: [], total: 0}]. *)
Definition empty_page (q : SearchQuery) : Payload :=
  let page := JS.parseInt (default "1" (sq_page q)) in
  let size := JS.parseInt (default "10" (sq_size q)) in
  PSearch []
    {| current_page := JS.json page;
       total_pages := JS.json (JS.ceil_div 0 size);
       total_items := 0;
       items_per_page := JS.json size;
       has_next := JS.lt page (JS.ceil_div 0 size);
       has_prev := JS.lt (JS.Fin false 1) page |}
    (default "" (sq_q q)).


(** A row fails the required-field check. *)
Definition invalid_row (row : gmap string string) : bool :=
  match missingFields row with
  | [] => false
  | _ :: _ => true
  end.

(** The number of courses of a batch whose save fails when its turn
    comes (a duplicate [course_id] or a schema validation failure), the
    store being threaded through the saves as the loop does. *)
Fixpoint failed_saves (now : Z) (st : Store) (coursesToSave : list CourseData)
    : nat :=
  match coursesToSave with
  | [] => 0
  | courseData :: rest =>
      match save now st courseData with
      | inr (_, st') => failed_saves now st' rest
      | inl _ => S (failed_saves now st rest)
      end
  end.

(** The store after the courses of a list have gone through the save
    loop. *)
Fixpoint store_after (now : Z) (st : Store) (coursesToSave : list CourseData)
    : Store :=
  match coursesToSave with
  | [] => st
  | courseData :: rest =>
      match save now st courseData with
      | inr (_, st') => store_after now st' rest
      | inl _ => store_after now st rest
      end
  end.

(** The body of the last course of a list that has a given id. *)
Fixpoint last_body (l : list Course) (k : N) : option IndexDoc :=
  match l with
  | [] => None
  | c :: rest =>
      match last_body rest k with
      | Some d => Some d
      | None => if N.eqb (_id c) k then Some (ElasticsearchClient.body_of c) else None
      end
  end.

(** The search adapter is available, as a test. *)
Definition index_ready (e : ElasticsearchClient.t) : bool :=
  ElasticsearchClient.isConnected e && ElasticsearchClient.has_client e
  && negb (ElasticsearchClient.rejects e).

(** The courses a sweep reads. *)
Definition swept (st : Store) : list Course :=
  take 1000 (List.filter published (docs st)).

(** What may happen to the service between two requests of interest: a
    request is served at some instant, or the search index or the store
    changes behind the service (the index recovers, goes down, is
    resynchronised; documents are written by another process). *)
Inductive Step :=
| Serve (t : Z) (req : Request)
| IndexBecomes (e : ElasticsearchClient.t)
| StoreBecomes (st : Store).

Fixpoint run `{Platform} (sv : Services) (steps : list Step) : Services :=
  match steps with
  | [] => sv
  | Serve t req :: rest => run (snd (app sv t req)) rest
  | IndexBecomes e :: rest =>
      run {| store := store sv; redis := redis sv; es := e |} rest
  | StoreBecomes st :: rest =>
      run {| store := st; redis := redis sv; es := es sv |} rest
  end.

(** The requests of a step are served before a deadline. *)
Definition before (deadline : Z) (s : Step) : Prop :=
  match s with
  | Serve t _ => t < deadline
  | _ => True
  end.

(** No character of a string is the space. *)
Fixpoint spaceless (s : string) : bool :=
  match s with
  | EmptyString => true
  | String a s' => negb (Ascii.eqb a " ") && spaceless s'
  end.

(** Every character of a string is white space. *)
Definition all_space (s : string) : bool := forallb JS.is_white (JS.chars s).

(** A list that does not begin with an element passing a test. *)
Definition starts_clean {A} (f : A -> bool) (l : list A) : Prop :=
  match l with
  | [] => True
  | x :: _ => f x = false
  end.

(** The bytes after the first of a character continue it. *)
Fixpoint continues (s : string) : bool :=
  match s with
  | EmptyString => true
  | String a s' => JS.is_continuation a && continues s'
  end.

(** A string that is one character. *)
Definition one_char (c : string) : bool :=
  match c with
  | EmptyString => false
  | String _ rest => continues rest
  end.

(** A string that begins with the first byte of a character. *)
Definition begins_char (c : string) : bool :=
  match c with
  | EmptyString => false
  | String a _ => negb (JS.is_continuation a)
  end.

(** A list of strings that is a run of the characters of a string. *)
Definition segmented (cs : list string) : Prop :=
  forallb one_char cs = true ∧ forallb begins_char (tail cs) = true.

(** The error reported for the row at index [i] of an upload whose
    first row has the number [first], if the row lacks a required field. *)
Definition numbered_error (first i : nat) (row : gmap string string)
    : option string :=
  if invalid_row row then Some (row_error (first + i) (missingFields row))
  else None.

(** The key a read looks up, and the seconds its result is kept. *)
Definition route_key (r : Route) : option string :=
  match r with
  | GET_courses q => Some (list_key q)
  | GET_courses_search q => Some (search_key q)
  | GET_courses_id id => Some (single_key id)
  | GET_courses_stats_overview => Some stats_key
  | POST_courses_upload _ | POST_courses _ => None
  end.

Definition route_ttl (r : Route) : Z :=
  match r with
  | GET_courses _ => 300
  | GET_courses_search _ => 120
  | GET_courses_id _ => 600
  | GET_courses_stats_overview => 900
  | POST_courses_upload _ | POST_courses _ => 0
  end.

(** A list query with its category filter replaced. *)
Definition with_category (q : ListQuery) (c : option string) : ListQuery :=
  {| lq_page := lq_page q; lq_limit := lq_limit q; lq_category := c;
     lq_instructor := lq_instructor q; lq_level := lq_level q;
     lq_status := lq_status q; lq_sort := lq_sort q; lq_order := lq_order q;
     lq_search := lq_search q |}.

(** The collection respects its two unique indexes, and the ids handed
    out so far are below the next one. *)
Definition store_ok (st : Store) : Prop :=
  NoDup (course_id <$> docs st)
  ∧ NoDup (_id <$> docs st)
  ∧ ∀ c, c ∈ docs st → (_id c < next_oid st)%N.

(** A step that does not replace the collection behind the service. *)
Definition keeps_store (s : Step) : Prop :=
  match s with
  | StoreBecomes _ => False
  | _ => True
  end.

(** A step that is neither a create nor a replacement of the collection:
    a read or an upload is served, or the index changes. *)
Definition reads_or_uploads (s : Step) : Prop :=
  match s with
  | Serve _ req =>
      match route req with
      | POST_courses _ => False
      | _ => True
      end
  | IndexBecomes _ => True
  | StoreBecomes _ => False
  end.

(** What the schema demands of a stored course. *)
Definition meets_schema (c : Course) : Prop :=
  course_id c ≠ ""
  ∧ JS.toUpperCase (course_id c) = course_id c
  ∧ JS.trim (course_id c) = course_id c
  ∧ (3 ≤ JS.length (title c) ≤ 200)%nat
  ∧ (10 ≤ JS.length (description c) ≤ 2000)%nat
  ∧ category c ∈ Schema.categories
  ∧ (2 ≤ JS.length (instructor c) ≤ 100)%nat
  ∧ (1 <= duration c <= 1000)%Q
  ∧ level c ∈ Schema.levels
  ∧ (0 <= price c)%Q
  ∧ (0 <= enrollments c)%Q
  ∧ (0 <= rating c <= 5)%Q
  ∧ status c ∈ Schema.statuses.


(** The counts of the category groups are in descending order. *)
Fixpoint descending (counts : list Z) : Prop :=
  match counts with
  | [] => True
  | x :: rest => (∀ y, y ∈ rest → y ≤ x) ∧ descending rest
  end.

(** ** Strings and numbers *)

Section Strings.

Lemma concat_glue a cs : JS.concat (JS.glue a cs) = String a (JS.concat cs).
Proof.
  unfold JS.glue. destruct cs as [| [| b c] rest]; try done.
  by destruct (JS.is_continuation b).
Qed.

Lemma concat_chars s : JS.concat (JS.chars s) = s.
Proof.
  induction s as [| a s IH]; [done |]. simpl. by rewrite concat_glue, IH.
Qed.

Lemma chars_segmented s : segmented (JS.chars s).
Proof.
  unfold segmented. induction s as [| a s [IH1 IH2]]; [done |]. simpl.
  unfold JS.glue. destruct (JS.chars s) as [| [| b c] rest]; try done.
  simpl in *. destruct (JS.is_continuation b) eqn:Hb; simpl.
  - rewrite Hb. simpl. split; [done |]. by apply andb_true_iff in IH1 as [_ ?].
  - rewrite Hb. simpl. split; [done | done].
Qed.

Lemma chars_unit a t rest :
  continues t = true →
  forallb begins_char rest = true →
  JS.chars (JS.concat rest) = rest →
  JS.chars (String a (t +:+ JS.concat rest)) = String a t :: rest.
Proof.
  intros Ht Hrest Hchars. revert a. induction t as [| b t IH]; intros a.
  - change (JS.chars (String a ("" +:+ JS.concat rest)))
      with (JS.glue a (JS.chars (JS.concat rest))).
    rewrite Hchars. unfold JS.glue.
    destruct rest as [| [| b c] rest']; try done.
    simpl in Hrest. apply andb_true_iff in Hrest as [Hb _].
    by rewrite (negb_true_iff _) in Hb; rewrite Hb.
  - simpl in Ht. apply andb_true_iff in Ht as [Hb Ht].
    change (JS.chars (String a (String b t +:+ JS.concat rest)))
      with (JS.glue a (JS.chars (String b (t +:+ JS.concat rest)))).
    rewrite (IH Ht b). simpl. by rewrite Hb.
Qed.

Lemma chars_concat cs : segmented cs → JS.chars (JS.concat cs) = cs.
Proof.
  unfold segmented. induction cs as [| c rest IH]; [done |].
  simpl. intros [[Hc Hunits]%andb_true_iff Hlead].
  destruct c as [| a t]; [done |]. simpl in Hc.
  apply chars_unit; [done | done |].
  apply IH. split; [done |]. destruct rest; [done |].
  simpl in Hlead. by apply andb_true_iff in Hlead as [_ ?].
Qed.

Lemma forallb_drop_while {A} (P f : A → bool) l :
  forallb P l = true → forallb P (JS.drop_while f l) = true.
Proof.
  induction l as [| x l IH]; [done |]. simpl.
  intros [Hx Hl]%andb_true_iff. destruct (f x); [by apply IH |].
  simpl. by rewrite Hx, Hl.
Qed.

Lemma forallb_drop_end {A} (P f : A → bool) l :
  forallb P l = true → forallb P (JS.drop_end f l) = true.
Proof.
  induction l as [| x l IH]; [done |]. simpl.
  intros [Hx Hl]%andb_true_iff. specialize (IH Hl).
  destruct (JS.drop_end f l) as [| y t].
  - destruct (f x); [done |]. simpl. by rewrite Hx.
  - simpl in *. by rewrite Hx, IH.
Qed.

Lemma forallb_tail {A} (P : A → bool) l :
  forallb P l = true → forallb P (tail l) = true.
Proof. destruct l; [done |]. simpl. by intros [_ ?]%andb_true_iff. Qed.

Lemma segmented_drop_while f cs : segmented cs → segmented (JS.drop_while f cs).
Proof.
  unfold segmented. induction cs as [| c rest IH]; [done |].
  intros [Hunits Hlead]. simpl. destruct (f c); [| done].
  apply IH. simpl in *. apply andb_true_iff in Hunits as [_ Hunits].
  split; [done | by apply forallb_tail].
Qed.

Lemma segmented_drop_end f cs : segmented cs → segmented (JS.drop_end f cs).
Proof.
  unfold segmented. intros [Hunits Hlead]. split.
  - by apply forallb_drop_end.
  - destruct cs as [| c rest]; [done |]. simpl in *.
    pose proof (forallb_drop_end begins_char f rest Hlead) as Hkept.
    destruct (JS.drop_end f rest) as [| y t]; [by destruct (f c) | done].
Qed.

Lemma drop_while_clean {A} (f : A → bool) l : starts_clean f (JS.drop_while f l).
Proof.
  induction l as [| x l IH]; [done |]. simpl. by destruct (f x) eqn:Hx.
Qed.

Lemma drop_while_of_clean {A} (f : A → bool) l :
  starts_clean f l → JS.drop_while f l = l.
Proof. destruct l as [| x l]; [done |]. simpl. by intros ->. Qed.

Lemma drop_end_keeps_clean {A} (f : A → bool) l :
  starts_clean f l → starts_clean f (JS.drop_end f l).
Proof.
  destruct l as [| x l]; [done |]. simpl. intros Hx.
  destruct (JS.drop_end f l); simpl; [by rewrite Hx | done].
Qed.

Lemma drop_end_idem {A} (f : A → bool) l :
  JS.drop_end f (JS.drop_end f l) = JS.drop_end f l.
Proof.
  induction l as [| x l IH]; [done |]. simpl.
  destruct (JS.drop_end f l) as [| y t] eqn:Ht.
  - destruct (f x) eqn:Hx; [done |]. simpl. by rewrite Hx.
  - simpl in *. by rewrite IH.
Qed.

Lemma chars_trimStart s :
  JS.chars (JS.trimStart s) = JS.drop_while JS.is_white (JS.chars s).
Proof. apply chars_concat, segmented_drop_while, chars_segmented. Qed.

Lemma chars_trim s :
  JS.chars (JS.trim s)
  = JS.drop_end JS.is_white (JS.drop_while JS.is_white (JS.chars s)).
Proof.
  unfold JS.trim, JS.trimEnd. rewrite chars_trimStart.
  apply chars_concat, segmented_drop_end, segmented_drop_while, chars_segmented.
Qed.

Lemma trim_idem (s : string) : JS.trim (JS.trim s) = JS.trim s.
Proof.
  unfold JS.trim at 1. unfold JS.trimStart, JS.trimEnd.
  rewrite chars_trim.
  rewrite (drop_while_of_clean JS.is_white)
    by apply drop_end_keeps_clean, drop_while_clean.
  rewrite chars_concat
    by apply segmented_drop_end, segmented_drop_while, chars_segmented.
  rewrite drop_end_idem. unfold JS.trim, JS.trimEnd. by rewrite chars_trimStart.
Qed.

(** A string made of white space trims to nothing. *)
Lemma trim_all_space (s : string) : all_space s = true → JS.trim s = "".
Proof.
  unfold all_space. intros Hall.
  assert (JS.drop_while JS.is_white (JS.chars s) = []) as Hnone.
  { induction (JS.chars s) as [| c cs IH]; [done |]. simpl in *.
    apply andb_true_iff in Hall as [-> Hall]. by apply IH. }
  unfold JS.trim, JS.trimEnd. rewrite chars_trimStart, Hnone. done.
Qed.

(** The case mappings leave the bytes from 128 on as they are and keep
    the others below 128. *)
Lemma upper_ascii_byte (a : ascii) :
  JS.upper_ascii a = a
  ∨ ((JS.code a < 128)%N ∧ (JS.code (JS.upper_ascii a) < 128)%N).
Proof. destruct a as [[] [] [] [] [] [] [] []]; vm_compute; auto. Qed.

Lemma lower_ascii_byte (a : ascii) :
  JS.lower_ascii a = a
  ∨ ((JS.code a < 128)%N ∧ (JS.code (JS.lower_ascii a) < 128)%N).
Proof. destruct a as [[] [] [] [] [] [] [] []]; vm_compute; auto. Qed.

Lemma upper_ascii_space (a : ascii) :
  JS.is_space (JS.upper_ascii a) = JS.is_space a.
Proof. destruct a as [[] [] [] [] [] [] [] []]; by vm_compute. Qed.

Lemma lower_ascii_space (a : ascii) :
  JS.is_space (JS.lower_ascii a) = JS.is_space a.
Proof. destruct a as [[] [] [] [] [] [] [] []]; by vm_compute. Qed.

Lemma upper_ascii_idem (a : ascii) :
  JS.upper_ascii (JS.upper_ascii a) = JS.upper_ascii a.
Proof. destruct a as [[] [] [] [] [] [] [] []]; by vm_compute. Qed.

Lemma lower_ascii_idem (a : ascii) :
  JS.lower_ascii (JS.lower_ascii a) = JS.lower_ascii a.
Proof. destruct a as [[] [] [] [] [] [] [] []]; by vm_compute. Qed.

Section Mapped.

(** A mapping of the bytes that moves the bytes below 128 only. *)
Variable f : ascii → ascii.
Hypothesis f_byte :
  ∀ a, f a = a ∨ ((JS.code a < 128)%N ∧ (JS.code (f a) < 128)%N).
Hypothesis f_space : ∀ a, JS.is_space (f a) = JS.is_space a.

Lemma mapped_continuation a : JS.is_continuation (f a) = JS.is_continuation a.
Proof.
  destruct (f_byte a) as [-> | [Ha Hfa]]; [done |].
  unfold JS.is_continuation.
  rewrite (proj2 (N.leb_gt _ _)) by done.
  by rewrite (proj2 (N.leb_gt 128 (JS.code a))) by done.
Qed.

Lemma mapped_append (s t : string) :
  JS.map_string f (s +:+ t) = JS.map_string f s +:+ JS.map_string f t.
Proof. induction s as [| a s IH]; [done |]. simpl. by rewrite IH. Qed.

Lemma mapped_concat (cs : list string) :
  JS.map_string f (JS.concat cs) = JS.concat (JS.map_string f <$> cs).
Proof.
  induction cs as [| c cs IH]; [done |]. simpl.
  by rewrite mapped_append, IH.
Qed.

Lemma mapped_chars (s : string) :
  JS.chars (JS.map_string f s) = JS.map_string f <$> JS.chars s.
Proof.
  induction s as [| a s IH]; [done |]. simpl. rewrite IH.
  unfold JS.glue. destruct (JS.chars s) as [| [| b c] rest]; try done.
  simpl. rewrite mapped_continuation. by destruct (JS.is_continuation b).
Qed.

Lemma eqb_low (x k : N) : (x < 128)%N → (128 ≤ k)%N → (x =? k)%N = false.
Proof. intros. apply N.eqb_neq. lia. Qed.

Lemma mapped_eqb (a : ascii) (k : N) :
  (128 ≤ k)%N → (JS.code (f a) =? k)%N = (JS.code a =? k)%N.
Proof.
  intros Hk. destruct (f_byte a) as [-> | [Ha Hfa]]; [done |].
  by rewrite !eqb_low.
Qed.

Lemma mapped_range (a : ascii) (lo hi : N) :
  (128 ≤ lo)%N →
  ((lo <=? JS.code (f a)) && (JS.code (f a) <=? hi))%N
  = ((lo <=? JS.code a) && (JS.code a <=? hi))%N.
Proof.
  intros Hlo. destruct (f_byte a) as [-> | [Ha Hfa]]; [done |].
  rewrite (proj2 (N.leb_gt lo _)) by lia.
  by rewrite (proj2 (N.leb_gt lo (JS.code a))) by lia.
Qed.

Lemma mapped_white (c : string) :
  JS.is_white (JS.map_string f c) = JS.is_white c.
Proof.
  destruct c as [| a [| b [| d [| e c]]]]; simpl; try done.
  - by rewrite !mapped_eqb by lia.
  - rewrite !mapped_eqb by lia. by rewrite mapped_range by lia.
Qed.

Lemma mapped_drop_while (cs : list string) :
  JS.drop_while JS.is_white (JS.map_string f <$> cs)
  = JS.map_string f <$> JS.drop_while JS.is_white cs.
Proof.
  induction cs as [| c cs IH]; [done |]. rewrite fmap_cons. simpl.
  rewrite mapped_white. by destruct (JS.is_white c).
Qed.

Lemma mapped_drop_end (cs : list string) :
  JS.drop_end JS.is_white (JS.map_string f <$> cs)
  = JS.map_string f <$> JS.drop_end JS.is_white cs.
Proof.
  induction cs as [| c cs IH]; [done |]. rewrite fmap_cons. simpl.
  rewrite IH, mapped_white.
  destruct (JS.drop_end JS.is_white cs); simpl; [by destruct (JS.is_white c) | done].
Qed.

Lemma mapped_trim (s : string) :
  JS.trim (JS.map_string f s) = JS.map_string f (JS.trim s).
Proof.
  unfold JS.trim, JS.trimEnd. rewrite !chars_trimStart, mapped_chars.
  by rewrite mapped_drop_while, mapped_drop_end, mapped_concat.
Qed.

End Mapped.

Lemma trim_upper (s : string) :
  JS.trim (JS.toUpperCase s) = JS.toUpperCase (JS.trim s).
Proof. apply mapped_trim; [apply upper_ascii_byte | apply upper_ascii_space]. Qed.

Lemma trim_lower (s : string) :
  JS.trim (JS.toLowerCase s) = JS.toLowerCase (JS.trim s).
Proof. apply mapped_trim; [apply lower_ascii_byte | apply lower_ascii_space]. Qed.

Lemma toUpperCase_idem (s : string) :
  JS.toUpperCase (JS.toUpperCase s) = JS.toUpperCase s.
Proof.
  unfold JS.toUpperCase. induction s as [| a s IH]; [done |].
  simpl. by rewrite upper_ascii_idem, IH.
Qed.

Lemma toLowerCase_idem (s : string) :
  JS.toLowerCase (JS.toLowerCase s) = JS.toLowerCase s.
Proof.
  unfold JS.toLowerCase. induction s as [| a s IH]; [done |].
  simpl. by rewrite lower_ascii_idem, IH.
Qed.

(** Below 2^53 an integer is a double as it is. *)
Lemma round53_exact (m : N) : (m < JS.exact)%N → JS.round53 m = m.
Proof.
  intros Hm. unfold JS.round53.
  destruct (N.size m <=? 53)%N eqn:Hsize; [done |].
  apply N.leb_gt in Hsize. exfalso.
  pose proof (N.size_le m) as Hle.
  assert (2 ^ 54 ≤ 2 ^ N.size m)%N as Hpow by (apply N.pow_le_mono_r; lia).
  assert (2 ^ 54 = 2 * JS.exact)%N as Heq by done.
  rewrite N.succ_double_spec in Hle. lia.
Qed.

Lemma double_exact (negative : bool) (m : N) :
  (m < JS.exact)%N → JS.double negative m = JS.Fin negative m.
Proof.
  intros Hm. unfold JS.double. rewrite round53_exact by done.
  assert (JS.exact < JS.overflow)%N as Hlt by done.
  by rewrite (proj2 (N.ltb_lt _ _)) by lia.
Qed.

End Strings.
(** ** Properties of the adapters *)

Section Adapters.




Lemma redis_get_up r now key :
  cache_up r → RedisClient.get r now key = RedisClient.live r now key.
Proof. unfold RedisClient.get. intros [-> Hr]. by rewrite Hr. Qed.

Lemma redis_set_up r now key v ttl :
  cache_up r →
  RedisClient.set r now key v ttl
  = (true, RedisClient.with_keys r (<[key := (v, now + ttl * 1000)]> (RedisClient.keys r))).
Proof. unfold RedisClient.set. intros [-> Hr]. by rewrite Hr. Qed.

Lemma redis_set_keeps_up r now key v ttl :
  cache_up r → cache_up (snd (RedisClient.set r now key v ttl)).
Proof. intros Hup. rewrite redis_set_up; [|done]. by destruct Hup. Qed.

(** A value set with a time to live is read back until it expires. *)
Lemma redis_get_after_set r now key v ttl now' :
  cache_up r → now' < now + ttl * 1000 →
  RedisClient.get (snd (RedisClient.set r now key v ttl)) now' key = Some v.
Proof.
  intros Hup Hlt. rewrite redis_set_up; [|done]. simpl.
  rewrite redis_get_up; [| by destruct Hup].
  unfold RedisClient.live. simpl. rewrite lookup_insert_eq.
  by rewrite (proj2 (Z.ltb_lt _ _) Hlt).
Qed.

(** Whatever the command that is skipped or fails, the flags of the
    adapter stay as they are, and so do the keys unless the command goes
    through. *)
Lemma redis_set_flags r t k v ttl :
  RedisClient.isConnected (snd (RedisClient.set r t k v ttl)) = RedisClient.isConnected r
  ∧ RedisClient.rejects (snd (RedisClient.set r t k v ttl)) = RedisClient.rejects r.
Proof.
  unfold RedisClient.set.
  by destruct (RedisClient.isConnected r) eqn:Hc,
    (RedisClient.rejects r RedisClient.SETEX) eqn:Hr.
Qed.

Lemma redis_del_flags r k :
  RedisClient.isConnected (snd (RedisClient.del r k)) = RedisClient.isConnected r
  ∧ RedisClient.rejects (snd (RedisClient.del r k)) = RedisClient.rejects r.
Proof.
  unfold RedisClient.del.
  by destruct (RedisClient.isConnected r) eqn:Hc,
    (RedisClient.rejects r RedisClient.DEL) eqn:Hr.
Qed.

Lemma search_down `{Platform} e query fc fi page size :
  index_down e →
  ElasticsearchClient.searchCourses e query fc fi page size
  = ElasticsearchClient.empty_results.
Proof.
  unfold ElasticsearchClient.searchCourses.
  intros [-> | [-> | ->]]; [done | |].
  - by rewrite orb_true_r.
  - by destruct (_ || _).
Qed.

End Adapters.
(** ** The cache-aside protocol of the reads *)

Section CacheAside.

Context `{Platform}.

Lemma redis_get_empty r now key :
  RedisClient.keys r = ∅ → RedisClient.get r now key = None.
Proof.
  intros Hk. unfold RedisClient.get, RedisClient.live. rewrite Hk, lookup_empty.
  by destruct (negb _), (RedisClient.rejects r RedisClient.GET).
Qed.

(** On a miss a read answers [direct_answer], whatever becomes of the
    attempt to populate the cache. *)
Lemma miss_answer sv now req :
  read_route (route req) = true →
  cache_answer sv now (route req) = None →
  Some (fst (app sv now req)) = direct_answer sv (route req).
Proof.
  unfold app. destruct (route req) as [q | q | id | f | b |]; try done; simpl.
  - intros _ Hmiss. unfold get_courses. rewrite Hmiss.
    by destruct (list_result (store sv) q).
  - intros _. unfold search_courses, blank_query.
    destruct (negb _ || _); [done |]. intros Hmiss. by rewrite Hmiss.
  - intros _ Hmiss. unfold get_course. rewrite Hmiss.
    by destruct (findOne (store sv) id) as [[c |] |].
  - intros _ Hmiss. unfold get_stats. by rewrite Hmiss.
Qed.

(** On a hit a read answers the cached payload, tagged, and changes
    nothing. *)
Lemma hit_answer sv now req p :
  cache_answer sv now (route req) = Some p →
  ∃ msg, app sv now req = (reply_cached msg (wrap (route req) p), sv).
Proof.
  unfold app. destruct (route req) as [q | q | id | f | b |]; try done; simpl.
  - intros Hhit. unfold get_courses. rewrite Hhit. eauto.
  - unfold search_courses, blank_query.
    destruct (negb _ || _); [done |]. intros Hhit. rewrite Hhit. eauto.
  - intros Hhit. unfold get_course. rewrite Hhit. eauto.
  - intros Hhit. unfold get_stats. rewrite Hhit. eauto.
Qed.

Lemma direct_answer_untagged sv r resp :
  direct_answer sv r = Some resp → res_cached resp = None.
Proof.
  destruct r as [q | q | id | f | b |]; simpl; try done.
  - intros [= <-]. by destruct (list_result (store sv) q).
  - intros [= <-]. by destruct (blank_query q).
  - intros [= <-]. by destruct (findOne (store sv) id) as [[c |] |].
  - by intros [= <-].
Qed.


Lemma cache_answer_empty sv now r :
  RedisClient.keys (redis sv) = ∅ → cache_answer sv now r = None.
Proof.
  intros Hd. destruct r as [q | q | id | f | b |]; simpl; try done;
    try by apply redis_get_empty.
  destruct (blank_query q); [done | by apply redis_get_empty].
Qed.





(** C5, as amended.  A response served from the cache carries
    [cached: true] and the cached payload; a response computed on a miss
    (and every rejection) carries no [cached] member at all: the flag is
    never [false]. *)
Theorem cached_flag_only_on_hits (sv : Services) (now : Z) (req : Request) :
  match cache_answer sv now (route req) with
  | Some p =>
      res_cached (fst (app sv now req)) = Some true
      ∧ res_data (fst (app sv now req)) = Some (wrap (route req) p)
      ∧ snd (app sv now req) = sv
  | None =>
      res_cached (fst (app sv now req)) = None
      ∧ (read_route (route req) = true →
         Some (fst (app sv now req)) = direct_answer sv (route req))
  end.
Proof.
  destruct (cache_answer sv now (route req)) as [p |] eqn:Hc.
  - destruct (hit_answer sv now req p Hc) as [msg ->]. by simpl.
  - split; [| intros Hread; by apply miss_answer].
    destruct (read_route (route req)) eqn:Hread.
    + pose proof (miss_answer sv now req Hread Hc) as Hans.
      symmetry in Hans. by apply direct_answer_untagged in Hans.
    + unfold app. destruct (route req) as [q | q | id | f | b |]; try done.
      * unfold upload_courses.
        destruct f as [[results | message] |]; try done.
        destruct results as [| row rest]; [done |].
        by destruct (fst (validate_rows 1 (row :: rest))).
      * destruct (authenticateToken (authorization req)) as [denied | user] eqn:Ha.
        -- unfold authenticateToken in Ha.
           destruct (negb _) in Ha; [| done]. by injection Ha as <-.
        -- unfold create_course.
           by destruct (save now (store sv) _) as [[errs |] | [c st']].
Qed.

End CacheAside.
(** ** What the writes do to the cache *)

Section Invalidation.

Context `{Platform}.

(** The upload does not touch the cache. *)
Lemma upload_keeps_cache sv now file :
  redis (snd (upload_courses sv now file)) = redis sv.
Proof.
  unfold upload_courses. destruct file as [[results | message] |]; try done.
  destruct results as [| row rest]; [done |].
  by destruct (fst (validate_rows 1 (row :: rest))).
Qed.

(** The create deletes at most the key named [courses:list:*]. *)
Lemma create_cache sv now user body :
  redis (snd (create_course sv now user body)) = redis sv
  ∨ redis (snd (create_course sv now user body))
    = snd (RedisClient.del (redis sv) (getCacheKey "list" ["*"])).
Proof.
  unfold create_course.
  destruct (save now (store sv) _) as [[errs |] | [c st']]; auto.
Qed.

Lemma redis_get_del_other r now key other :
  key ≠ other →
  RedisClient.get (snd (RedisClient.del r other)) now key = RedisClient.get r now key.
Proof.
  intros Hne. unfold RedisClient.get, RedisClient.del.
  destruct (RedisClient.isConnected r) eqn:Hc; simpl; [| by rewrite Hc].
  destruct (RedisClient.rejects r RedisClient.DEL) eqn:Hr; simpl; rewrite Hc;
    simpl; [done |].
  unfold RedisClient.live. simpl. by rewrite lookup_delete_ne.
Qed.

Lemma star_is_no_joined_key (x y : string) : x +:+ ":" +:+ y ≠ "*".
Proof.
  destruct x as [| a [| b x]]; simpl.
  - intros [=].
  - intros [= _ [=]].
  - intros [=].
Qed.

(** No key of the list, search, single or statistics entries is the key
    that the create deletes. *)
Lemma cache_keys_are_not_the_star_key :
  (∀ q, list_key q ≠ getCacheKey "list" ["*"])
  ∧ (∀ q, search_key q ≠ getCacheKey "list" ["*"])
  ∧ (∀ id, single_key id ≠ getCacheKey "list" ["*"])
  ∧ stats_key ≠ getCacheKey "list" ["*"].
Proof.
  repeat split; try done.
  intros q. unfold list_key, getCacheKey.
  cbn [String.append JS.join]. intros [= Heq].
  by apply star_is_no_joined_key in Heq.
Qed.

(** Whatever a list, search, single or statistics key held before a
    create or an upload, it holds after it. *)
Lemma writes_keep_entries sv now now' req key :
  read_route (route req) = false →
  key ≠ getCacheKey "list" ["*"] →
  RedisClient.get (redis (snd (app sv now req))) now' key
  = RedisClient.get (redis sv) now' key.
Proof.
  intros Hw Hkey. unfold app.
  destruct (route req) as [q | q | id | file | body |]; try done.
  - by rewrite upload_keeps_cache.
  - destruct (authenticateToken (authorization req)) as [denied | user]; [done |].
    destruct (create_cache sv now user body) as [-> | ->]; [done |].
    by apply redis_get_del_other.
Qed.

End Invalidation.
(** ** What the requests do to a live entry *)

Section Entries.

Context `{Platform}.

Lemma redis_del_keeps r k key entry :
  RedisClient.keys r !! key = Some entry → k ≠ key →
  RedisClient.keys (snd (RedisClient.del r k)) !! key = Some entry.
Proof.
  intros Hentry Hne. unfold RedisClient.del.
  destruct (RedisClient.isConnected r), (RedisClient.rejects r RedisClient.DEL);
    simpl; try done.
  by rewrite lookup_delete_ne.
Qed.

(** When the [get] of the client works, the populate step of a read
    that missed does not disturb an entry that is live: either it writes
    another key, or the miss was the adapter not being connected and it
    writes nothing. *)
Lemma populate_keeps r t k v ttl key p expires :
  RedisClient.rejects r RedisClient.GET = false →
  RedisClient.keys r !! key = Some (p, expires) → t < expires →
  RedisClient.get r t k = None →
  RedisClient.keys (snd (RedisClient.set r t k v ttl)) !! key = Some (p, expires).
Proof.
  intros Hgets Hentry Hlive.
  unfold RedisClient.get, RedisClient.set, RedisClient.live. rewrite Hgets.
  destruct (RedisClient.isConnected r), (RedisClient.rejects r RedisClient.SETEX);
    simpl; try done.
  destruct (decide (k = key)) as [-> | Hne].
  - rewrite Hentry. by rewrite (proj2 (Z.ltb_lt _ _) Hlive).
  - intros _. by rewrite lookup_insert_ne.
Qed.

(** When the [get] of the client works, no request removes or replaces
    an entry that is live when the request is served, and none changes
    the flags of the adapter. *)
Lemma request_keeps_live_entry sv t req key p expires :
  RedisClient.rejects (redis sv) RedisClient.GET = false →
  key ≠ getCacheKey "list" ["*"] →
  RedisClient.keys (redis sv) !! key = Some (p, expires) → t < expires →
  RedisClient.keys (redis (snd (app sv t req))) !! key = Some (p, expires)
  ∧ RedisClient.isConnected (redis (snd (app sv t req)))
    = RedisClient.isConnected (redis sv)
  ∧ RedisClient.rejects (redis (snd (app sv t req))) = RedisClient.rejects (redis sv).
Proof.
  intros Hgets Hstar Hentry Hlive. unfold app.
  destruct (route req) as [q | q | id | file | body |].
  - unfold get_courses.
    destruct (RedisClient.get (redis sv) t (list_key q)) eqn:Hget; [done |].
    destruct (list_result (store sv) q); [| done].
    cbn [snd with_redis redis].
    split; [by eapply populate_keeps | apply redis_set_flags].
  - unfold search_courses. destruct (negb _ || _); [done |].
    destruct (RedisClient.get (redis sv) t (search_key q)) eqn:Hget; [done |].
    cbn [snd with_redis redis].
    split; [by eapply populate_keeps | apply redis_set_flags].
  - unfold get_course.
    destruct (RedisClient.get (redis sv) t (single_key id)) eqn:Hget; [done |].
    destruct (findOne (store sv) id) as [[c |] |]; try done.
    cbn [snd with_redis redis].
    split; [by eapply populate_keeps | apply redis_set_flags].
  - by rewrite upload_keeps_cache.
  - destruct (authenticateToken (authorization req)) as [denied | user]; [done |].
    destruct (create_cache sv t user body) as [-> | ->]; [done |].
    split; [by apply redis_del_keeps | apply redis_del_flags].
  - unfold get_stats.
    destruct (RedisClient.get (redis sv) t stats_key) eqn:Hget; [done |].
    cbn [snd with_redis redis].
    split; [by eapply populate_keeps | apply redis_set_flags].
Qed.

Lemma run_keeps_live_entry sv steps key p expires :
  RedisClient.rejects (redis sv) RedisClient.GET = false →
  key ≠ getCacheKey "list" ["*"] →
  Forall (before expires) steps →
  RedisClient.keys (redis sv) !! key = Some (p, expires) →
  RedisClient.keys (redis (run sv steps)) !! key = Some (p, expires)
  ∧ RedisClient.isConnected (redis (run sv steps)) = RedisClient.isConnected (redis sv)
  ∧ RedisClient.rejects (redis (run sv steps)) = RedisClient.rejects (redis sv).
Proof.
  intros Hgets Hstar Hall. revert sv Hgets.
  induction Hall as [| step steps Hstep Hsteps IH]; intros sv Hgets Hentry; [done |].
  destruct step as [t req | e | st]; simpl in *.
  - destruct (request_keeps_live_entry sv t req key p expires Hgets Hstar Hentry Hstep)
      as (Hkept & Hc & Hr).
    destruct (IH (snd (app sv t req))) as (H1 & H2 & H3); [by rewrite Hr | done |].
    by rewrite H2, H3.
  - apply (IH {| store := store sv; redis := redis sv; es := e |} Hgets Hentry).
  - apply (IH {| store := st; redis := redis sv; es := es sv |} Hgets Hentry).
Qed.

End Entries.
(** ** Keyword search while the index is unavailable *)

Section SearchOutage.

Context `{Platform}.

Lemma search_result_down e q :
  index_down e → search_result e q = empty_page q.
Proof.
  intros Hd. unfold search_result, empty_page.
  by rewrite search_down.
Qed.

(** The empty page of a query whose [page] and [size] parse to positive
    integers: 0 pages of 0 items, no next page. *)
Lemma empty_page_positive q (page size : positive) :
  page_number (sq_page q) = JS.Fin false (Npos page) →
  page_size (sq_size q) = JS.Fin false (Npos size) →
  empty_page q
  = PSearch []
      {| current_page := Some (Z.pos page); total_pages := Some 0;
         total_items := 0; items_per_page := Some (Z.pos size);
         has_next := false; has_prev := 1 <? Z.pos page |}
      (default "" (sq_q q)).
Proof.
  unfold page_number, page_size, empty_page. intros -> ->.
  cbn [JS.json JS.ceil_div JS.lt JS.signed].
  assert (((0 + N.pos size - 1) / N.pos size)%N = 0%N) as ->
    by (apply N.div_small; lia).
  f_equal.
Qed.

(** C10.  With a working cache and the search index unavailable, a
    keyword search that misses the cache answers 200 with no hits and a
    total of 0, and stores that empty page under the search key for 120
    seconds.  Until those 120 seconds are over the same query is answered
    the cached empty page, tagged [cached: true], whatever requests were
    served in between and whatever the index and the store have become,
    the index having recovered included.  When [page] and [size] parse
    to positive integers, the empty page has 0 pages, 0 items and no
    next page. *)
Theorem empty_search_is_cached_while_index_down
    (sv : Services) (now : Z) (q : SearchQuery) :
  cache_up (redis sv) →
  index_down (es sv) →
  blank_query q = false →
  RedisClient.get (redis sv) now (search_key q) = None →
  let after := snd (search_courses sv now q) in
  fst (search_courses sv now q)
  = reply_data 200 "Courses searched successfully" (DResult (empty_page q))
  ∧ RedisClient.keys (redis after) !! search_key q
    = Some (empty_page q, now + 120 * 1000)
  ∧ (∀ (steps : list Step) (now' : Z),
      Forall (before (now + 120 * 1000)) steps →
      now' < now + 120 * 1000 →
      search_courses (run after steps) now' q
      = (reply_cached "Search results retrieved from cache"
           (DResult (empty_page q)),
         run after steps))
  ∧ ∀ page size : positive,
      page_number (sq_page q) = JS.Fin false (Npos page) →
      page_size (sq_size q) = JS.Fin false (Npos size) →
      empty_page q
      = PSearch []
          {| current_page := Some (Z.pos page); total_pages := Some 0;
             total_items := 0; items_per_page := Some (Z.pos size);
             has_next := false; has_prev := 1 <? Z.pos page |}
          (default "" (sq_q q)).
Proof.
  intros Hup Hdown Hq Hmiss after.
  assert (search_courses sv now q
          = (reply_data 200 "Courses searched successfully"
               (DResult (empty_page q)),
             with_redis sv
               (snd (RedisClient.set (redis sv) now (search_key q)
                       (empty_page q) 120)))) as Hrun.
  { unfold search_courses. unfold blank_query in Hq. rewrite Hq, Hmiss.
    by rewrite search_result_down. }
  assert (RedisClient.keys (redis after) !! search_key q
          = Some (empty_page q, now + 120 * 1000)) as Hentry.
  { subst after. rewrite Hrun. cbn [snd with_redis redis].
    rewrite redis_set_up by done. cbn [snd RedisClient.with_keys RedisClient.keys].
    by rewrite lookup_insert_eq. }
  assert (cache_up (redis after)) as Hup'.
  { subst after. rewrite Hrun. cbn [snd with_redis redis].
    by apply redis_set_keeps_up. }
  split; [by rewrite Hrun |]. split; [done |].
  split; [| apply empty_page_positive].
  intros steps now' Hsteps Hlt.
  destruct (run_keeps_live_entry after steps (search_key q) (empty_page q)
              (now + 120 * 1000)) as (Hkept & Hc & Hr);
    [apply Hup' | apply cache_keys_are_not_the_star_key | done | done |].
  unfold search_courses. unfold blank_query in Hq. rewrite Hq.
  rewrite redis_get_up by (destruct Hup'; split; congruence).
  unfold RedisClient.live. rewrite Hkept.
  by rewrite (proj2 (Z.ltb_lt _ _) Hlt).
Qed.

End SearchOutage.
(** ** Bulk ingest *)

Section BulkIngest.

Context `{Platform}.

Lemma validate_rows_errors n results :
  length (snd (validate_rows n results))
  = length (List.filter invalid_row results).
Proof.
  revert n. induction results as [| row rest IH]; intros n; [done |].
  simpl. unfold invalid_row at 1.
  destruct (missingFields row); simpl; by rewrite IH.
Qed.

Lemma validate_rows_total n results :
  (length (fst (validate_rows n results))
   + length (snd (validate_rows n results)) = length results)%nat.
Proof.
  revert n. induction results as [| row rest IH]; intros n; [done |].
  simpl. specialize (IH (S n)).
  destruct (missingFields row); simpl; lia.
Qed.

(** The courses to save are the prepared valid rows, in row order. *)
Lemma validate_rows_courses n results :
  fst (validate_rows n results)
  = prepare <$> List.filter (fun row => negb (invalid_row row)) results.
Proof.
  revert n. induction results as [| row rest IH]; intros n; [done |].
  simpl. unfold invalid_row at 1.
  destruct (missingFields row); simpl; by rewrite IH.
Qed.

(** When every row is invalid there is one error per row, numbered from
    the first row. *)
Lemma validate_rows_all_invalid n results :
  forallb invalid_row results = true →
  fst (validate_rows n results) = []
  ∧ snd (validate_rows n results)
    = imap (fun i row => row_error (n + i) (missingFields row)) results.
Proof.
  revert n. induction results as [| row rest IH]; intros n; [done |].
  simpl. intros [Hrow Hrest]%andb_true_iff.
  destruct (IH (S n) Hrest) as [-> ->].
  unfold invalid_row in Hrow.
  destruct (missingFields row) as [| m ms] eqn:Hm; [done |]. simpl.
  split; [done |]. rewrite Nat.add_0_r. f_equal.
  apply imap_ext. intros i row' _. simpl. f_equal. lia.
Qed.

Lemma save_courses_saved now st e l :
  length (savedCourses (save_courses now st e l))
  = (length l - failed_saves now st l)%nat
  ∧ length (saveErrors (save_courses now st e l)) = failed_saves now st l
  ∧ (failed_saves now st l ≤ length l)%nat.
Proof.
  revert st e. induction l as [| cd rest IH]; intros st e; [done |].
  simpl. destruct (save now st cd) as [err | [c st']]; simpl.
  - destruct (IH st e) as (-> & -> & Hle). repeat split; lia.
  - destruct (IH st' (if ElasticsearchClient.isHealthy e
                      then snd (ElasticsearchClient.indexCourse e c) else e))
      as (-> & -> & Hle).
    repeat split; lia.
Qed.

(** Nothing is rolled back: the collection after the loop is the
    collection before it followed by the saved courses. *)
Lemma save_courses_docs now st e l :
  docs (loop_store (save_courses now st e l))
  = docs st ++ savedCourses (save_courses now st e l).
Proof.
  revert st e. induction l as [| cd rest IH]; intros st e.
  - simpl. by rewrite app_nil_r.
  - simpl. destruct (save now st cd) as [err | [c st']] eqn:Hs; simpl.
    + apply IH.
    + rewrite IH. unfold save in Hs.
      destruct (Schema.validate _); [| done].
      destruct (has_course_id _ _); [done |].
      injection Hs as <- <-. simpl. by rewrite <- app_assoc.
Qed.

Lemma save_courses_store now st e l :
  loop_store (save_courses now st e l) = store_after now st l.
Proof.
  revert st e. induction l as [| cd rest IH]; intros st e; [done |].
  simpl. destruct (save now st cd) as [err | [c st']]; simpl; apply IH.
Qed.

(** A course whose save fails is skipped: the courses before it and
    after it are saved as if it were not in the batch. *)
Lemma failed_course_is_skipped now st e before courseData after :
  (∃ err, save now (store_after now st before) courseData = inl err) →
  let whole := save_courses now st e (before ++ courseData :: after) in
  let others := save_courses now st e (before ++ after) in
  savedCourses whole = savedCourses others
  ∧ loop_store whole = loop_store others
  ∧ loop_es whole = loop_es others.
Proof.
  revert st e. induction before as [| cd rest IH]; intros st e [err Herr]; simpl in *.
  - by rewrite Herr.
  - destruct (save now st cd) as [err' | [c st']]; simpl.
    + destruct (IH st e) as (-> & -> & ->); eauto.
    + destruct (IH st' (if ElasticsearchClient.isHealthy e
                        then snd (ElasticsearchClient.indexCourse e c) else e))
        as (-> & -> & ->); eauto.
Qed.

End BulkIngest.
Section SavedCourses.

Context `{Platform}.

Lemma pre_save_keeps now c :
  _id (Schema.pre_save now c) = _id c
  ∧ status (Schema.pre_save now c) = status c.
Proof. unfold Schema.pre_save. by destruct (course_id c). Qed.

(** What a successful save does. *)
Lemma save_inr now st data c st' :
  save now st data = inr (c, st') →
  _id c = next_oid st
  ∧ next_oid st' = N.succ (next_oid st)
  ∧ docs st' = docs st ++ [c]
  ∧ status c = default Schema.default_status (in_status data)
  ∧ has_course_id (course_id c) (docs st) = false.
Proof.
  unfold save. destruct (Schema.validate _); [| done].
  destruct (has_course_id _ _) eqn:Hdup; [done |].
  intros [= <- <-]. simpl.
  destruct (pre_save_keeps now (Schema.build (next_oid st) now (Schema.apply_setters data)))
    as [-> ->].
  by rewrite Hdup.
Qed.

Lemma index_course_up e c :
  index_up e →
  ElasticsearchClient.indexCourse e c
  = (true,
     {| ElasticsearchClient.isConnected := true;
        ElasticsearchClient.has_client := true;
        ElasticsearchClient.rejects := false;
        ElasticsearchClient.index :=
          <[_id c := ElasticsearchClient.body_of c]> (ElasticsearchClient.index e) |}).
Proof. unfold ElasticsearchClient.indexCourse. by intros (-> & -> & ->). Qed.

Lemma save_courses_next_oid now st l :
  (next_oid st ≤ next_oid (store_after now st l))%N.
Proof.
  revert st. induction l as [| cd rest IH]; intros st; simpl; [lia |].
  destruct (save now st cd) as [err | [c st']] eqn:Hs; [apply IH |].
  apply save_inr in Hs as (_ & Hn & _). specialize (IH st'). lia.
Qed.

(** The loop only writes index entries at the ids it hands out. *)
Lemma save_courses_index_below now st e l (k : N) :
  (k < next_oid st)%N →
  ElasticsearchClient.index (loop_es (save_courses now st e l)) !! k
  = ElasticsearchClient.index e !! k.
Proof.
  revert st e. induction l as [| cd rest IH]; intros st e Hk; [done |].
  simpl. destruct (save now st cd) as [err | [c st']] eqn:Hs; simpl.
  - by apply IH.
  - apply save_inr in Hs as (Hid & Hn & _).
    rewrite IH by lia.
    destruct (ElasticsearchClient.isHealthy e); [| done].
    unfold ElasticsearchClient.indexCourse.
    destruct (negb _ || negb _); [done |].
    destruct (ElasticsearchClient.rejects e); [done |]. simpl.
    apply lookup_insert_ne. lia.
Qed.

(** Every saved course has the default status, is in the collection,
    and, when the index is available, is indexed under its id. *)
Lemma save_courses_published now st e l c :
  Forall (fun courseData => in_status courseData = None) l →
  c ∈ savedCourses (save_courses now st e l) →
  status c = "published"
  ∧ c ∈ docs (loop_store (save_courses now st e l))
  ∧ (index_up e →
     ElasticsearchClient.index (loop_es (save_courses now st e l)) !! _id c
     = Some (ElasticsearchClient.body_of c)).
Proof.
  revert st e. induction l as [| cd rest IH]; intros st e Hst Hin.
  - by apply elem_of_nil in Hin.
  - apply Forall_cons in Hst as [Hcd Hrest]. simpl in *.
    destruct (save now st cd) as [err | [c0 st']] eqn:Hs; simpl in *.
    + by apply IH.
    + pose proof (save_inr _ _ _ _ _ Hs) as (Hid & Hn & Hdocs & Hstatus & _).
      apply elem_of_cons in Hin as [-> | Hin].
      * split; [by rewrite Hstatus, Hcd |]. split.
        -- rewrite save_courses_docs, Hdocs, !elem_of_app, list_elem_of_singleton.
           by left; right.
        -- intros Hup. rewrite save_courses_index_below by lia.
           assert (ElasticsearchClient.isHealthy e = true) as -> by apply Hup.
           rewrite index_course_up by done. simpl. apply lookup_insert_eq.
      * destruct (IH st' _ Hrest Hin) as (H1 & H2 & H3).
        split; [done |]. split; [done |]. intros Hup. apply H3.
        assert (ElasticsearchClient.isHealthy e = true) as -> by apply Hup.
        by rewrite index_course_up.
Qed.

Lemma prepared_without_status n results :
  Forall (fun courseData => in_status courseData = None)
    (fst (validate_rows n results)).
Proof.
  rewrite validate_rows_courses. apply Forall_fmap, Forall_forall.
  by intros row _.
Qed.

End SavedCourses.
Section IngestReport.

Context `{Platform}.

(** The response and the state of an upload with at least one valid
    row. *)
Lemma upload_courses_report sv now results cd cds :
  fst (validate_rows 1 results) = cd :: cds →
  let loop := save_courses now (store sv) (es sv) (cd :: cds) in
  upload_courses sv now (Some (CsvRows results))
  = ({| res_status := 200; res_success := true;
        res_message := "CSV upload processed successfully";
        res_data :=
          Some (DReport (length results) (length (cd :: cds))
                  (length (savedCourses loop)) (savedCourses loop));
        res_errors :=
          Some (RowErrors (snd (validate_rows 1 results) ++ saveErrors loop));
        res_error := None; res_cached := None |},
     {| store := loop_store loop; redis := redis sv; es := loop_es loop |}).
Proof.
  intros Hcs. unfold upload_courses.
  destruct results as [| row rest]; [done |]. by rewrite Hcs.
Qed.

(** C3, as amended.  An upload whose rows all fail the required-field
    check is answered 400, [success: false], "No valid courses found in
    CSV", with one error per row (so a non-empty list) and no report;
    nothing is saved, cached or indexed.  An upload with no row at all
    is answered 400 as well, "CSV file is empty or invalid", without an
    error list. *)
Theorem all_rows_invalid_is_rejected
    (sv : Services) (now : Z) (results : list (gmap string string)) :
  results ≠ [] →
  forallb invalid_row results = true →
  let rowErrors :=
    imap (fun i row => row_error (1 + i) (missingFields row)) results in
  upload_courses sv now (Some (CsvRows results))
  = ({| res_status := 400; res_success := false;
        res_message := "No valid courses found in CSV";
        res_data := None; res_errors := Some (RowErrors rowErrors);
        res_error := None; res_cached := None |}, sv)
  ∧ length rowErrors = length results
  ∧ rowErrors ≠ []
  ∧ upload_courses sv now (Some (CsvRows []))
    = (reply 400 false "CSV file is empty or invalid", sv).
Proof.
  intros Hne Hall rowErrors.
  destruct (validate_rows_all_invalid 1 results Hall) as [Hc He].
  assert (length rowErrors = length results) as Hlen by apply length_imap.
  split; [| split; [done | split; [| done]]].
  - unfold upload_courses. destruct results as [| row rest]; [done |].
    by rewrite Hc, He.
  - intros Hnil. rewrite Hnil in Hlen. by destruct results.
Qed.

(** C4, as amended.  For a batch of N rows of which k fail the
    required-field check, with k < N, the report has [total_rows = N],
    [valid_courses = N - k] and [saved_courses = N - k - f], where f is
    the number of surviving rows whose save fails (duplicate id or
    schema validation); the error list has k + f entries; the saved
    courses are appended to the collection, none is rolled back; and a
    row whose save fails leaves the saved courses as they would be
    without that row. *)
Theorem partial_failure_report
    (sv : Services) (now : Z) (results : list (gmap string string)) :
  let N := length results in
  let k := length (List.filter invalid_row results) in
  let coursesToSave := fst (validate_rows 1 results) in
  let rowErrors := snd (validate_rows 1 results) in
  let loop := save_courses now (store sv) (es sv) coursesToSave in
  let f := failed_saves now (store sv) coursesToSave in
  let out := upload_courses sv now (Some (CsvRows results)) in
  (k < N)%nat →
  fst out
  = {| res_status := 200; res_success := true;
       res_message := "CSV upload processed successfully";
       res_data :=
         Some (DReport N (N - k) (N - k - f) (savedCourses loop));
       res_errors := Some (RowErrors (rowErrors ++ saveErrors loop));
       res_error := None; res_cached := None |}
  ∧ length (savedCourses loop) = (N - k - f)%nat
  ∧ (f ≤ N - k)%nat
  ∧ length (rowErrors ++ saveErrors loop) = (k + f)%nat
  ∧ docs (store (snd out)) = docs (store sv) ++ savedCourses loop
  ∧ (∀ before courseData after,
       coursesToSave = before ++ courseData :: after →
       (∃ err, save now (store_after now (store sv) before) courseData = inl err) →
       savedCourses loop
       = savedCourses (save_courses now (store sv) (es sv) (before ++ after))).
Proof.
  cbv zeta. intros Hk.
  pose proof (validate_rows_total 1 results) as Htotal.
  pose proof (validate_rows_errors 1 results) as Herrors.
  destruct (save_courses_saved now (store sv) (es sv)
              (fst (validate_rows 1 results))) as (Hsaved & Hfailed & Hle).
  destruct (fst (validate_rows 1 results)) as [| cd cds] eqn:Hcs;
    [simpl in *; lia |].
  rewrite (upload_courses_report _ _ _ _ _ Hcs). cbn [fst snd store].
  rewrite Hsaved.
  replace (length (cd :: cds))
    with (length results - length (List.filter invalid_row results))%nat
    in * by lia.
  split; [done |]. split; [done |]. split; [done |].
  split; [rewrite length_app; lia |].
  split; [apply save_courses_docs |].
  intros before courseData after Hsplit Herr.
  rewrite Hsplit. by apply failed_course_is_skipped.
Qed.

(** An adapter that is unavailable indexes nothing. *)
Lemma index_course_down e c :
  index_down e → ElasticsearchClient.indexCourse e c = (false, e).
Proof.
  unfold ElasticsearchClient.indexCourse.
  intros [-> | [-> | ->]]; [done | by rewrite orb_true_r |].
  by destruct (negb _ || negb _).
Qed.

Lemma save_courses_index_down now st e l :
  index_down e → loop_es (save_courses now st e l) = e.
Proof.
  intros Hd. revert st. induction l as [| cd rest IH]; intros st; [done |].
  simpl. destruct (save now st cd) as [err | [c st']]; simpl; [apply IH |].
  rewrite index_course_down by done. simpl.
  destruct (ElasticsearchClient.isHealthy e); apply IH.
Qed.

(** Every course in the report of an upload has the default status,
    is in the collection after the upload, and, the index being
    available, is in the index under its id. *)
Lemma uploaded_courses_are_published
    (sv : Services) (now : Z) (file : option CsvOutcome)
    (total valid saved : nat) (courses : list Course) (c : Course) :
  res_data (fst (upload_courses sv now file))
  = Some (DReport total valid saved courses) →
  c ∈ courses →
  status c = "published"
  ∧ c ∈ docs (store (snd (upload_courses sv now file)))
  ∧ (index_up (es sv) →
     ElasticsearchClient.index (es (snd (upload_courses sv now file))) !! _id c
     = Some (ElasticsearchClient.body_of c)).
Proof.
  unfold upload_courses.
  destruct file as [[results | message] |]; try done.
  destruct results as [| row rest]; [done |].
  destruct (fst (validate_rows 1 (row :: rest))) as [| cd cds] eqn:Hcs; [done |].
  cbn [fst snd res_data store es]. intros [= _ _ _ <-] Hin.
  apply save_courses_published; [| done].
  rewrite <- Hcs. apply prepared_without_status.
Qed.

(** The same for the course returned by a create whose body has no
    [status]. *)
Lemma created_course_is_published
    (sv : Services) (now : Z) (user : User) (body : CourseData) (c : Course) :
  in_status body = None →
  res_data (fst (create_course sv now user body)) = Some (DCourse (PCourse c)) →
  status c = "published"
  ∧ c ∈ docs (store (snd (create_course sv now user body)))
  ∧ (index_up (es sv) →
     ElasticsearchClient.index (es (snd (create_course sv now user body))) !! _id c
     = Some (ElasticsearchClient.body_of c)).
Proof.
  intros Hst. unfold create_course.
  destruct (save now (store sv) (with_created_by body (user_id user)))
    as [[errs |] | [c0 st']] eqn:Hs; try done.
  cbn [fst snd res_data reply_data store es]. intros [= <-].
  apply save_inr in Hs as (_ & _ & Hdocs & Hstatus & _).
  simpl in Hstatus. rewrite Hst in Hstatus.
  split; [done |]. split.
  - rewrite Hdocs, elem_of_app, list_elem_of_singleton. by right.
  - intros Hup.
    assert (ElasticsearchClient.isHealthy (es sv) = true) as -> by apply Hup.
    rewrite index_course_up by done. simpl. apply lookup_insert_eq.
Qed.

(** C9, as amended.  Every record created through the bulk ingest, or
    through the single create with a body that has no [status], is
    persisted with status [published], the default of the schema, and is
    in the collection when the request completes: there is no draft
    stage.  It is indexed under its id by the same request when the
    search adapter is available; when the adapter is unavailable the
    request leaves the index as it was, and the record is stored without
    being indexed. *)
Theorem ingested_records_are_published
    (sv : Services) (now : Z) (req : Request) (c : Course) :
  match route req with
  | POST_courses_upload _ =>
      ∃ total valid saved courses,
        res_data (fst (app sv now req))
        = Some (DReport total valid saved courses) ∧ c ∈ courses
  | POST_courses body =>
      in_status body = None
      ∧ res_data (fst (app sv now req)) = Some (DCourse (PCourse c))
  | _ => False
  end →
  status c = "published"
  ∧ published c = true
  ∧ c ∈ docs (store (snd (app sv now req)))
  ∧ (index_up (es sv) →
     ElasticsearchClient.index (es (snd (app sv now req))) !! _id c
     = Some (ElasticsearchClient.body_of c))
  ∧ (index_down (es sv) → es (snd (app sv now req)) = es sv).
Proof.
  unfold app.
  destruct (route req) as [q | q | id | file | body |]; try done.
  - intros (total & valid & saved & courses & Hdata & Hin).
    destruct (uploaded_courses_are_published sv now file total valid saved
                courses c Hdata Hin) as (Hst & Hdocs & Hidx).
    unfold published. rewrite Hst. repeat (split; [done |]).
    intros Hd. clear Hdocs Hidx. unfold upload_courses in *.
    destruct file as [[results | message] |]; try done.
    destruct results as [| row rest]; [done |].
    destruct (fst (validate_rows 1 (row :: rest))); [done |].
    cbn [snd es]. by apply save_courses_index_down.
  - intros [Hst Hdata].
    destruct (authenticateToken (authorization req)) as [denied | user] eqn:Ha.
    + unfold authenticateToken in Ha. destruct (negb _) in Ha; [| done].
      injection Ha as <-. done.
    + destruct (created_course_is_published sv now user body c Hst Hdata)
        as (Hc & Hdocs & Hidx).
      unfold published. rewrite Hc. repeat (split; [done |]).
      intros Hd. unfold create_course.
      destruct (save now (store sv) _) as [[errs |] | [c0 st']]; try done.
      cbn [snd es].
      rewrite index_course_down by done.
      by destruct (ElasticsearchClient.isHealthy (es sv)).
Qed.

End IngestReport.
(** ** Index resynchronisation *)

Section Resync.

Local Abbreviation reindex :=
  (fold_left (fun e course => snd (ElasticsearchClient.indexCourse e course))).

Local Abbreviation upsert :=
  (fold_left (fun (m : gmap N IndexDoc) course =>
                <[_id course := ElasticsearchClient.body_of course]> m)).

Lemma index_up_dec e : index_up e ∨ index_down e.
Proof.
  unfold index_up, index_down.
  destruct (ElasticsearchClient.isConnected e),
    (ElasticsearchClient.has_client e), (ElasticsearchClient.rejects e); auto.
Qed.

Lemma reindex_down e l : index_down e → reindex l e = e.
Proof.
  intros Hd. induction l as [| c rest IH]; [done |].
  simpl. by rewrite index_course_down.
Qed.

Lemma reindex_up e l :
  index_up e →
  reindex l e
  = {| ElasticsearchClient.isConnected := true;
       ElasticsearchClient.has_client := true;
       ElasticsearchClient.rejects := false;
       ElasticsearchClient.index := upsert l (ElasticsearchClient.index e) |}.
Proof.
  revert e. induction l as [| c rest IH]; intros e Hup.
  - destruct e as [c h r i]. unfold index_up in Hup. simpl in Hup.
    by destruct Hup as (-> & -> & ->).
  - simpl. rewrite index_course_up by done. simpl. by rewrite IH.
Qed.

(** After the upserts a key holds the body of the last course with
    that id, or what it held before. *)
Lemma upsert_lookup l (m : gmap N IndexDoc) (k : N) :
  upsert l m !! k
  = match last_body l k with
    | Some d => Some d
    | None => m !! k
    end.
Proof.
  revert m. induction l as [| c rest IH]; intros m; [done |].
  simpl. rewrite IH. destruct (last_body rest k); [done |].
  destruct (N.eqb_spec (_id c) k) as [-> | Hne].
  - apply lookup_insert_eq.
  - by apply lookup_insert_ne.
Qed.

Lemma upsert_twice l (m : gmap N IndexDoc) : upsert l (upsert l m) = upsert l m.
Proof.
  apply map_eq. intros k. rewrite !upsert_lookup.
  by destruct (last_body l k).
Qed.

Lemma reindex_twice e l : reindex l (reindex l e) = reindex l e.
Proof.
  destruct (index_up_dec e) as [Hup | Hd].
  - rewrite (reindex_up e) by done. rewrite reindex_up by done.
    simpl. by rewrite upsert_twice.
  - rewrite (reindex_down e l Hd). apply (reindex_down e l Hd).
Qed.

Lemma reindex_connected e l :
  ElasticsearchClient.isConnected (reindex l e) = ElasticsearchClient.isConnected e.
Proof.
  destruct (index_up_dec e) as [Hup | Hd].
  - rewrite reindex_up by done. simpl. symmetry. apply Hup.
  - by rewrite reindex_down.
Qed.

(** C8, as amended.  The sweep reads the first 1000 published records
    of the store, in store order, and upserts each into the index under
    the record's id.  It is idempotent: a second sweep right after the
    first leaves the state of the service, hence every search result, as
    the first left it.  After a sweep an id holds the body of the swept
    record with that id, or what it held before; with the index
    unavailable the sweep does nothing. *)
Theorem resync_is_idempotent `{Platform} (sv : Services) :
  syncCoursesToElasticsearch (syncCoursesToElasticsearch sv)
  = syncCoursesToElasticsearch sv
  ∧ (∀ query fc fi page size,
       ElasticsearchClient.searchCourses
         (es (syncCoursesToElasticsearch (syncCoursesToElasticsearch sv)))
         query fc fi page size
       = ElasticsearchClient.searchCourses
           (es (syncCoursesToElasticsearch sv)) query fc fi page size)
  ∧ store (syncCoursesToElasticsearch sv) = store sv
  ∧ (∀ k : N,
       ElasticsearchClient.index (es (syncCoursesToElasticsearch sv)) !! k
       = match last_body (swept (store sv)) k with
         | Some d =>
             if index_ready (es sv) then Some d
             else ElasticsearchClient.index (es sv) !! k
         | None => ElasticsearchClient.index (es sv) !! k
         end).
Proof.
  assert (syncCoursesToElasticsearch (syncCoursesToElasticsearch sv)
          = syncCoursesToElasticsearch sv) as Hidem.
  { unfold syncCoursesToElasticsearch, ElasticsearchClient.isHealthy.
    destruct (ElasticsearchClient.isConnected (es sv)) eqn:Hc; simpl.
    - rewrite reindex_connected, Hc. simpl. by rewrite reindex_twice.
    - by rewrite Hc. }
  split; [done |]. split; [intros; by rewrite Hidem |]. split.
  - unfold syncCoursesToElasticsearch. by destruct (negb _).
  - intros k. unfold syncCoursesToElasticsearch, ElasticsearchClient.isHealthy.
    fold (swept (store sv)).
    destruct (index_up_dec (es sv)) as [Hup | Hd].
    + pose proof Hup as (Hc & Hcl & Hr).
      unfold index_ready. rewrite Hc, Hcl, Hr. simpl.
      rewrite reindex_up by done. simpl. apply upsert_lookup.
    + assert (index_ready (es sv) = false) as ->.
      { unfold index_ready. destruct Hd as [-> | [-> | ->]]; [done | |].
        - by rewrite andb_false_r.
        - by rewrite andb_false_r. }
      destruct (ElasticsearchClient.isConnected (es sv)); simpl.
      * rewrite reindex_down by done. by destruct (last_body _ _).
      * by destruct (last_body _ _).
Qed.

End Resync.
(** ** Reading a record back after its creation *)

Section ReadBack.

Context `{Platform}.




End ReadBack.
(** ** Which routes ask for a token *)

Section Authorization.

Context `{Platform}.

(** The create route answers 401 to a request without a bearer token and
    touches nothing. *)
Lemma create_needs_token sv now auth body :
  JS.truthy (bearer_token auth) = false →
  app sv now {| authorization := auth; route := POST_courses body |}
  = (reply 401 false "Access denied. No token provided.", sv).
Proof. intros Hno. unfold app, authenticateToken. simpl. by rewrite Hno. Qed.

(** Any non-empty token lets a create through. *)
Lemma create_accepts_any_token sv now auth body :
  JS.truthy (bearer_token auth) = true →
  app sv now {| authorization := auth; route := POST_courses body |}
  = create_course sv now {| user_id := "demo-user"; user_role := "admin" |} body.
Proof. intros Hyes. unfold app, authenticateToken. simpl. by rewrite Hyes. Qed.

(** Every other route, the upload included, answers the same whatever
    the header. *)
Lemma other_routes_ignore_token sv now auth auth' r :
  (∀ body, r ≠ POST_courses body) →
  app sv now {| authorization := auth; route := r |}
  = app sv now {| authorization := auth'; route := r |}.
Proof.
  intros Hr. unfold app. simpl.
  destruct r as [q | q | id | file | body |]; try done.
  by destruct (Hr body).
Qed.

End Authorization.
(** ** The adapters on their own *)

Section AdapterContracts.

(** X1.  On a connected, working cache a value set with an expiry of
    [ttl] seconds is read back at every instant before [now + ttl * 1000]
    and is gone from that instant on; the other keys read as before. *)
Theorem redis_set_then_get (r : RedisClient.t) (now now' : Z) (key : string)
    (v : Payload) (ttl : Z) :
  cache_up r →
  let r' := snd (RedisClient.set r now key v ttl) in
  fst (RedisClient.set r now key v ttl) = true
  ∧ (now' < now + ttl * 1000 → RedisClient.get r' now' key = Some v)
  ∧ (now + ttl * 1000 ≤ now' → RedisClient.get r' now' key = None)
  ∧ (∀ other, other ≠ key →
       RedisClient.get r' now' other = RedisClient.get r now' other).
Proof.
  intros Hup r'. subst r'. rewrite redis_set_up by done. cbn [fst snd].
  assert (cache_up (RedisClient.with_keys r
            (<[key:=(v, now + ttl * 1000)]> (RedisClient.keys r)))) as Hup'
    by (by destruct Hup).
  split; [done |]. split; [| split].
  - intros Hlt. rewrite redis_get_up by done.
    unfold RedisClient.live. simpl. rewrite lookup_insert_eq.
    by rewrite (proj2 (Z.ltb_lt _ _) Hlt).
  - intros Hge. rewrite redis_get_up by done.
    unfold RedisClient.live. simpl. rewrite lookup_insert_eq.
    by rewrite (proj2 (Z.ltb_ge _ _) Hge).
  - intros other Hne. rewrite !redis_get_up by done.
    unfold RedisClient.live. simpl. by rewrite lookup_insert_ne.
Qed.

(** X2.  [del] reports [true] exactly when the adapter is connected and
    the [del] of its client works; the key then reads as absent.  A [del]
    that reports [false] leaves the adapter as it was: the entry stays,
    and is read when the lookups work.  In every case the other keys read
    as before. *)
Theorem redis_del_then_get (r : RedisClient.t) (now : Z) (key : string) :
  (fst (RedisClient.del r key) = true
   ↔ RedisClient.isConnected r = true
     ∧ RedisClient.rejects r RedisClient.DEL = false)
  ∧ (fst (RedisClient.del r key) = true →
     RedisClient.get (snd (RedisClient.del r key)) now key = None)
  ∧ (fst (RedisClient.del r key) = false → snd (RedisClient.del r key) = r)
  ∧ (∀ other, other ≠ key →
       RedisClient.get (snd (RedisClient.del r key)) now other
       = RedisClient.get r now other)
  ∧ (cache_up r → fst (RedisClient.del r key) = true).
Proof.
  split; [| split; [| split; [| split]]].
  - unfold RedisClient.del.
    destruct (RedisClient.isConnected r), (RedisClient.rejects r RedisClient.DEL);
      simpl; split; try done; by intros [? ?].
  - unfold RedisClient.get, RedisClient.del.
    destruct (RedisClient.isConnected r) eqn:Hc; simpl; [| done].
    destruct (RedisClient.rejects r RedisClient.DEL) eqn:Hr; simpl; [done |].
    intros _. rewrite Hc. simpl.
    destruct (RedisClient.rejects r RedisClient.GET); [done |].
    unfold RedisClient.live. simpl. by rewrite lookup_delete_eq.
  - unfold RedisClient.del.
    by destruct (RedisClient.isConnected r), (RedisClient.rejects r RedisClient.DEL).
  - intros other Hne. by apply redis_get_del_other.
  - intros [Hc Hr]. unfold RedisClient.del. by rewrite Hc, Hr.
Qed.

(** X3.  [retry_strategy] gives a delay only for an attempt numbered at
    most 10, within the first hour of retrying, after an error other than
    a refused connection; the delay is then one hundred milliseconds per
    attempt and never more than one second, so that the cap of 3000 is
    never what is returned. *)
Theorem retry_delay_is_linear (options : RedisClient.RetryOptions) (ms : Z) :
  RedisClient.retry_strategy options = RedisClient.RetryAfter ms →
  ms = RedisClient.attempt options * 100
  ∧ ms ≤ 1000
  ∧ RedisClient.attempt options ≤ 10
  ∧ RedisClient.total_retry_time options ≤ 3600000
  ∧ RedisClient.error_code options ≠ Some "ECONNREFUSED".
Proof.
  unfold RedisClient.retry_strategy.
  destruct (bool_decide _) eqn:Hcode; [done |].
  destruct (_ <? RedisClient.total_retry_time options) eqn:Htime; [done |].
  destruct (10 <? RedisClient.attempt options) eqn:Hattempt; [done |].
  intros [= <-].
  apply Z.ltb_ge in Htime, Hattempt. apply bool_decide_eq_false in Hcode.
  repeat split; try done; lia.
Qed.

(** X4.  On an available index [indexCourse] is an upsert by document
    id: it reports [true], the id then holds the body of the course, no
    other id changes, and indexing the same course again changes
    nothing. *)
Theorem index_course_is_an_upsert (e : ElasticsearchClient.t) (c : Course) :
  index_up e →
  let e' := snd (ElasticsearchClient.indexCourse e c) in
  fst (ElasticsearchClient.indexCourse e c) = true
  ∧ ElasticsearchClient.index e' !! _id c = Some (ElasticsearchClient.body_of c)
  ∧ (∀ k, k ≠ _id c →
       ElasticsearchClient.index e' !! k = ElasticsearchClient.index e !! k)
  ∧ index_up e'
  ∧ snd (ElasticsearchClient.indexCourse e' c) = e'.
Proof.
  intros Hup e'. subst e'. rewrite index_course_up by done. cbn [fst snd].
  split; [done |]. split; [apply lookup_insert_eq |].
  split; [intros k Hk; by apply lookup_insert_ne |].
  split; [done |].
  rewrite index_course_up by done. cbn [snd ElasticsearchClient.index].
  by rewrite insert_insert_eq.
Qed.

End AdapterContracts.
(** ** The middleware and the guard of the search *)

Section Guards.

Context `{Platform}.

Lemma split_spaceless (s : string) :
  spaceless s = true → JS.split " " s = [s].
Proof.
  induction s as [| a s IH]; [done |]. simpl.
  intros [Ha Hs]%andb_true_iff. rewrite (negb_true_iff _) in Ha.
  rewrite Ha, IH by done. done.
Qed.

Lemma split_at_space (s rest : string) :
  spaceless s = true →
  JS.split " " (s +:+ " " +:+ rest) = s :: JS.split " " rest.
Proof.
  induction s as [| a s IH]; [done |]. simpl.
  intros [Ha Hs]%andb_true_iff. rewrite (negb_true_iff _) in Ha.
  rewrite Ha. by rewrite (IH Hs).
Qed.

(** X5.  [authenticateToken] looks at nothing but the text between the
    first and the second space of the header: a header [scheme token],
    whatever the scheme, is let through as the demo administrator when the
    token is not empty; no header, a header without a space, and a header
    whose first space is followed by the end or by another space are
    answered 401. *)
Theorem token_is_the_second_word (scheme token : string) :
  spaceless scheme = true →
  spaceless token = true →
  (token ≠ "" →
   ∀ more,
     authenticateToken (Some (scheme +:+ " " +:+ token)) 
     = inr {| user_id := "demo-user"; user_role := "admin" |}
     ∧ authenticateToken (Some (scheme +:+ " " +:+ token +:+ " " +:+ more))
       = inr {| user_id := "demo-user"; user_role := "admin" |})
  ∧ authenticateToken None = inl (reply 401 false "Access denied. No token provided.")
  ∧ authenticateToken (Some scheme)
    = inl (reply 401 false "Access denied. No token provided.")
  ∧ (∀ more,
       authenticateToken (Some (scheme +:+ " "))
       = inl (reply 401 false "Access denied. No token provided.")
       ∧ authenticateToken (Some (scheme +:+ " " +:+ " " +:+ more))
         = inl (reply 401 false "Access denied. No token provided.")).
Proof.
  intros Hscheme Htoken.
  assert (∀ rest, bearer_token (Some (scheme +:+ " " +:+ rest))
                  = JS.split " " rest !! 0%nat) as Hsecond.
  { intros rest. unfold bearer_token.
    destruct (scheme +:+ " " +:+ rest) as [| a s] eqn:Hh.
    - by destruct scheme.
    - rewrite <- Hh. by rewrite split_at_space. }
  split; [| split; [done | split; [| split]]].
  - intros Hne more. unfold authenticateToken. rewrite !Hsecond.
    rewrite split_spaceless by done. rewrite split_at_space by done.
    simpl. by destruct token.
  - unfold authenticateToken, bearer_token.
    destruct scheme as [| a s]; [done |].
    rewrite split_spaceless by done. done.
  - unfold authenticateToken.
    replace (scheme +:+ " ") with (scheme +:+ " " +:+ "") by done.
    by rewrite Hsecond.
  - unfold authenticateToken.
    replace (scheme +:+ " " +:+ " " +:+ more)
      with (scheme +:+ " " +:+ ("" +:+ " " +:+ more)) by done.
    rewrite Hsecond. by rewrite split_at_space.
Qed.

(** X6.  A search whose query is absent, empty or made of white space
    only (the white space of [trim], the no-break space and the other
    Unicode spaces included) is answered 400 "Search query is required" before the cache or
    the index is consulted: the state is left as it was, whatever the
    cache holds. *)
Theorem blank_search_is_rejected (sv : Services) (now : Z) (q : SearchQuery) :
  match sq_q q with
  | None => True
  | Some s => all_space s = true
  end →
  search_courses sv now q = (reply 400 false "Search query is required", sv)
  ∧ cache_answer sv now (GET_courses_search q) = None.
Proof.
  intros Hq.
  assert (blank_query q = true) as Hblank.
  { unfold blank_query. destruct (sq_q q) as [s |]; [| done]. simpl.
    rewrite trim_all_space by done. apply orb_true_r. }
  split.
  - unfold search_courses. unfold blank_query in Hblank. by rewrite Hblank.
  - simpl. by rewrite Hblank.
Qed.

End Guards.
(** ** What a save guarantees *)

Section SaveContracts.

Lemma path_error_nil path checks :
  Schema.path_error path checks = [] → Schema.first_failure checks = None.
Proof. unfold Schema.path_error. by destruct (Schema.first_failure checks). Qed.

Lemma check_required_ok msg v :
  Schema.check_required msg v = None → ∃ a s, v = Some (String a s).
Proof.
  unfold Schema.check_required. destruct v as [[| a s] |]; try done. eauto.
Qed.

Lemma missing_nil {A} path msg (v : option A) :
  Schema.missing path msg v = [] → ∃ x, v = Some x.
Proof. destruct v as [x |]; [eauto | done]. Qed.

Lemma check_length_ok lo hi m1 m2 s :
  Schema.check_length lo hi m1 m2 (Some s) = None →
  (lo ≤ JS.length s ≤ hi)%nat.
Proof.
  unfold Schema.check_length.
  destruct (JS.length s <? lo)%nat eqn:H1; [done |].
  destruct (hi <? JS.length s)%nat eqn:H2; [done |].
  apply Nat.ltb_ge in H1, H2. lia.
Qed.

Lemma check_enum_ok path values s :
  Schema.check_enum path values (Some s) = None → s ∈ values.
Proof.
  unfold Schema.check_enum, Schema.includes.
  destruct (bool_decide (s ∈ values)) eqn:Hin; [| done].
  intros _. by apply bool_decide_eq_true in Hin.
Qed.

Lemma check_min_ok lo msg x :
  Schema.check_min lo msg (Some x) = None → (lo <= x)%Q.
Proof.
  unfold Schema.check_min. destruct (Qle_bool lo x) eqn:Hle; [| done].
  intros _. by apply Qle_bool_iff.
Qed.

Lemma check_max_ok hi msg x :
  Schema.check_max hi msg (Some x) = None → (x <= hi)%Q.
Proof.
  unfold Schema.check_max. destruct (Qle_bool x hi) eqn:Hle; [| done].
  intros _. by apply Qle_bool_iff.
Qed.

(** The course id of a document that passed validation: the trimmed,
    upper-cased input, which is not empty; the middleware leaves it. *)
Lemma validated_course_id (data : CourseData) (oid : ObjectId) (now : Z) :
  Schema.validate (Schema.apply_setters data) = [] →
  ∃ cid, in_course_id data = Some cid
         ∧ JS.toUpperCase (JS.trim cid) ≠ ""
         ∧ Schema.pre_save now (Schema.build oid now (Schema.apply_setters data))
           = Schema.build oid now (Schema.apply_setters data)
         ∧ course_id (Schema.build oid now (Schema.apply_setters data))
           = JS.toUpperCase (JS.trim cid).
Proof.
  unfold Schema.validate. intros Hv.
  do 5 apply app_eq_nil in Hv as [_ Hv].
  apply app_eq_nil in Hv as [[x Mcid]%missing_nil Hv].
  apply app_eq_nil in Hv as [Hid _].
  apply path_error_nil in Hid. simpl in Hid, Mcid.
  destruct (in_course_id data) as [cid |] eqn:Hcid; [| done].
  cbn [fmap option_fmap option_map Schema.held Schema.first_failure] in Hid.
  destruct (Schema.check_required _ _) eqn:Hreq in Hid; [done |].
  apply check_required_ok in Hreq as (a & s & Hreq).
  injection Hreq as Hreq.
  exists cid. split; [done |]. split; [by rewrite Hreq |].
  unfold Schema.pre_save, Schema.build. simpl. rewrite Hcid. simpl.
  by rewrite Hreq.
Qed.

Lemma has_course_id_elem cid (l : list Course) :
  has_course_id cid l = true ↔ ∃ d, d ∈ l ∧ course_id d = cid.
Proof.
  unfold has_course_id. rewrite existsb_exists. split.
  - intros (d & Hin & Heq). exists d. split; [by apply list_elem_of_In |].
    by apply String.eqb_eq.
  - intros (d & Hin & Heq). exists d. split; [by apply list_elem_of_In |].
    by apply String.eqb_eq.
Qed.

Lemma has_course_id_fmap cid (l : list Course) :
  has_course_id cid l = false → cid ∉ course_id <$> l.
Proof.
  intros Hno Hin. apply list_elem_of_fmap in Hin as (d & -> & Hd).
  assert (has_course_id (course_id d) l = true) as Hyes
    by (apply has_course_id_elem; eauto).
  congruence.
Qed.

(** A document that a save lets through meets the schema. *)
Lemma save_meets_schema now st data c st' :
  save now st data = inr (c, st') → meets_schema c.
Proof.
  unfold save.
  destruct (Schema.validate (Schema.apply_setters data)) eqn:Hv; [| done].
  destruct (validated_course_id data (next_oid st) now Hv)
    as (cid & Hcid & Hne & Hpre & Hbuilt).
  rewrite Hpre. destruct (has_course_id _ _); [done |]. intros [= <- _].
  unfold Schema.validate in Hv.
  apply app_eq_nil in Hv as [[dur Mdur]%missing_nil Hv].
  apply app_eq_nil in Hv as [[ins Mins]%missing_nil Hv].
  apply app_eq_nil in Hv as [[cat Mcat]%missing_nil Hv].
  apply app_eq_nil in Hv as [[des Mdes]%missing_nil Hv].
  apply app_eq_nil in Hv as [[ttl Mttl]%missing_nil Hv].
  apply app_eq_nil in Hv as [_ Hv].
  apply app_eq_nil in Hv as [_ Hv].
  rewrite Mdur, Mins, Mcat, Mdes, Mttl in Hv. cbn [Schema.held] in Hv.
  apply app_eq_nil in Hv as [Htitle Hv].
  apply app_eq_nil in Hv as [Hdesc Hv].
  apply app_eq_nil in Hv as [Hcat Hv].
  apply app_eq_nil in Hv as [Hinst Hv].
  apply app_eq_nil in Hv as [Hdur Hv].
  apply app_eq_nil in Hv as [Hlevel Hv].
  apply app_eq_nil in Hv as [Hprice Hv].
  apply app_eq_nil in Hv as [Henr Hv].
  apply app_eq_nil in Hv as [Hrating Hstatus].
  apply path_error_nil in Htitle, Hdesc, Hcat, Hinst, Hdur, Hlevel, Hprice,
    Henr, Hrating, Hstatus.
  cbn [Schema.first_failure] in Htitle, Hdesc, Hcat, Hinst, Hdur, Hlevel,
    Hprice, Henr, Hrating, Hstatus.
  unfold meets_schema. rewrite Hbuilt.
  split; [done |].
  split; [apply toUpperCase_idem |].
  split; [by rewrite trim_upper, trim_idem |].
  unfold Schema.build. cbn [title description category instructor duration
    level price enrollments rating status].
  rewrite Mdur, Mins, Mcat, Mdes, Mttl. cbn [default].
  split.
  { destruct (Schema.check_required _ _) eqn:Hr in Htitle; [done |].
    destruct (Schema.check_length _ _ _ _ _) eqn:Hl in Htitle; [done |].
    by apply check_length_ok in Hl. }
  split.
  { destruct (Schema.check_required _ _) eqn:Hr in Hdesc; [done |].
    destruct (Schema.check_length _ _ _ _ _) eqn:Hl in Hdesc; [done |].
    by apply check_length_ok in Hl. }
  split.
  { destruct (Schema.check_required _ _) eqn:Hr in Hcat; [done |].
    destruct (Schema.check_enum _ _ _) eqn:Hl in Hcat; [done |].
    by apply check_enum_ok in Hl. }
  split.
  { destruct (Schema.check_required _ _) eqn:Hr in Hinst; [done |].
    destruct (Schema.check_length _ _ _ _ _) eqn:Hl in Hinst; [done |].
    by apply check_length_ok in Hl. }
  split.
  { destruct (Schema.check_min _ _ _) eqn:H1 in Hdur; [done |].
    destruct (Schema.check_max _ _ _) eqn:H2 in Hdur; [done |].
    apply check_min_ok in H1. apply check_max_ok in H2. by split. }
  split.
  { destruct (in_level (Schema.apply_setters data)) as [x |]; simpl.
    - destruct (Schema.check_enum _ _ _) eqn:Hl in Hlevel; [done |].
      by apply check_enum_ok in Hl.
    - unfold Schema.levels, Schema.default_level. set_solver. }
  split.
  { destruct (in_price (Schema.apply_setters data)) as [x |]; simpl; [| done].
    destruct (Schema.check_min _ _ _) eqn:H1 in Hprice; [done |].
    by apply check_min_ok in H1. }
  split.
  { destruct (in_enrollments (Schema.apply_setters data)) as [x |]; simpl; [| done].
    destruct (Schema.check_min _ _ _) eqn:H1 in Henr; [done |].
    by apply check_min_ok in H1. }
  split.
  { destruct (in_rating (Schema.apply_setters data)) as [x |]; simpl; [| done].
    destruct (Schema.check_min _ _ _) eqn:H1 in Hrating; [done |].
    destruct (Schema.check_max _ _ _) eqn:H2 in Hrating; [done |].
    apply check_min_ok in H1. apply check_max_ok in H2. by split. }
  destruct (in_status (Schema.apply_setters data)) as [x |]; simpl.
  - destruct (Schema.check_enum _ _ _) eqn:Hl in Hstatus; [done |].
    by apply check_enum_ok in Hl.
  - unfold Schema.statuses, Schema.default_status. set_solver.
Qed.

(** A successful save keeps the two unique indexes. *)
Lemma save_keeps_store_ok now st data c st' :
  save now st data = inr (c, st') → store_ok st → store_ok st'.
Proof.
  intros Hs (Hcids & Hids & Hbound).
  apply save_inr in Hs as (Hid & Hnext & Hdocs & _ & Hfresh).
  unfold store_ok. rewrite Hdocs, Hnext, !fmap_app. simpl.
  split; [| split].
  - apply NoDup_app. split; [done |]. split; [| apply NoDup_singleton].
    intros x Hx Hx'. apply list_elem_of_singleton in Hx' as ->.
    by apply has_course_id_fmap in Hfresh.
  - apply NoDup_app. split; [done |]. split; [| apply NoDup_singleton].
    intros x Hx Hx'. apply list_elem_of_singleton in Hx' as ->.
    apply list_elem_of_fmap in Hx as (d & Heq & Hd).
    specialize (Hbound d Hd). lia.
  - intros d [Hd | Hd]%elem_of_app.
    + specialize (Hbound d Hd). lia.
    + apply list_elem_of_singleton in Hd as ->. lia.
Qed.

End SaveContracts.
(** ** How the requests change the collection *)

Section StoreEvolution.

Context `{Platform}.

(** The collection after a request is the collection before it, put
    through the save loop on some list of documents. *)
Lemma app_store sv t req :
  ∃ datas, store (snd (app sv t req)) = store_after t (store sv) datas.
Proof.
  unfold app. destruct (route req) as [q | q | id | file | body |].
  - exists []. unfold get_courses. destruct (RedisClient.get _ _ _); [done |].
    by destruct (list_result (store sv) q).
  - exists []. unfold search_courses. destruct (negb _ || _); [done |].
    by destruct (RedisClient.get _ _ _).
  - exists []. unfold get_course. destruct (RedisClient.get _ _ _); [done |].
    by destruct (findOne (store sv) id) as [[c |] |].
  - unfold upload_courses. destruct file as [[results | message] |];
      try by exists [].
    destruct results as [| row rest]; [by exists [] |].
    destruct (fst (validate_rows 1 (row :: rest))) as [| cd cds] eqn:Hcs;
      [by exists [] |].
    exists (cd :: cds). cbn [snd store]. apply save_courses_store.
  - destruct (authenticateToken (authorization req)) as [denied | user];
      [by exists [] |].
    exists [with_created_by body (user_id user)].
    unfold create_course. simpl.
    by destruct (save t (store sv) _) as [[errs |] | [c st']].
  - exists []. unfold get_stats. by destruct (RedisClient.get _ _ _).
Qed.

Lemma store_after_invariant (P : Store → Prop) now st datas :
  (∀ t st1 data c st2, save t st1 data = inr (c, st2) → P st1 → P st2) →
  P st → P (store_after now st datas).
Proof.
  intros Hstep. revert st. induction datas as [| d rest IH]; intros st Hst; [done |].
  simpl. destruct (save now st d) as [err | [c st']] eqn:Hs; [by apply IH |].
  apply IH. by eapply Hstep.
Qed.

Lemma run_invariant (P : Store → Prop) sv steps :
  (∀ t st1 data c st2, save t st1 data = inr (c, st2) → P st1 → P st2) →
  Forall keeps_store steps →
  P (store sv) → P (store (run sv steps)).
Proof.
  intros Hstep Hsteps. revert sv.
  induction Hsteps as [| step steps Hkeep _ IH]; intros sv Hsv; [done |].
  destruct step as [t req | e | st]; simpl in *; [| by apply IH | done].
  apply IH. destruct (app_store sv t req) as [datas ->].
  by apply store_after_invariant.
Qed.

(** X7.  Whatever requests are served, the collection keeps its unique
    indexes: no two stored courses share a course id or a document id,
    and every document id is below the next one to be handed out. *)
Theorem requests_keep_ids_unique (sv : Services) (steps : list Step) :
  store_ok (store sv) →
  Forall keeps_store steps →
  store_ok (store (run sv steps)).
Proof.
  intros Hok Hsteps. apply run_invariant; [| done | done].
  intros t st1 data c st2. apply save_keeps_store_ok.
Qed.

Lemma reads_or_uploads_keep_store steps :
  Forall reads_or_uploads steps → Forall keeps_store steps.
Proof.
  intros Hall. eapply Forall_impl; [exact Hall |].
  intros [t req | e | st]; simpl; done.
Qed.

(** X8.  Every document the bulk upload writes meets the schema: a
    non-empty, trimmed, upper-case course id, the lengths of title,
    description and instructor (in UTF-16 units, as [length] counts)
    within their bounds, category, level and status in their closed
    sets, a duration between 1 and 1000, a price and enrollments that are
    not negative, a rating between 0 and 5.  So a collection that meets
    the schema still does after any run of reads and uploads. *)
Theorem requests_store_valid_courses (sv : Services) (steps : list Step) :
  Forall meets_schema (docs (store sv)) →
  Forall reads_or_uploads steps →
  Forall meets_schema (docs (store (run sv steps))).
Proof.
  intros Hok Hsteps%reads_or_uploads_keep_store.
  apply (run_invariant (fun st => Forall meets_schema (docs st))); [| done | done].
  intros t st1 data c st2 Hs Hall.
  pose proof (save_meets_schema _ _ _ _ _ Hs) as Hc.
  apply save_inr in Hs as (_ & _ & -> & _).
  apply Forall_app. split; [done |]. by apply Forall_singleton.
Qed.

Lemma run_appends sv steps :
  Forall keeps_store steps →
  ∃ added, docs (store (run sv steps)) = docs (store sv) ++ added.
Proof.
  intros Hsteps.
  apply (run_invariant (fun st => ∃ added, docs st = docs (store sv) ++ added));
    [| done | by exists []; rewrite app_nil_r].
  intros t st1 data c st2 Hs [added Hadded].
  apply save_inr in Hs as (_ & _ & -> & _).
  exists (added ++ [c]). by rewrite Hadded, app_assoc.
Qed.

(** The three outcomes of the create handler. *)
Lemma create_course_outcomes sv now user body :
  let data := with_created_by body (user_id user) in
  let out := create_course sv now user body in
  (res_status (fst out) = 201%nat
   ∧ ∃ c, res_data (fst out) = Some (DCourse (PCourse c))
          ∧ docs (store (snd out)) = docs (store sv) ++ [c])
  ∨ (res_status (fst out) = 400%nat
     ∧ snd out = sv
     ∧ res_data (fst out) = None
     ∧ Schema.validate (Schema.apply_setters data) ≠ []
     ∧ res_errors (fst out)
       = Some (FieldErrors (Schema.validate (Schema.apply_setters data))))
  ∨ (res_status (fst out) = 409%nat
     ∧ snd out = sv
     ∧ res_data (fst out) = None
     ∧ Schema.validate (Schema.apply_setters data) = []
     ∧ ∃ cid d, in_course_id body = Some cid
                ∧ d ∈ docs (store sv)
                ∧ course_id d = JS.toUpperCase (JS.trim cid)).
Proof.
  intros data out. subst out. unfold create_course. fold data.
  unfold save.
  destruct (Schema.validate (Schema.apply_setters data)) as [| e errs] eqn:Hv.
  - destruct (validated_course_id data (next_oid (store sv)) now Hv)
      as (cid & Hcid & Hne & Hpre & Hbuilt).
    rewrite Hpre.
    destruct (has_course_id _ _) eqn:Hdup.
    + right. right. simpl. repeat split; try done.
      apply has_course_id_elem in Hdup as (d & Hd & Heq).
      exists cid, d. by rewrite Heq, Hbuilt.
    + left. simpl. split; [done |]. eauto.
  - right. left. simpl. repeat split; done.
Qed.

(** X9.  A create either is answered 201 or changes nothing.  When the
    answer is not 201 the service is left as it was (no document stored,
    nothing indexed, no cache key deleted) and the response carries no
    course; the answer is 401 exactly when the header gives no token.
    When the answer is 201 the response carries the course that was
    stored: the collection is the one before followed by that course, the
    key [courses:list:*] is the only one deleted from the cache, and the
    index is the one [indexCourse] leaves for that course when the
    adapter reports healthy, and untouched when it does not. *)
Theorem failed_create_changes_nothing
    (sv : Services) (now : Z) (auth : option string) (body : CourseData) :
  let resp := fst (app sv now {| authorization := auth; route := POST_courses body |}) in
  let after := snd (app sv now {| authorization := auth; route := POST_courses body |}) in
  (res_status resp ≠ 201%nat → after = sv ∧ res_data resp = None)
  ∧ (res_status resp = 401%nat ↔ JS.truthy (bearer_token auth) = false)
  ∧ (res_status resp = 201%nat →
     ∃ c, res_data resp = Some (DCourse (PCourse c))
          ∧ docs (store after) = docs (store sv) ++ [c]
          ∧ redis after
            = snd (RedisClient.del (redis sv) (getCacheKey "list" ["*"]))
          ∧ es after
            = if ElasticsearchClient.isHealthy (es sv)
              then snd (ElasticsearchClient.indexCourse (es sv) c)
              else es sv).
Proof.
  cbv zeta. unfold app, authenticateToken. cbn [route authorization].
  destruct (JS.truthy (bearer_token auth)) eqn:Htok; cbn [negb].
  - unfold create_course.
    destruct (save now (store sv) _) as [[errs |] | [c st']] eqn:Hs;
      cbn [fst snd res_status reply reply_data res_data store redis es].
    + split; [done |]. split; done.
    + split; [done |]. split; done.
    + split; [done |]. split; [done |]. intros _. exists c.
      by apply save_inr in Hs as (_ & _ & -> & _).
  - cbn [fst snd res_status reply res_data].
    split; [done |]. split; done.
Qed.

(** X10.  The requests only ever append to the collection: a stored
    course is never removed or altered.  Hence, once a course is stored,
    every later create whose course id is the stored one up to white
    space around it and letter case is refused, with 400 or 409, and
    changes nothing. *)
Theorem stored_course_id_stays_taken
    (sv : Services) (steps : list Step) (c : Course) (now : Z) (user : User)
    (body : CourseData) (cid : string) :
  c ∈ docs (store sv) →
  Forall keeps_store steps →
  in_course_id body = Some cid →
  JS.toUpperCase (JS.trim cid) = course_id c →
  let later := run sv steps in
  (∃ added, docs (store later) = docs (store sv) ++ added)
  ∧ c ∈ docs (store later)
  ∧ res_status (fst (create_course later now user body)) ∈ [400%nat; 409%nat]
  ∧ snd (create_course later now user body) = later.
Proof.
  intros Hc Hsteps Hcid Hnorm later.
  destruct (run_appends sv steps Hsteps) as [added Hadded]. fold later in Hadded.
  assert (c ∈ docs (store later)) as Hc'
    by (rewrite Hadded; apply elem_of_app; by left).
  split; [eauto |]. split; [done |].
  destruct (create_course_outcomes later now user body)
    as [(H201 & c' & Hdata & Hdocs) | [(H400 & Hsame & _) | (H409 & Hsame & _)]].
  - exfalso. unfold create_course, save in Hdata.
    destruct (Schema.validate _) as [| e errs] eqn:Hv; [| done].
    destruct (validated_course_id _ (next_oid (store later)) now Hv)
      as (cid' & Hcid' & _ & Hpre & Hbuilt).
    simpl in Hcid'. rewrite Hcid in Hcid'. injection Hcid' as <-.
    rewrite Hpre, Hbuilt, Hnorm in Hdata.
    assert (has_course_id (course_id c) (docs (store later)) = true) as Hdup
      by (apply has_course_id_elem; eauto).
    by rewrite Hdup in Hdata.
  - rewrite H400. split; [repeat constructor | done].
  - rewrite H409. split; [repeat constructor | done].
Qed.

End StoreEvolution.
(** ** The upload, row by row *)

Section UploadRows.

Context `{Platform}.

Lemma path_error_elem path checks p msg :
  (p, msg) ∈ Schema.path_error path checks →
  p = path ∧ Schema.first_failure checks = Some msg.
Proof.
  unfold Schema.path_error.
  destruct (Schema.first_failure checks) as [m |]; [| by intros ?%elem_of_nil].
  by intros [= -> ->]%list_elem_of_singleton.
Qed.

Lemma missing_elem {A} path m (v : option A) p msg :
  (p, msg) ∈ Schema.missing path m v → p = path ∧ v = None.
Proof.
  destruct v as [x |]; simpl; [by intros ?%elem_of_nil |].
  by intros [= -> ->]%list_elem_of_singleton.
Qed.

Lemma category_is_clean cat :
  cat ∈ Schema.categories →
  JS.trim cat = cat ∧ JS.truthy (Some cat) = true.
Proof.
  unfold Schema.categories. intros Hin.
  repeat (apply elem_of_cons in Hin as [-> | Hin]; [by vm_compute |]).
  by apply elem_of_nil in Hin.
Qed.

Lemma level_is_clean lv : lv ∈ Schema.levels → lv ≠ "".
Proof.
  unfold Schema.levels. intros Hin.
  repeat (apply elem_of_cons in Hin as [-> | Hin]; [done |]).
  by apply elem_of_nil in Hin.
Qed.

Lemma includes_elem values x : Schema.includes values x = true ↔ x ∈ values.
Proof. unfold Schema.includes. apply bool_decide_eq_true. Qed.

Lemma prepared_category row :
  ∃ cat, in_category (prepare row) = Some cat ∧ cat ∈ Schema.categories.
Proof.
  unfold prepare. simpl.
  destruct (JS.trim <$> row !! "category") as [cat |].
  - destruct (Schema.includes Schema.categories cat) eqn:Hin.
    + exists cat. split; [done | by apply includes_elem].
    + exists "Other". split; [done | by apply includes_elem].
  - exists "Other". split; [done | by apply includes_elem].
Qed.

Lemma prepared_level row :
  ∃ lv, in_level (prepare row) = Some lv ∧ lv ∈ Schema.levels.
Proof.
  unfold prepare. simpl.
  destruct (Schema.includes Schema.levels _) eqn:Hin.
  - eexists. split; [done | by apply includes_elem].
  - exists "Beginner". split; [done | by apply includes_elem].
Qed.

Lemma min5_le x : Qle_bool (min5 x) 5 = true.
Proof. unfold min5. by destruct (Qle_bool x 5) eqn:Hle. Qed.

(** X11.  The upload coerces the category and the level of a row into
    their closed sets ([Other], [Beginner] for anything else) and caps the
    rating at 5, so the save of a row can only fail on its course id,
    title, description, instructor, duration, price or a negative rating:
    never on the category, the level, the status, the enrollments, or a
    rating above 5. *)
Theorem unknown_category_never_fails_a_row (row : gmap string string) :
  let d := Schema.apply_setters (prepare row) in
  (∃ cat, in_category d = Some cat ∧ cat ∈ Schema.categories)
  ∧ (∃ lv, in_level d = Some lv ∧ lv ∈ Schema.levels)
  ∧ in_status d = None
  ∧ (∀ path msg, (path, msg) ∈ Schema.validate d →
       path ∈ ["course_id"; "title"; "description"; "instructor"; "duration";
               "price"; "rating"]
       ∧ (path = "rating" → msg = "Rating cannot be negative")).
Proof.
  intros d.
  destruct (prepared_category row) as (cat & Hcat & Hin).
  destruct (prepared_level row) as (lv & Hlv & Hlin).
  destruct (category_is_clean cat Hin) as [Htrim Htruthy].
  assert (in_category d = Some cat) as Hdcat
    by (subst d; simpl in *; rewrite Hcat; simpl; by rewrite Htrim).
  assert (in_level d = Some lv) as Hdlv by (subst d; by simpl in * ).
  split; [eauto |]. split; [eauto |]. split; [done |].
  intros path msg. unfold Schema.validate.
  rewrite !elem_of_app.
  intros [Hp | [Hp | [Hp | [Hp | [Hp | [Hp | Hp]]]]]];
    [apply missing_elem in Hp as [-> Hnone] .. |].
  - split; [repeat constructor | done].
  - split; [repeat constructor | done].
  - exfalso. by rewrite Hdcat in Hnone.
  - split; [repeat constructor | done].
  - split; [repeat constructor | done].
  - split; [repeat constructor | done].
  - destruct Hp as [Hp | [Hp | [Hp | [Hp | [Hp | [Hp | [Hp | [Hp | [Hp | [Hp | Hp]]]]]]]]]];
    apply path_error_elem in Hp as [-> Hf].
  + split; [repeat constructor | done].
  + split; [repeat constructor | done].
  + split; [repeat constructor | done].
  + exfalso. rewrite Hdcat in Hf. simpl in Hf.
    unfold Schema.check_required in Hf. rewrite Htruthy in Hf.
    unfold Schema.check_enum in Hf.
    by rewrite (proj2 (includes_elem _ _) Hin) in Hf.
  + split; [repeat constructor | done].
  + split; [repeat constructor | done].
  + exfalso. rewrite Hdlv in Hf. simpl in Hf. unfold Schema.check_enum in Hf.
    by rewrite (proj2 (includes_elem _ _) Hlin) in Hf.
  + split; [repeat constructor | done].
  + exfalso. by subst d.
  + split; [repeat constructor |]. intros _.
    subst d. simpl in Hf.
    destruct (Qle_bool 0 _); [| by injection Hf].
    by rewrite min5_le in Hf.
  + exfalso. by subst d.
Qed.

(** X12.  The validation loop reports the rows that lack a required
    field in row order, each with its number counted from 1 and with the
    missing fields in the order title, description, category, instructor,
    duration; the other rows are prepared for saving, in row order. *)
Theorem row_errors_are_numbered_in_order (results : list (gmap string string)) :
  snd (validate_rows 1 results) = omap id (imap (numbered_error 1) results)
  ∧ fst (validate_rows 1 results)
    = prepare <$> List.filter (fun row => negb (invalid_row row)) results
  ∧ (∀ row, sublist (missingFields row) requiredFields).
Proof.
  split; [| split].
  - generalize 1%nat as n. induction results as [| row rest IH]; intros n; [done |].
    assert (imap (numbered_error n ∘ S) rest = imap (numbered_error (S n)) rest)
      as Hshift.
    { apply imap_ext. intros i r _. unfold numbered_error. simpl.
      by replace (n + S i)%nat with (S (n + i)) by lia. }
    cbn [validate_rows imap]. rewrite Hshift. cbn [omap list_omap].
    fold (omap id (imap (numbered_error (S n)) rest)). rewrite <- IH.
    unfold numbered_error, invalid_row.
    destruct (missingFields row) as [| m ms]; [done |].
    cbn [id snd]. by rewrite Nat.add_0_r.
  - apply validate_rows_courses.
  - intros row. unfold missingFields.
    induction requiredFields as [| f fs IH]; [done |]. simpl.
    destruct (blank row f); [by apply sublist_skip | by apply sublist_cons].
Qed.

Lemma save_courses_ignores_index now st e e' l :
  savedCourses (save_courses now st e l) = savedCourses (save_courses now st e' l)
  ∧ saveErrors (save_courses now st e l) = saveErrors (save_courses now st e' l)
  ∧ loop_store (save_courses now st e l) = loop_store (save_courses now st e' l).
Proof.
  revert st e e'. induction l as [| cd rest IH]; intros st e e'; [done |].
  simpl. destruct (save now st cd) as [err | [c st']]; simpl.
  - destruct (IH st e e') as (-> & -> & ->). done.
  - destruct (IH st'
                (if ElasticsearchClient.isHealthy e
                 then snd (ElasticsearchClient.indexCourse e c) else e)
                (if ElasticsearchClient.isHealthy e'
                 then snd (ElasticsearchClient.indexCourse e' c) else e'))
      as (-> & -> & ->).
    done.
Qed.

(** X13.  Indexing is best effort: the response of an upload or of a
    create, the collection and the cache they leave, are the same whatever
    the state of the search adapter; and with the adapter unavailable the
    index is left as it was while the courses are stored all the same. *)
Theorem writes_do_not_depend_on_the_index
    (sv : Services) (e : ElasticsearchClient.t) (now : Z) (req : Request) :
  read_route (route req) = false →
  let other := {| store := store sv; redis := redis sv; es := e |} in
  fst (app other now req) = fst (app sv now req)
  ∧ store (snd (app other now req)) = store (snd (app sv now req))
  ∧ redis (snd (app other now req)) = redis (snd (app sv now req))
  ∧ (index_down (es sv) → es (snd (app sv now req)) = es sv).
Proof.
  intros Hw other. unfold app.
  destruct (route req) as [q | q | id | file | body |]; try done.
  - unfold upload_courses.
    destruct file as [[results | message] |]; try done.
    destruct results as [| row rest]; [done |].
    destruct (fst (validate_rows 1 (row :: rest))) as [| cd cds]; [done |].
    cbn [fst snd store redis es other].
    destruct (save_courses_ignores_index now (store sv) e (es sv) (cd :: cds))
      as (-> & -> & ->).
    split; [done |]. split; [done |]. split; [done |].
    apply save_courses_index_down.
  - destruct (authenticateToken (authorization req)) as [denied | user]; [done |].
    unfold create_course. cbn [store redis es other].
    destruct (save now (store sv) _) as [[errs |] | [c st']]; try done.
    cbn [fst snd store redis es].
    split; [done |]. split; [done |]. split; [done |].
    intros Hd. rewrite index_course_down by done.
    by destruct (ElasticsearchClient.isHealthy (es sv)).
Qed.

End UploadRows.
(** ** The setters of the schema *)

Section Setters.

Context `{Platform}.

Lemma upper_trim_twice (s : string) :
  JS.toUpperCase (JS.trim (JS.toUpperCase (JS.trim s))) = JS.toUpperCase (JS.trim s).
Proof. by rewrite trim_upper, trim_idem, toUpperCase_idem. Qed.

Lemma lower_trim_twice (s : string) :
  JS.toLowerCase (JS.trim (JS.toLowerCase (JS.trim s))) = JS.toLowerCase (JS.trim s).
Proof. by rewrite trim_lower, trim_idem, toLowerCase_idem. Qed.

Lemma fmap_twice {A} (f : A → A) (o : option A) :
  (∀ x, f (f x) = f x) → f <$> (f <$> o) = f <$> o.
Proof. intros Hf. destruct o; simpl; by rewrite ?Hf. Qed.

Lemma list_fmap_twice {A} (f : A → A) (l : list A) :
  (∀ x, f (f x) = f x) → f <$> (f <$> l) = f <$> l.
Proof.
  intros Hf. induction l as [| x l IH]; [done |].
  rewrite !fmap_cons. by rewrite Hf, IH.
Qed.

(** X20.  The setters of the schema (trim, upper case, lower case) are
    idempotent, and the course data the upload prepares from a row is
    already in the form they produce: what the upload prepares is what is
    validated and stored, field for field. *)
Theorem setters_are_idempotent (d : CourseData) (row : gmap string string) :
  Schema.apply_setters (Schema.apply_setters d) = Schema.apply_setters d
  ∧ Schema.apply_setters (prepare row) = prepare row.
Proof.
  split.
  - unfold Schema.apply_setters. cbn [in_course_id in_title in_description
      in_category in_instructor in_duration in_level in_price in_enrollments
      in_rating in_tags in_prerequisites in_learning_outcomes in_thumbnail_url
      in_status in_created_by].
    rewrite (fmap_twice _ (in_course_id d) upper_trim_twice).
    rewrite !(fmap_twice JS.trim _ trim_idem).
    rewrite (list_fmap_twice _ (in_tags d) lower_trim_twice).
    by rewrite !(list_fmap_twice JS.trim _ trim_idem).
  - destruct (prepared_category row) as (cat & Hcat & Hin).
    destruct (category_is_clean cat Hin) as [Hclean _].
    unfold Schema.apply_setters. rewrite Hcat.
    unfold prepare in *. cbn [in_course_id in_title in_description
      in_category in_instructor in_duration in_level in_price in_enrollments
      in_rating in_tags in_prerequisites in_learning_outcomes in_thumbnail_url
      in_status in_created_by] in *.
    rewrite Hcat. f_equal.
    + destruct (row !! "course_id") as [s |]; [| done]. simpl.
      by rewrite trim_upper, upper_trim_twice.
    + apply fmap_twice, trim_idem.
    + apply fmap_twice, trim_idem.
    + simpl. by rewrite Hclean.
    + apply fmap_twice, trim_idem.
    + unfold split_list. destruct (JS.truthy (row !! "tags")); [| done].
      rewrite <- list_fmap_compose. apply list_fmap_ext. intros i s _. simpl.
      by rewrite trim_lower, trim_idem, toLowerCase_idem.
    + unfold split_list. destruct (JS.truthy (row !! "prerequisites")); [| done].
      rewrite <- list_fmap_compose. apply list_fmap_ext. intros i s _. simpl.
      apply trim_idem.
    + unfold split_list. destruct (JS.truthy (row !! "learning_outcomes")); [| done].
      rewrite <- list_fmap_compose. apply list_fmap_ext. intros i s _. simpl.
      apply trim_idem.
    + simpl. f_equal. destruct (row !! "thumbnail_url") as [s |]; [| by vm_compute].
      simpl. destruct (JS.trim s) as [| a t] eqn:Ht; [by vm_compute |].
      simpl. by rewrite <- Ht, trim_idem.
Qed.

End Setters.
(** ** The list of courses *)

Section Listing.

Context `{Platform}.

Lemma ceil_bounds (total limit : N) :
  (0 < limit)%N →
  (total ≤ (total + limit - 1) / limit * limit
   ∧ (total + limit - 1) / limit * limit < total + limit)%N.
Proof.
  intros Hl.
  pose proof (N.div_mod (total + limit - 1) limit ltac:(lia)) as Hdm.
  pose proof (N.mod_lt (total + limit - 1) limit ltac:(lia)) as Hb.
  set (a := (total + limit - 1)%N) in *.
  set (d := (a / limit)%N) in *. set (m := (a mod limit)%N) in *.
  assert (a = total + limit - 1)%N as Ha by done. clearbody a d m.
  nia.
Qed.

(** [(page - 1) * limit] for a page from 1 on, where the doubles are
    exact. *)
Lemma skip_of_page (page limit : N) :
  (0 < page ≤ JS.exact)%N →
  ((page - 1) * limit < JS.exact)%N →
  JS.mul (JS.sub1 (JS.Fin false page)) (JS.Fin false limit)
  = JS.Fin false ((page - 1) * limit).
Proof.
  intros Hpage Hskip. unfold JS.sub1.
  rewrite (proj2 (N.eqb_neq page 0)) by lia.
  rewrite double_exact by lia. unfold JS.mul. simpl.
  by rewrite double_exact.
Qed.

(** [(0 - 1) * limit] is a negative integer. *)
Lemma skip_of_page_0 (limit : N) :
  (0 < limit < JS.exact)%N →
  ∃ p, JS.mul (JS.sub1 (JS.Fin false 0)) (JS.Fin false limit)
       = JS.Fin true (Npos p).
Proof.
  intros Hl. unfold JS.sub1, JS.mul. simpl.
  rewrite N.mul_1_l. rewrite double_exact by lia.
  destruct limit as [| p]; [lia | eauto].
Qed.

(** What a result of the list is made of. *)
Lemma list_result_some st q courses pg :
  list_result st q = Some (PList courses pg) →
  ∃ query,
    list_query q = Some query
    ∧ find st query (default "created_at" (lq_sort q))
        (String.eqb (default "desc" (lq_order q)) "desc")
        (JS.mul (JS.sub1 (page_number (lq_page q))) (page_size (lq_limit q)))
        (page_size (lq_limit q))
      = Some courses
    ∧ pg = paginate (page_number (lq_page q)) (page_size (lq_limit q))
             (countDocuments st query).
Proof.
  unfold list_result. destruct (list_query q) as [query |]; [| done].
  destruct (find _ _ _ _ _ _) as [found |] eqn:Hfind; [| done].
  intros [= <- <-]. eauto.
Qed.

(** The filter of a list query selects on the status. *)
Lemma list_query_status q query c :
  list_query q = Some query → query c = true →
  status c = default "published" (lq_status q).
Proof.
  unfold list_query.
  destruct (pattern_of (lq_instructor q)) as [ire |]; [| done].
  destruct (pattern_of (lq_search q)) as [sre |]; [| done].
  intros [= <-] Hmatch. unfold list_match in Hmatch.
  repeat (apply andb_true_iff in Hmatch as [Hmatch _]).
  by apply String.eqb_eq.
Qed.

(** X14.  The pagination of a list result is consistent with the count
    of the courses that match the query.  For a page and a limit that
    parse to integers from 0 on: [total_items] is the number of stored
    courses that pass the filter, [current_page] and [items_per_page] are
    the numbers sent, [has_prev] says that the page is after the first.
    With a limit from 1 on, [total_pages] is the least number of pages of
    [limit] items that holds them all and [has_next] says exactly that
    courses remain after this page.  With a limit of 0 the number of
    pages is not a finite number and is written [null], and [has_next]
    says that there is a course at all. *)
Theorem list_pagination_is_consistent
    (st : Store) (q : ListQuery) (page limit : N)
    (courses : list Course) (pg : Pagination) :
  page_number (lq_page q) = JS.Fin false page →
  page_size (lq_limit q) = JS.Fin false limit →
  list_result st q = Some (PList courses pg) →
  ∃ query,
    list_query q = Some query
    ∧ total_items pg = N.of_nat (length (List.filter query (docs st)))
    ∧ current_page pg = Some (Z.of_N page)
    ∧ items_per_page pg = Some (Z.of_N limit)
    ∧ (has_prev pg = true ↔ (1 < page)%N)
    ∧ ((0 < limit)%N →
       ∃ pages : N,
         total_pages pg = Some (Z.of_N pages)
         ∧ (total_items pg ≤ pages * limit < total_items pg + limit)%N
         ∧ (has_next pg = true ↔ (page * limit < total_items pg)%N))
    ∧ (limit = 0%N →
       total_pages pg = None
       ∧ (has_next pg = true ↔ (0 < total_items pg)%N)).
Proof.
  intros Hpage Hlimit Hres.
  destruct (list_result_some st q courses pg Hres) as (query & Hq & _ & ->).
  exists query. rewrite Hpage, Hlimit. unfold paginate, countDocuments.
  cbn [total_items current_page items_per_page has_prev total_pages has_next].
  set (total := N.of_nat (length (List.filter query (docs st)))).
  split; [done |]. split; [done |]. split; [done |]. split; [done |].
  split; [| split].
  - cbn [JS.lt JS.signed]. rewrite Z.ltb_lt. lia.
  - intros Hl. destruct limit as [| p] eqn:Hp; [lia |].
    cbn [JS.ceil_div JS.json JS.signed JS.lt]. rewrite <- Hp in *.
    exists ((total + limit - 1) / limit)%N.
    destruct (ceil_bounds total limit Hl) as [Hlo Hhi].
    split; [done |]. split; [lia |].
    rewrite Z.ltb_lt. split; intros; nia.
  - intros ->. cbn [JS.ceil_div].
    destruct (total =? 0)%N eqn:Ht; cbn [JS.json JS.lt].
    + apply N.eqb_eq in Ht. split; [done |]. split; [done | lia].
    + apply N.eqb_neq in Ht. split; [done |]. split; [lia | done].
Qed.

(** X15.  When the patterns of the query are accepted, the store sorts
    the matching courses into a list that is a reordering of them, and
    the page is from 1 on with [page * limit] at most 2^53, the list is
    answered with a page of the sorted matches: the courses left after
    the [(page - 1) * limit] skipped ones, up to [limit] of them, and
    every match when the limit is 0.  Every course of the page is a
    stored course that passes the filter; in particular it has the
    requested status, [published] by default. *)
Theorem list_page_shows_matching_courses
    (st : Store) (q : ListQuery) (page limit : N)
    (query : Course → bool) (sorted : list Course) :
  page_number (lq_page q) = JS.Fin false page →
  page_size (lq_limit q) = JS.Fin false limit →
  (0 < page ≤ JS.exact)%N →
  (page * limit ≤ JS.exact)%N →
  list_query q = Some query →
  store_sort (default "created_at" (lq_sort q))
    (String.eqb (default "desc" (lq_order q)) "desc")
    (List.filter query (docs st)) = Some sorted →
  sorted ≡ₚ List.filter query (docs st) →
  let total := length (List.filter query (docs st)) in
  let skipped := N.to_nat ((page - 1) * limit) in
  ∃ courses,
    list_result st q
    = Some (PList courses
              (paginate (JS.Fin false page) (JS.Fin false limit) (N.of_nat total)))
    ∧ (limit = 0%N → courses = sorted)
    ∧ ((0 < limit)%N → courses = take (N.to_nat limit) (drop skipped sorted))
    ∧ (∀ c, c ∈ courses →
         c ∈ docs st
         ∧ query c = true
         ∧ status c = default "published" (lq_status q))
    ∧ length courses
      = (if (limit =? 0)%N then total
         else Nat.min (N.to_nat limit) (total - skipped)).
Proof.
  intros Hpage Hlimit Hp Hpl Hq Hsort Hperm total skipped.
  assert ((page - 1) * limit < JS.exact)%N as Hskip.
  { unfold JS.exact in *. nia. }
  assert (limit ≤ JS.exact)%N as Hl by (unfold JS.exact in *; nia).
  assert (∀ c l, c ∈ l → l ⊆ sorted →
            c ∈ docs st ∧ query c = true
            ∧ status c = default "published" (lq_status q)) as Hin.
  { intros c l Hc Hsub. apply Hsub in Hc. rewrite Hperm in Hc.
    apply list_elem_of_In, filter_In in Hc as [Hc Hmatch].
    split; [by apply list_elem_of_In |]. split; [done |].
    by apply (list_query_status q query). }
  unfold list_result, find, countDocuments. rewrite Hq, Hsort, Hpage, Hlimit.
  rewrite skip_of_page by done. unfold window.
  rewrite (proj2 (N.ltb_ge _ _)) by lia.
  rewrite (proj2 (N.ltb_ge _ _) Hl). cbn [orb].
  fold total skipped.
  destruct (limit =? 0)%N eqn:H0.
  - apply N.eqb_eq in H0. subst limit.
    assert (skipped = 0%nat) as -> by (subst skipped; lia).
    rewrite drop_0. eexists. split; [reflexivity |].
    split; [done |]. split; [lia |]. split.
    + intros c Hc. by apply (Hin c sorted).
    + subst total. by rewrite (Permutation_length Hperm).
  - apply N.eqb_neq in H0. eexists. split; [reflexivity |].
    split; [done |]. split; [done |]. split.
    + intros c Hc. apply (Hin c _ Hc).
      etrans; [apply subseteq_take | apply subseteq_drop].
    + rewrite length_take, length_drop. subst total.
      by rewrite (Permutation_length Hperm).
Qed.

(** X21.  A list read that misses the cache is answered 500, "Internal
    server error while retrieving courses", and caches nothing, when the
    pattern of [instructor] or of [search] is refused, and when the page
    is 0 with a limit from 1 to 2^53: the store refuses the negative
    skip. *)
Theorem list_errors_are_answered_500
    (sv : Services) (now : Z) (q : ListQuery) :
  RedisClient.get (redis sv) now (list_key q) = None →
  pattern_of (lq_instructor q) = None
  ∨ pattern_of (lq_search q) = None
  ∨ (∃ limit, page_number (lq_page q) = JS.Fin false 0
              ∧ page_size (lq_limit q) = JS.Fin false limit
              ∧ (0 < limit < JS.exact)%N) →
  get_courses sv now q
  = (reply 500 false "Internal server error while retrieving courses", sv).
Proof.
  intros Hmiss Hbad. unfold get_courses. rewrite Hmiss.
  assert (list_result (store sv) q = None) as ->; [| done].
  unfold list_result, list_query.
  destruct Hbad as [-> | [-> | (limit & Hpage & Hlimit & Hl)]]; [done | |].
  - by destruct (pattern_of (lq_instructor q)).
  - destruct (pattern_of (lq_instructor q)) as [ire |]; [| done].
    destruct (pattern_of (lq_search q)) as [sre |]; [| done].
    rewrite Hpage, Hlimit. unfold find.
    destruct (store_sort _ _ _) as [sorted |]; [| done].
    destruct (skip_of_page_0 limit Hl) as [p ->]. done.
Qed.

End Listing.
(** ** A read and the reads that follow it *)

Section ReadThenRead.

Context `{Platform}.

Lemma route_key_not_star r key :
  route_key r = Some key → key ≠ getCacheKey "list" ["*"].
Proof.
  destruct r as [q | q | id | f | b |]; try done; intros [= <-];
    apply cache_keys_are_not_the_star_key.
Qed.

(** A read that misses and is answered 200 stores its payload under its
    key for its time to live; any other read that misses stores
    nothing. *)
Lemma miss_populates sv now req :
  read_route (route req) = true →
  cache_answer sv now (route req) = None →
  (res_status (fst (app sv now req)) = 200%nat
   ∧ ∃ key p,
       route_key (route req) = Some key
       ∧ cache_answer sv now (route req) = RedisClient.get (redis sv) now key
       ∧ fst (app sv now req) = reply_data 200 (res_message (fst (app sv now req)))
                                  (wrap (route req) p)
       ∧ redis (snd (app sv now req))
         = snd (RedisClient.set (redis sv) now key p (route_ttl (route req))))
  ∨ (res_status (fst (app sv now req)) ≠ 200%nat
     ∧ snd (app sv now req) = sv).
Proof.
  unfold app. destruct (route req) as [q | q | id | f | b |]; try done;
    simpl; intros _.
  - intros Hmiss. unfold get_courses. rewrite Hmiss.
    destruct (list_result (store sv) q) as [result |]; [| by right].
    left. simpl. split; [done |]. by eexists _, _.
  - unfold search_courses, blank_query.
    destruct (negb _ || _); [intros _; by right |].
    intros Hmiss. left. rewrite Hmiss. simpl.
    split; [done |]. by eexists _, _.
  - intros Hmiss. unfold get_course. rewrite Hmiss.
    destruct (findOne (store sv) id) as [[c |] |]; [| by right | by right].
    left. simpl. split; [done |]. by eexists _, _.
  - intros Hmiss. left. unfold get_stats. rewrite Hmiss. simpl.
    split; [done |]. by eexists _, _.
Qed.

(** The lookup of a read finds an entry that is live under its key. *)
Lemma live_entry_answers sv now' r key p expires :
  route_key r = Some key →
  (∀ q, r = GET_courses_search q → blank_query q = false) →
  cache_up (redis sv) →
  RedisClient.keys (redis sv) !! key = Some (p, expires) →
  now' < expires →
  cache_answer sv now' r = Some p.
Proof.
  intros Hkey Hq Hup Hentry Hlive.
  assert (RedisClient.get (redis sv) now' key = Some p) as Hget.
  { rewrite redis_get_up by done. unfold RedisClient.live. rewrite Hentry.
    by rewrite (proj2 (Z.ltb_lt _ _) Hlive). }
  destruct r as [q | q | id | f | b |]; try done; simpl in *;
    try (by injection Hkey as <-).
  rewrite (Hq q eq_refl). by injection Hkey as <-.
Qed.

(** X16.  On a working cache, a read that misses and is answered 200 is
    cached for its time to live (list 300 s, search 120 s, single course
    600 s, statistics 900 s): until then the same request is answered the
    same data, tagged [cached: true], whatever was served, stored or
    indexed in between; from the expiry on it misses again.  A read that
    is answered anything else (400, 404, 500) caches nothing. *)
Theorem read_is_cached_for_its_ttl (sv : Services) (now : Z) (req : Request) :
  cache_up (redis sv) →
  read_route (route req) = true →
  cache_answer sv now (route req) = None →
  let first := fst (app sv now req) in
  let after := snd (app sv now req) in
  let expires := now + route_ttl (route req) * 1000 in
  (res_status first = 200%nat →
   (∀ steps now',
      Forall (before expires) steps → now' < expires →
      res_cached (fst (app (run after steps) now' req)) = Some true
      ∧ res_data (fst (app (run after steps) now' req)) = res_data first
      ∧ snd (app (run after steps) now' req) = run after steps)
   ∧ (∀ now', expires ≤ now' → cache_answer after now' (route req) = None))
  ∧ (res_status first ≠ 200%nat → after = sv).
Proof.
  intros Hup Hread Hmiss first after expires.
  destruct (miss_populates sv now req Hread Hmiss)
    as [(H200 & key & p & Hkey & Hlookup & Hfirst & Hredis) | [Hnot Hsame]];
    [| by split].
  split; [| done]. intros _.
  assert (∀ q, route req = GET_courses_search q → blank_query q = false) as Hq.
  { intros q Hr. subst first. unfold app in H200. rewrite Hr in H200.
    unfold search_courses, blank_query in *.
    by destruct (negb _ || _). }
  pose proof (route_key_not_star _ _ Hkey) as Hstar.
  assert (RedisClient.keys (redis after) !! key = Some (p, expires)) as Hentry.
  { subst after. rewrite Hredis, redis_set_up by done. simpl.
    by rewrite lookup_insert_eq. }
  assert (cache_up (redis after)) as Hup'.
  { subst after. rewrite Hredis. by apply redis_set_keeps_up. }
  split.
  - intros steps now' Hsteps Hlt.
    destruct (run_keeps_live_entry after steps key p expires
                (proj2 Hup' _) Hstar Hsteps Hentry)
      as (Hkept & Hc & Hr).
    assert (cache_answer (run after steps) now' (route req) = Some p) as Hhit.
    { apply (live_entry_answers _ _ _ key p expires); try done.
      destruct Hup'; split; congruence. }
    destruct (hit_answer (run after steps) now' req p Hhit) as [msg ->].
    cbn [fst snd res_cached res_data reply_cached].
    subst first. by rewrite Hfirst.
  - intros now' Hge.
    assert (RedisClient.get (redis after) now' key = None) as Hnone.
    { rewrite redis_get_up by done. unfold RedisClient.live. rewrite Hentry.
      by rewrite (proj2 (Z.ltb_ge _ _) Hge). }
    destruct (route req) as [q | q | id | f | b |]; try done; simpl in *;
      try (by injection Hkey as <-).
    rewrite (Hq q eq_refl). by injection Hkey as <-.
Qed.

Lemma list_key_all q :
  lq_category q = None →
  list_key (with_category q (Some "all")) = list_key q.
Proof. unfold list_key. simpl. by intros ->. Qed.

(** X17.  The key of a list page does not tell an absent category filter
    from the category [all]: after an unfiltered read has been answered
    from the store and cached, the read of the same page filtered on the
    category [all] is served, for five minutes, the cached unfiltered
    page, tagged [cached: true]. *)
Theorem category_all_is_served_unfiltered
    (sv : Services) (now : Z) (q : ListQuery) (result : Payload) :
  cache_up (redis sv) →
  lq_category q = None →
  RedisClient.get (redis sv) now (list_key q) = None →
  list_result (store sv) q = Some result →
  let after := snd (get_courses sv now q) in
  fst (get_courses sv now q)
  = reply_data 200 "Courses retrieved successfully" (DResult result)
  ∧ list_key (with_category q (Some "all")) = list_key q
  ∧ ∀ now', now' < now + 300 * 1000 →
      get_courses after now' (with_category q (Some "all"))
      = (reply_cached "Courses retrieved from cache" (DResult result), after).
Proof.
  intros Hup Hcat Hmiss Hres after.
  split; [unfold get_courses; by rewrite Hmiss, Hres |].
  split; [by apply list_key_all |].
  intros now' Hlt. unfold get_courses at 1. rewrite list_key_all by done.
  subst after. unfold get_courses. rewrite Hmiss, Hres.
  cbn [snd with_redis redis].
  by rewrite redis_get_after_set.
Qed.

End ReadThenRead.
(** ** The sweep as a repair *)

Section Repair.

Lemma last_body_absent (l : list Course) (k : N) :
  k ∉ _id <$> l → last_body l k = None.
Proof.
  induction l as [| x rest IH]; [done |]. simpl.
  intros Hk. apply not_elem_of_cons in Hk as [Hne Hk].
  rewrite IH by done. destruct (N.eqb_spec (_id x) k); [congruence | done].
Qed.

Lemma last_body_unique (l : list Course) (c : Course) :
  NoDup (_id <$> l) → c ∈ l →
  last_body l (_id c) = Some (ElasticsearchClient.body_of c).
Proof.
  induction l as [| x rest IH]; [by intros _ ?%elem_of_nil |].
  simpl. intros [Hx Hrest]%NoDup_cons [-> | Hc]%elem_of_cons.
  - rewrite last_body_absent by done. by rewrite N.eqb_refl.
  - by rewrite IH.
Qed.

Lemma filter_sublist {A} (f : A → bool) (l : list A) :
  sublist (List.filter f l) l.
Proof.
  induction l as [| x l IH]; [done |]. simpl.
  destruct (f x); [by apply sublist_skip | by apply sublist_cons].
Qed.

Lemma swept_sublist st : sublist (swept st) (docs st).
Proof.
  unfold swept. etrans; [apply sublist_take | apply filter_sublist].
Qed.

(** X18.  With the index available and the document ids of the store
    distinct, a sweep leaves every swept course (the first 1000 published
    ones, all of them when there are at most 1000) indexed under its id
    with its current body, and leaves every other id of the index as it
    was: courses stored while the index was down become searchable, and
    documents of courses that are no longer published are not removed. *)
Theorem sweep_indexes_the_swept_courses (sv : Services) :
  index_up (es sv) →
  NoDup (_id <$> docs (store sv)) →
  let idx := ElasticsearchClient.index (es (syncCoursesToElasticsearch sv)) in
  (∀ c, c ∈ swept (store sv) → idx !! _id c = Some (ElasticsearchClient.body_of c))
  ∧ (∀ k, k ∉ _id <$> swept (store sv) →
       idx !! k = ElasticsearchClient.index (es sv) !! k)
  ∧ ((length (List.filter published (docs (store sv))) ≤ 1000)%nat →
     ∀ c, c ∈ docs (store sv) → status c = "published" → c ∈ swept (store sv)).
Proof.
  intros Hup Hids idx.
  assert (∀ k, idx !! k
               = match last_body (swept (store sv)) k with
                 | Some d => Some d
                 | None => ElasticsearchClient.index (es sv) !! k
                 end) as Hidx.
  { intros k. subst idx. unfold syncCoursesToElasticsearch, ElasticsearchClient.isHealthy.
    pose proof Hup as (Hc & _ & _). rewrite Hc. simpl.
    rewrite reindex_up by done. simpl. apply upsert_lookup. }
  assert (NoDup (_id <$> swept (store sv))) as Hswept.
  { apply (sublist_NoDup (_id <$> swept (store sv)) (_id <$> docs (store sv)));
      [done | apply fmap_sublist, swept_sublist]. }
  split; [| split].
  - intros c Hc. by rewrite Hidx, last_body_unique.
  - intros k Hk. by rewrite Hidx, last_body_absent.
  - intros Hfew c Hc Hst. unfold swept. rewrite take_ge by done.
    apply list_elem_of_In, filter_In. split; [by apply list_elem_of_In |].
    unfold published. by rewrite Hst.
Qed.

End Repair.
(** ** The statistics *)

Section Statistics.

Context `{Platform}.

Local Abbreviation group := (string * Z * Q * Q)%type.

Local Abbreviation group_name := (fun g : group => fst (fst (fst g))).

Lemma distinct_elem (x : string) (l : list string) : x ∈ distinct l ↔ x ∈ l.
Proof.
  induction l as [| y l IH]; [done |]. simpl.
  rewrite !elem_of_cons, <- IH. split.
  - intros [-> | Hx]; [by left |]. right.
    by apply list_elem_of_In, filter_In, proj1, list_elem_of_In in Hx.
  - intros [-> | Hx]; [by left |].
    destruct (String.eqb_spec y x) as [-> | Hne]; [by left |]. right.
    apply list_elem_of_In, filter_In. split; [by apply list_elem_of_In |].
    apply negb_true_iff. by apply String.eqb_neq.
Qed.

Lemma distinct_NoDup (l : list string) : NoDup (distinct l).
Proof.
  induction l as [| y l IH]; [constructor |]. simpl. constructor.
  - intros Hy. apply list_elem_of_In, filter_In in Hy as [_ Hy].
    by rewrite String.eqb_refl in Hy.
  - apply (sublist_NoDup _ (distinct l)); [done | apply filter_sublist].
Qed.

Lemma insert_by_count_perm (g : group) (l : list group) :
  insert_by_count g l ≡ₚ g :: l.
Proof.
  induction l as [| h rest IH]; [reflexivity |]. simpl.
  destruct (group_count h <=? group_count g); [reflexivity |].
  rewrite IH. apply Permutation_swap.
Qed.

Lemma sorted_groups_perm (gs : list group) :
  fold_right insert_by_count [] gs ≡ₚ gs.
Proof.
  induction gs as [| g rest IH]; [reflexivity |]. simpl.
  rewrite insert_by_count_perm. by apply Permutation_cons.
Qed.

Lemma insert_by_count_descending (g : group) (l : list group) :
  descending (group_count <$> l) →
  descending (group_count <$> insert_by_count g l).
Proof.
  induction l as [| h rest IH].
  { intros _. simpl. split; [by intros y ?%elem_of_nil | done]. }
  simpl. intros [Hh Hrest].
  destruct (group_count h <=? group_count g) eqn:Hle.
  - apply Z.leb_le in Hle. simpl. split; [| done].
    intros y [-> | Hy]%elem_of_cons; [done |].
    specialize (Hh y Hy). lia.
  - apply Z.leb_gt in Hle. simpl. split; [| by apply IH].
    intros y Hy. apply list_elem_of_fmap in Hy as (x & -> & Hx).
    rewrite insert_by_count_perm in Hx.
    apply elem_of_cons in Hx as [-> | Hx]; [lia |].
    apply Hh. by apply list_elem_of_fmap_2.
Qed.

Lemma sorted_groups_descending (gs : list group) :
  descending (group_count <$> fold_right insert_by_count [] gs).
Proof.
  induction gs as [| g rest IH]; [done |]. simpl.
  by apply insert_by_count_descending.
Qed.

Lemma sum_perm (l k : list Z) : l ≡ₚ k → foldr Z.add 0 l = foldr Z.add 0 k.
Proof. induction 1; simpl; lia. Qed.

Lemma count_split (l : list Course) (cat : string) (cats : list string) :
  cat ∉ cats →
  length (List.filter (fun c => bool_decide (category c ∈ cat :: cats)) l)
  = (length (List.filter (fun c => String.eqb (category c) cat) l)
     + length (List.filter (fun c => bool_decide (category c ∈ cats)) l))%nat.
Proof.
  intros Hnew. induction l as [| c l IH]; [done |].
  cbn [List.filter].
  destruct (String.eqb_spec (category c) cat) as [Heq | Hne].
  - rewrite (bool_decide_eq_true_2 (category c ∈ cat :: cats))
      by (rewrite Heq; by left).
    rewrite (bool_decide_eq_false_2 (category c ∈ cats)) by (by rewrite Heq).
    cbn [length]. lia.
  - destruct (bool_decide (category c ∈ cats)) eqn:Hin.
    + apply bool_decide_eq_true in Hin.
      rewrite (bool_decide_eq_true_2 (category c ∈ cat :: cats)) by (by right).
      cbn [length]. lia.
    + apply bool_decide_eq_false in Hin.
      rewrite (bool_decide_eq_false_2 (category c ∈ cat :: cats));
        [lia | by intros [? | ?]%elem_of_cons].
Qed.

(** The courses of the categories of a list without repetition are
    counted once each. *)
Lemma count_by_category (l : list Course) (cats : list string) :
  NoDup cats →
  foldr Z.add 0 ((fun cat => group_count (category_group l cat)) <$> cats)
  = Z.of_nat (length (List.filter (fun c => bool_decide (category c ∈ cats)) l)).
Proof.
  induction 1 as [| cat cats Hnew Hcats IH].
  - rewrite fmap_nil. cbn [foldr].
    induction l as [| c l IHl]; [done |]. cbn [List.filter].
    by rewrite (bool_decide_eq_false_2 (category c ∈ [])) by apply not_elem_of_nil.
  - rewrite fmap_cons. cbn [foldr].
    rewrite IH, count_split by done.
    unfold group_count, category_group. cbn [fst snd]. lia.
Qed.

Lemma filter_all {A} (f : A → bool) (l : list A) :
  (∀ x, x ∈ l → f x = true) → List.filter f l = l.
Proof.
  induction l as [| x l IH]; [done |]. simpl. intros Hall.
  rewrite (Hall x) by (by left). f_equal. apply IH.
  intros y Hy. apply Hall. by right.
Qed.

(** X19.  In the statistics, [totalCourses] is the number of stored
    courses; every category that has a course appears once, with a
    positive [courseCount]; the counts of the categories add up to
    [totalCourses]; the categories are listed by descending count; on an
    empty collection the overview is all zeros and there is no
    category. *)
Theorem category_counts_add_up (st : Store) :
  ∃ overview categories,
    stats_result st = PStats overview categories
    ∧ totalCourses overview = Z.of_nat (length (docs st))
    ∧ foldr Z.add 0 (cs_courseCount <$> categories) = Z.of_nat (length (docs st))
    ∧ descending (cs_courseCount <$> categories)
    ∧ NoDup (cs_category <$> categories)
    ∧ (∀ cat, cat ∈ cs_category <$> categories ↔ ∃ c, c ∈ docs st ∧ category c = cat)
    ∧ (∀ s, s ∈ categories → 0 < cs_courseCount s)
    ∧ (docs st = [] →
       categories = []
       ∧ overview = {| totalCourses := 0; totalEnrollments := 0;
                       averageRating := 0; averageDuration := 0;
                       averagePrice := 0 |}).
Proof.
  unfold stats_result. eexists _, _. split; [reflexivity |].
  set (l := docs st).
  set (cats := distinct (category <$> l)).
  set (gs := category_group l <$> cats).
  assert (aggregate_categories l ≡ₚ gs) as Hperm by apply sorted_groups_perm.
  assert (NoDup cats) as Hcats by apply distinct_NoDup.
  assert (∀ cat, cat ∈ cats ↔ ∃ c, c ∈ l ∧ category c = cat) as Hmem.
  { intros cat. subst cats. rewrite distinct_elem, list_elem_of_fmap.
    split; intros (c & ? & ?); eauto. }
  rewrite <- !list_fmap_compose.
  split; [| split; [| split; [| split; [| split; [| split]]]]].
  - by destruct l.
  - change (cs_courseCount ∘ _) with (group_count : group → Z).
    rewrite (sum_perm _ _ (fmap_Permutation group_count _ _ Hperm)).
    subst gs. rewrite <- list_fmap_compose.
    change (group_count ∘ category_group l)
      with (fun cat => group_count (category_group l cat)).
    rewrite count_by_category by done. rewrite filter_all; [done |].
    intros c Hc. apply bool_decide_eq_true. apply Hmem. eauto.
  - change (cs_courseCount ∘ _) with (group_count : group → Z).
    apply sorted_groups_descending.
  - change (cs_category ∘ _) with group_name.
    rewrite (fmap_Permutation group_name _ _ Hperm).
    subst gs. rewrite <- list_fmap_compose.
    change (group_name ∘ category_group l) with (@id string).
    by rewrite list_fmap_id.
  - intros cat. change (cs_category ∘ _) with group_name.
    rewrite (fmap_Permutation group_name _ _ Hperm).
    subst gs. rewrite <- list_fmap_compose.
    change (group_name ∘ category_group l) with (@id string).
    by rewrite list_fmap_id.
  - intros s Hs. apply list_elem_of_fmap in Hs as (g & -> & Hg). simpl.
    rewrite Hperm in Hg. subst gs.
    apply list_elem_of_fmap in Hg as (cat & -> & Hcat).
    apply Hmem in Hcat as (c & Hc & Hcat).
    unfold group_count, category_group. simpl.
    assert (c ∈ List.filter (fun c0 => String.eqb (category c0) cat) l) as Hin.
    { apply list_elem_of_In, filter_In. split; [by apply list_elem_of_In |].
      by apply String.eqb_eq. }
    destruct (List.filter _ l); [by apply elem_of_nil in Hin | simpl; lia].
  - intros Hnil. subst l. by rewrite Hnil.
Qed.

End Statistics.
(** ** The claims on concrete requests *)

Import Sample.

(** C1.  A list read at instant 0 caches the empty first page for five
    minutes.  An upload at instant 1000 saves one published course and
    leaves the cache as it was: the [cachePattern] it computes is never
    passed to [del].  The list read at instant 2000 is served the cached
    empty page, tagged [cached: true], although the store now answers one
    course.  A create instead of the upload changes nothing either: it
    deletes the key named [courses:list:*], which is no entry. *)
Theorem upload_leaves_stale_list_cache :
  let listing := request None (GET_courses no_list_query) in
  let upload :=
    request None (POST_courses_upload (Some (CsvRows [good_row "cs1" "Intro One"]))) in
  let create :=
    request (Some "Bearer t") (POST_courses (body_of_course "cs1" "Intro One")) in
  let sv1 := snd (app fresh 0 listing) in
  let sv2 := snd (app sv1 1000 upload) in
  let sv2' := snd (app sv1 1000 create) in
  res_status (fst (app sv1 1000 upload)) = 200%nat
  ∧ length (docs (store sv2)) = 1%nat
  ∧ redis sv2 = redis sv1
  ∧ res_cached (fst (app sv2 2000 listing)) = Some true
  ∧ res_data (fst (app sv2 2000 listing)) = res_data (fst (app fresh 0 listing))
  ∧ Some (fst (app sv2 2000 listing)) ≠ direct_answer sv2 (route listing)
  ∧ res_status (fst (app sv1 1000 create)) = 201%nat
  ∧ redis sv2' = redis sv1
  ∧ res_cached (fst (app sv2' 2000 listing)) = Some true
  ∧ Some (fst (app sv2' 2000 listing)) ≠ direct_answer sv2' (route listing).
Proof. vm_compute. repeat split; try reflexivity; intros [=]. Qed.

(** C2.  An upload that carries no [Authorization] header is processed:
    the route is registered without [authenticateToken].  The same course
    sent to the create route without a header is answered 401 and nothing
    is stored. *)
Theorem upload_without_token_is_processed :
  let upload :=
    request None (POST_courses_upload (Some (CsvRows [good_row "cs1" "Intro One"]))) in
  let create := request None (POST_courses (body_of_course "cs1" "Intro One")) in
  res_status (fst (app fresh 1000 upload)) = 200%nat
  ∧ res_success (fst (app fresh 1000 upload)) = true
  ∧ (∃ c, res_data (fst (app fresh 1000 upload)) = Some (DReport 1 1 1 [c])
          ∧ docs (store (snd (app fresh 1000 upload))) = [c])
  ∧ res_status (fst (app fresh 1000 create)) = 401%nat
  ∧ snd (app fresh 1000 create) = fresh.
Proof.
  vm_compute. split; [reflexivity |]. split; [reflexivity |].
  split; [eexists; split; reflexivity |]. split; reflexivity.
Qed.

(** C3, as stated, fails: an upload of one row without a title is
    answered 400 with [success: false], an error list and no report. *)
Lemma invalid_rows_give_no_report :
  let results := [untitled_row "cs3"] in
  let out := upload_courses fresh 1000 (Some (CsvRows results)) in
  results ≠ []
  ∧ forallb invalid_row results = true
  ∧ res_status (fst out) = 400%nat
  ∧ res_success (fst out) = false
  ∧ res_errors (fst out)
    = Some (RowErrors ["Row 1: Missing required fields: title"])
  ∧ ¬ (∃ total valid courses,
         res_data (fst out) = Some (DReport total valid 0 courses)).
Proof.
  vm_compute. repeat split; try reflexivity; try discriminate.
  intros (total & valid & courses & [=]).
Qed.

(** C4, as stated, fails at k = N: for a batch of two rows that both fail
    the required-field check there is no report whose [saved_courses]
    could be N - k. *)
Lemma no_report_when_every_row_fails :
  let results := [untitled_row "a1"; untitled_row "b2"] in
  let out := upload_courses fresh 1000 (Some (CsvRows results)) in
  length results = 2%nat
  ∧ length (List.filter invalid_row results) = 2%nat
  ∧ res_status (fst out) = 400%nat
  ∧ res_data (fst out) = None
  ∧ ¬ (∃ total valid saved courses,
         res_data (fst out) = Some (DReport total valid saved courses)).
Proof.
  vm_compute. repeat split; try reflexivity.
  intros (total & valid & saved & courses & [=]).
Qed.

(** C5, as stated, fails: the response of a statistics read that misses
    the cache has no [cached] member. *)
Lemma miss_response_has_no_cached_member :
  let resp := fst (app fresh 0 (request None GET_courses_stats_overview)) in
  cache_answer fresh 0 GET_courses_stats_overview = None
  ∧ res_status resp = 200%nat
  ∧ res_cached resp = None
  ∧ ¬ (∃ b : bool, res_cached resp = Some b).
Proof.
  vm_compute. repeat split; try reflexivity. intros [b [=]].
Qed.


(** The read of a course by its course id, on an empty cache: the store
    is asked for a document whose id is [CS101], refuses the identifier,
    and the read is answered 500; the read by the document id is answered
    the course. *)
Lemma read_by_course_id_is_refused :
  let created :=
    create_course fresh 1000 demo_user (body_of_course "CS101" "New Title") in
  let c := Schema.build 0%N 1000
             (Schema.apply_setters
                (with_created_by (body_of_course "CS101" "New Title") "demo-user")) in
  fst created = reply_data 201 "Course created successfully" (DCourse (PCourse c))
  ∧ course_id c = "CS101"
  ∧ castObjectId "CS101" = None
  ∧ get_course (snd created) 2000 "CS101"
    = (reply 500 false "Internal server error while retrieving course", snd created)
  ∧ fst (get_course (snd created) 2000 "000000000000000000000000")
    = reply_data 200 "Course retrieved successfully" (DCourse (PCourse c)).
Proof. vm_compute. repeat split; reflexivity. Qed.

(** C8, as stated, fails: with 1001 published records in the store, the
    sweep leaves the last one out of the index. *)
Lemma sweep_stops_at_1000 :
  let sv := {| store := store_of 1001; redis := redis_up; es := es_up |} in
  let c := numbered 1000 in
  c ∈ docs (store sv)
  ∧ published c = true
  ∧ index_up (es sv)
  ∧ ElasticsearchClient.index (es (syncCoursesToElasticsearch sv)) !! _id (numbered 999)
    = Some (ElasticsearchClient.body_of (numbered 999))
  ∧ ElasticsearchClient.index (es (syncCoursesToElasticsearch sv)) !! _id c = None.
Proof.
  cbv zeta. split.
  - apply (list_elem_of_lookup_2 _ 1000%nat). by vm_compute.
  - split; [by vm_compute |]. split; [by vm_compute |].
    split; by vm_compute.
Qed.

(** C9, as stated, fails: with the search adapter not connected, an
    upload and a create each store a published course and submit nothing
    for indexing: the index is left without a document for the course. *)
Lemma unhealthy_index_skips_indexing :
  let sv := {| store := empty_store; redis := redis_up; es := es_down |} in
  let upload :=
    request None (POST_courses_upload (Some (CsvRows [good_row "cs1" "Intro One"]))) in
  let create :=
    request (Some "Bearer t") (POST_courses (body_of_course "cs2" "Intro Two")) in
  let c1 := Schema.build 0%N 1000
              (Schema.apply_setters (prepare (good_row "cs1" "Intro One"))) in
  let c2 := Schema.build 0%N 1000
              (Schema.apply_setters
                 (with_created_by (body_of_course "cs2" "Intro Two") "demo-user")) in
  ElasticsearchClient.isHealthy (es sv) = false
  ∧ res_data (fst (app sv 1000 upload)) = Some (DReport 1 1 1 [c1])
  ∧ status c1 = "published"
  ∧ docs (store (snd (app sv 1000 upload))) = [c1]
  ∧ ElasticsearchClient.index (es (snd (app sv 1000 upload))) !! _id c1 = None
  ∧ fst (app sv 1000 create)
    = reply_data 201 "Course created successfully" (DCourse (PCourse c2))
  ∧ status c2 = "published"
  ∧ docs (store (snd (app sv 1000 create))) = [c2]
  ∧ ElasticsearchClient.index (es (snd (app sv 1000 create))) !! _id c2 = None.
Proof. vm_compute. repeat split; reflexivity. Qed.
(** ** The theorems at work on the sample service *)

(** An upload of one row without a title, on the fresh service. *)
Lemma all_rows_invalid_is_rejected_witness :
  let results := [untitled_row "cs3"] in
  results ≠ []
  ∧ forallb invalid_row results = true
  ∧ upload_courses fresh 1000 (Some (CsvRows results))
    = ({| res_status := 400; res_success := false;
          res_message := "No valid courses found in CSV";
          res_data := None;
          res_errors := Some (RowErrors ["Row 1: Missing required fields: title"]);
          res_error := None; res_cached := None |}, fresh).
Proof.
  cbv zeta.
  assert ([untitled_row "cs3"] ≠ []) as Hne by discriminate.
  assert (forallb invalid_row [untitled_row "cs3"] = true) as Hall
    by (vm_compute; reflexivity).
  split; [exact Hne |]. split; [exact Hall |].
  exact (proj1 (all_rows_invalid_is_rejected fresh 1000 _ Hne Hall)).
Defined.

(** Five rows: the third has no title, the fourth repeats the course id
    of the first.  One row fails the check, one save fails, three courses
    are saved. *)
Lemma partial_failure_report_witness :
  let results :=
    [ good_row "cs1" "Intro One"; good_row "cs2" "Intro Two";
      untitled_row "cs3"; good_row "cs1" "Intro Again";
      good_row "cs5" "Intro Five" ] in
  let out := upload_courses fresh 1000 (Some (CsvRows results)) in
  (length (List.filter invalid_row results) < length results)%nat
  ∧ failed_saves 1000 (store fresh) (fst (validate_rows 1 results)) = 1%nat
  ∧ (∃ courses, res_data (fst out) = Some (DReport 5 4 3 courses)
                ∧ docs (store (snd out)) = courses)
  ∧ res_errors (fst out)
    = Some (RowErrors [ "Row 3: Missing required fields: title";
                        "Course with ID CS1 already exists" ]).
Proof.
  cbv zeta.
  set (results := [ good_row "cs1" "Intro One"; good_row "cs2" "Intro Two";
                    untitled_row "cs3"; good_row "cs1" "Intro Again";
                    good_row "cs5" "Intro Five" ]).
  assert (length (List.filter invalid_row results) < length results)%nat as Hk
    by (vm_compute; lia).
  destruct (partial_failure_report fresh 1000 results Hk)
    as (Hresp & _ & _ & _ & Hdocs & _).
  split; [exact Hk |]. split; [vm_compute; reflexivity |].
  rewrite Hresp, Hdocs. cbn [fst res_data res_errors].
  split; [eexists; split; vm_compute; reflexivity | vm_compute; reflexivity].
Defined.

(** A statistics read that hits, after one that missed. *)
Lemma cached_flag_only_on_hits_witness :
  let stats := request None GET_courses_stats_overview in
  let warm := snd (app fresh 0 stats) in
  res_cached (fst (app fresh 0 stats)) = None
  ∧ res_cached (fst (app warm 1000 stats)) = Some true
  ∧ res_data (fst (app warm 1000 stats)) = res_data (fst (app fresh 0 stats)).
Proof.
  cbv zeta.
  pose proof (cached_flag_only_on_hits fresh 0
                (request None GET_courses_stats_overview)) as Hmiss.
  pose proof (cached_flag_only_on_hits
                (snd (app fresh 0 (request None GET_courses_stats_overview))) 1000
                (request None GET_courses_stats_overview)) as Hhit.
  vm_compute in Hmiss, Hhit. vm_compute.
  split; [exact (proj1 Hmiss) |]. split; [exact (proj1 Hhit) |].
  exact (proj1 (proj2 Hhit)).
Defined.



(** An upload of one row and a create on the fresh service, whose index
    is available; and the same create while the search adapter is not
    connected. *)
Lemma ingested_records_are_published_witness :
  let upload :=
    request None (POST_courses_upload (Some (CsvRows [good_row "cs1" "Intro One"]))) in
  let create :=
    request (Some "Bearer t") (POST_courses (body_of_course "cs2" "Intro Two")) in
  let c1 := Schema.build 0%N 1000
              (Schema.apply_setters (prepare (good_row "cs1" "Intro One"))) in
  let c2 := Schema.build 0%N 1000
              (Schema.apply_setters
                 (with_created_by (body_of_course "cs2" "Intro Two") "demo-user")) in
  let unindexed := {| store := empty_store; redis := redis_up; es := es_down |} in
  (res_data (fst (app fresh 1000 upload)) = Some (DReport 1 1 1 [c1])
   ∧ status c1 = "published"
   ∧ c1 ∈ docs (store (snd (app fresh 1000 upload)))
   ∧ ElasticsearchClient.index (es (snd (app fresh 1000 upload))) !! _id c1
     = Some (ElasticsearchClient.body_of c1))
  ∧ (fst (app fresh 1000 create)
     = reply_data 201 "Course created successfully" (DCourse (PCourse c2))
     ∧ course_id c2 = "CS2"
     ∧ status c2 = "published"
     ∧ c2 ∈ docs (store (snd (app fresh 1000 create)))
     ∧ ElasticsearchClient.index (es (snd (app fresh 1000 create))) !! _id c2
       = Some (ElasticsearchClient.body_of c2))
  ∧ (index_down (es unindexed)
     ∧ c2 ∈ docs (store (snd (app unindexed 1000 create)))
     ∧ es (snd (app unindexed 1000 create)) = es_down).
Proof.
  cbv zeta.
  set (upload := request None
                   (POST_courses_upload (Some (CsvRows [good_row "cs1" "Intro One"])))).
  set (create := request (Some "Bearer t")
                   (POST_courses (body_of_course "cs2" "Intro Two"))).
  set (c1 := Schema.build 0%N 1000
               (Schema.apply_setters (prepare (good_row "cs1" "Intro One")))).
  set (c2 := Schema.build 0%N 1000
               (Schema.apply_setters
                  (with_created_by (body_of_course "cs2" "Intro Two") "demo-user"))).
  set (unindexed := {| store := empty_store; redis := redis_up; es := es_down |}).
  assert (index_up (es fresh)) as Hup by (repeat split).
  assert (index_down (es unindexed)) as Hdown by (left; reflexivity).
  split; [| split].
  - assert (res_data (fst (app fresh 1000 upload)) = Some (DReport 1 1 1 [c1]))
      as Hdata by (vm_compute; reflexivity).
    destruct (ingested_records_are_published fresh 1000 upload c1)
      as (Hst & _ & Hdocs & Hidx & _).
    { exists 1%nat, 1%nat, 1%nat, [c1]. split; [exact Hdata | left]. }
    split; [exact Hdata |]. split; [exact Hst |]. split; [exact Hdocs |].
    exact (Hidx Hup).
  - assert (fst (app fresh 1000 create)
            = reply_data 201 "Course created successfully" (DCourse (PCourse c2)))
      as Hresp by (vm_compute; reflexivity).
    destruct (ingested_records_are_published fresh 1000 create c2)
      as (Hst & _ & Hdocs & Hidx & _).
    { split; [reflexivity | by rewrite Hresp]. }
    split; [exact Hresp |]. split; [vm_compute; reflexivity |].
    split; [exact Hst |]. split; [exact Hdocs |]. exact (Hidx Hup).
  - destruct (ingested_records_are_published unindexed 1000 create c2)
      as (_ & _ & Hdocs & _ & Hsame).
    { split; [reflexivity | vm_compute; reflexivity]. }
    split; [exact Hdown |]. split; [exact Hdocs |]. exact (Hsame Hdown).
Defined.

(** A search on a working cache while Elasticsearch is disconnected;
    then the index comes back, a course is uploaded and indexed, and the
    list is read; the search is repeated just before the two minutes are
    over. *)
Lemma empty_search_is_cached_while_index_down_witness :
  let sv := {| store := empty_store; redis := redis_up; es := es_down |} in
  let q := search_for "intro" in
  let steps :=
    [ IndexBecomes es_up;
      Serve 60000 (request None (POST_courses_upload
                                   (Some (CsvRows [good_row "cs1" "Intro One"]))));
      Serve 61000 (request None (GET_courses no_list_query)) ] in
  let later := run (snd (search_courses sv 0 q)) steps in
  cache_up (redis sv)
  ∧ index_down (es sv)
  ∧ blank_query q = false
  ∧ RedisClient.get (redis sv) 0 (search_key q) = None
  ∧ Forall (before (0 + 120 * 1000)) steps
  ∧ fst (search_courses sv 0 q)
    = reply_data 200 "Courses searched successfully" (DResult (empty_page q))
  ∧ fst (search_courses later 119999 q)
    = reply_cached "Search results retrieved from cache" (DResult (empty_page q))
  ∧ Some (fst (search_courses later 119999 q))
    ≠ direct_answer later (GET_courses_search q).
Proof.
  cbv zeta.
  set (sv := {| store := empty_store; redis := redis_up; es := es_down |}).
  set (q := search_for "intro").
  set (steps := [ IndexBecomes es_up;
                  Serve 60000 (request None (POST_courses_upload
                                 (Some (CsvRows [good_row "cs1" "Intro One"]))));
                  Serve 61000 (request None (GET_courses no_list_query)) ]).
  assert (cache_up (redis sv)) as Hup by (split; [reflexivity | by intros []]).
  assert (index_down (es sv)) as Hdown by (left; reflexivity).
  assert (blank_query q = false) as Hq by (vm_compute; reflexivity).
  assert (RedisClient.get (redis sv) 0 (search_key q) = None) as Hmiss
    by (vm_compute; reflexivity).
  assert (Forall (before (0 + 120 * 1000)) steps) as Hsteps
    by (repeat constructor).
  destruct (empty_search_is_cached_while_index_down sv 0 q Hup Hdown Hq Hmiss)
    as (Hfirst & _ & Hlater & _).
  split; [exact Hup |]. split; [exact Hdown |]. split; [exact Hq |].
  split; [exact Hmiss |]. split; [exact Hsteps |]. split; [exact Hfirst |].
  rewrite (Hlater steps 119999 Hsteps) by lia. cbn [fst]. split; [reflexivity |].
  vm_compute. intros [=].
Defined.

(** ** The further theorems at work on the sample service *)

(** A course cached for sixty seconds on a working cache. *)
Lemma redis_set_then_get_witness :
  let after := snd (RedisClient.set redis_up 0 "k" (PCourse (numbered 1)) 60) in
  cache_up redis_up
  ∧ RedisClient.get after 59999 "k" = Some (PCourse (numbered 1))
  ∧ RedisClient.get after 60000 "k" = None.
Proof.
  cbv zeta.
  assert (cache_up redis_up) as Hup by (split; reflexivity).
  destruct (redis_set_then_get redis_up 0 59999 "k" (PCourse (numbered 1)) 60 Hup)
    as (_ & Hbefore & _).
  destruct (redis_set_then_get redis_up 0 60000 "k" (PCourse (numbered 1)) 60 Hup)
    as (_ & _ & Hafter & _).
  split; [exact Hup |]. split; [apply Hbefore; lia | apply Hafter; lia].
Defined.

(** The seventh attempt, five seconds into the retries. *)
Lemma retry_delay_is_linear_witness :
  let options := {| RedisClient.error_code := None;
                    RedisClient.total_retry_time := 5000;
                    RedisClient.attempt := 7 |} in
  RedisClient.retry_strategy options = RedisClient.RetryAfter 700
  ∧ 700 = RedisClient.attempt options * 100
  ∧ 700 ≤ 1000.
Proof.
  cbv zeta.
  assert (RedisClient.retry_strategy
            {| RedisClient.error_code := None;
               RedisClient.total_retry_time := 5000;
               RedisClient.attempt := 7 |} = RedisClient.RetryAfter 700) as Hrun
    by (vm_compute; reflexivity).
  destruct (retry_delay_is_linear _ 700 Hrun) as (H1 & H2 & _).
  split; [exact Hrun |]. split; [exact H1 | exact H2].
Defined.

(** Indexing a course on the empty, available index. *)
Lemma index_course_is_an_upsert_witness :
  let after := snd (ElasticsearchClient.indexCourse es_up (numbered 3)) in
  index_up es_up
  ∧ ElasticsearchClient.index after !! 3%N
    = Some (ElasticsearchClient.body_of (numbered 3))
  ∧ snd (ElasticsearchClient.indexCourse after (numbered 3)) = after.
Proof.
  cbv zeta.
  assert (index_up es_up) as Hup by (repeat split).
  destruct (index_course_is_an_upsert es_up (numbered 3) Hup)
    as (_ & Hfound & _ & _ & Hagain).
  split; [exact Hup |]. split; [exact Hfound | exact Hagain].
Defined.

(** The headers [Bearer abc], [Bearer] and [Bearer  abc]. *)
Lemma token_is_the_second_word_witness :
  spaceless "Bearer" = true
  ∧ spaceless "abc" = true
  ∧ authenticateToken (Some "Bearer abc") = inr demo_user
  ∧ authenticateToken (Some "Bearer")
    = inl (reply 401 false "Access denied. No token provided.")
  ∧ authenticateToken (Some "Bearer  abc")
    = inl (reply 401 false "Access denied. No token provided.").
Proof.
  assert (spaceless "Bearer" = true) as Hs by reflexivity.
  assert (spaceless "abc" = true) as Ht by reflexivity.
  destruct (token_is_the_second_word "Bearer" "abc" Hs Ht)
    as (Hok & _ & Hbare & Hempty).
  split; [exact Hs |]. split; [exact Ht |].
  split; [exact (proj1 (Hok ltac:(discriminate) ""))|].
  split; [exact Hbare | exact (proj2 (Hempty "abc"))].
Defined.

(** A search for three spaces. *)
Lemma blank_search_is_rejected_witness :
  all_space "   " = true
  ∧ search_courses fresh 0 (search_for "   ")
    = (reply 400 false "Search query is required", fresh).
Proof.
  assert (all_space "   " = true) as Hq by reflexivity.
  split; [exact Hq |].
  exact (proj1 (blank_search_is_rejected fresh 0 (search_for "   ") Hq)).
Defined.

(** An upload of two rows with the same course id, then a create of that
    course id again and a create of a new one, on the fresh service. *)
Lemma requests_keep_ids_unique_witness :
  let steps :=
    [ Serve 1000 (request None (POST_courses_upload
                                  (Some (CsvRows [good_row "cs1" "Intro One";
                                                  good_row "CS1" "Intro Again"]))));
      Serve 2000 (request (Some "Bearer t") (POST_courses (body_of_course "cs1" "Third")));
      Serve 3000 (request (Some "Bearer t") (POST_courses (body_of_course "cs2" "Fourth"))) ] in
  store_ok (store fresh)
  ∧ Forall keeps_store steps
  ∧ store_ok (store (run fresh steps))
  ∧ course_id <$> docs (store (run fresh steps)) = ["CS1"; "CS2"].
Proof.
  cbv zeta.
  assert (store_ok (store fresh)) as Hok.
  { split; [constructor |]. split; [constructor |]. by intros c ?%elem_of_nil. }
  split; [exact Hok |].
  split; [repeat constructor |].
  split; [| vm_compute; reflexivity].
  apply (requests_keep_ids_unique fresh _ Hok). repeat constructor.
Defined.

(** An upload of three rows, of which the second has a title of two
    letters and the third a title of two characters that takes three
    bytes; then a list read. *)
Lemma requests_store_valid_courses_witness :
  let steps :=
    [ Serve 1000 (request None (POST_courses_upload
                                  (Some (CsvRows [good_row "cs1" "Intro One";
                                                  good_row "cs2" "ab";
                                                  good_row "cs3" "éb"]))));
      Serve 2000 (request None (GET_courses no_list_query)) ] in
  Forall meets_schema (docs (store fresh))
  ∧ Forall reads_or_uploads steps
  ∧ String.length "éb" = 3%nat
  ∧ JS.length "éb" = 2%nat
  ∧ Forall meets_schema (docs (store (run fresh steps)))
  ∧ title <$> docs (store (run fresh steps)) = ["Intro One"].
Proof.
  cbv zeta.
  assert (Forall meets_schema (docs (store fresh))) as Hok by constructor.
  split; [exact Hok |].
  split; [repeat constructor |].
  split; [reflexivity |]. split; [reflexivity |].
  split; [| vm_compute; reflexivity].
  apply (requests_store_valid_courses fresh _ Hok). repeat constructor.
Defined.

(** A create with a token on the fresh service, the same create again,
    and the create without a token. *)
Lemma failed_create_changes_nothing_witness :
  let body := body_of_course "cs1" "Intro One" in
  let create := {| authorization := Some "Bearer t"; route := POST_courses body |} in
  let anonymous := {| authorization := None; route := POST_courses body |} in
  let c := Schema.build 0%N 1000
             (Schema.apply_setters (with_created_by body "demo-user")) in
  let after := snd (app fresh 1000 create) in
  (fst (app fresh 1000 create)
   = reply_data 201 "Course created successfully" (DCourse (PCourse c))
   ∧ docs (store after) = docs (store fresh) ++ [c]
   ∧ ElasticsearchClient.index (es after) !! 0%N
     = Some (ElasticsearchClient.body_of c))
  ∧ (fst (app after 2000 create)
     = reply 409 false "Course with this ID already exists"
     ∧ snd (app after 2000 create) = after)
  ∧ (fst (app fresh 1000 anonymous)
     = reply 401 false "Access denied. No token provided."
     ∧ snd (app fresh 1000 anonymous) = fresh).
Proof.
  cbv zeta.
  set (body := body_of_course "cs1" "Intro One").
  set (c := Schema.build 0%N 1000
              (Schema.apply_setters (with_created_by body "demo-user"))).
  set (after := snd (app fresh 1000
                       {| authorization := Some "Bearer t";
                          route := POST_courses body |})).
  pose proof (failed_create_changes_nothing fresh 1000 (Some "Bearer t") body)
    as (_ & _ & Hcreated).
  pose proof (failed_create_changes_nothing after 2000 (Some "Bearer t") body)
    as (Hrefused & _ & _).
  pose proof (failed_create_changes_nothing fresh 1000 None body)
    as (Hdenied & _ & _).
  cbv zeta in Hcreated, Hrefused, Hdenied.
  assert (fst (app fresh 1000
                 {| authorization := Some "Bearer t"; route := POST_courses body |})
          = reply_data 201 "Course created successfully" (DCourse (PCourse c)))
    as Hresp by (vm_compute; reflexivity).
  assert (fst (app after 2000
                 {| authorization := Some "Bearer t"; route := POST_courses body |})
          = reply 409 false "Course with this ID already exists")
    as Hdup by (vm_compute; reflexivity).
  assert (fst (app fresh 1000 {| authorization := None; route := POST_courses body |})
          = reply 401 false "Access denied. No token provided.")
    as Hanon by (vm_compute; reflexivity).
  split; [| split].
  - destruct Hcreated as (c' & Hdata & Hdocs & _ & _); [by rewrite Hresp |].
    rewrite Hresp in Hdata. injection Hdata as <-.
    split; [exact Hresp |]. split; [exact Hdocs |]. vm_compute. reflexivity.
  - split; [exact Hdup |]. apply Hrefused. by rewrite Hdup.
  - split; [exact Hanon |]. apply Hdenied. by rewrite Hanon.
Defined.

(** The course [CS1] is stored; after a list read and an outage of the
    index, a create of [ cs1 ] is refused. *)
Lemma stored_course_id_stays_taken_witness :
  let sv := {| store := store_after 1000 empty_store [body_of_course "cs1" "Intro One"];
               redis := redis_up; es := es_up |} in
  let c := Schema.build 0%N 1000 (Schema.apply_setters (body_of_course "cs1" "Intro One")) in
  let steps := [ Serve 2000 (request None (GET_courses no_list_query));
                 IndexBecomes es_down ] in
  let body := body_of_course " cs1 " "Intro Again" in
  c ∈ docs (store sv)
  ∧ Forall keeps_store steps
  ∧ JS.toUpperCase (JS.trim " cs1 ") = course_id c
  ∧ res_status (fst (create_course (run sv steps) 3000 demo_user body)) = 409%nat
  ∧ snd (create_course (run sv steps) 3000 demo_user body) = run sv steps.
Proof.
  cbv zeta.
  set (sv := {| store := store_after 1000 empty_store [body_of_course "cs1" "Intro One"];
                redis := redis_up; es := es_up |}).
  set (c := Schema.build 0%N 1000 (Schema.apply_setters (body_of_course "cs1" "Intro One"))).
  set (steps := [ Serve 2000 (request None (GET_courses no_list_query));
                  IndexBecomes es_down ]).
  assert (c ∈ docs (store sv)) as Hc by (vm_compute; left).
  assert (Forall keeps_store steps) as Hsteps by (repeat constructor).
  assert (JS.toUpperCase (JS.trim " cs1 ") = course_id c) as Hnorm
    by (vm_compute; reflexivity).
  destruct (stored_course_id_stays_taken sv steps c 3000 demo_user
              (body_of_course " cs1 " "Intro Again") " cs1 " Hc Hsteps eq_refl Hnorm)
    as (_ & _ & _ & Hsame).
  split; [exact Hc |]. split; [exact Hsteps |]. split; [exact Hnorm |].
  split; [vm_compute; reflexivity | exact Hsame].
Defined.

(** An upload on the fresh service, with the index up and with it down. *)
Lemma writes_do_not_depend_on_the_index_witness :
  let req := request None (POST_courses_upload
                             (Some (CsvRows [good_row "cs1" "Intro One"]))) in
  let down := {| store := store fresh; redis := redis fresh; es := es_down |} in
  read_route (route req) = false
  ∧ fst (app down 1000 req) = fst (app fresh 1000 req)
  ∧ store (snd (app down 1000 req)) = store (snd (app fresh 1000 req))
  ∧ es (snd (app down 1000 req)) = es_down.
Proof.
  cbv zeta.
  set (req := request None (POST_courses_upload
                              (Some (CsvRows [good_row "cs1" "Intro One"])))).
  destruct (writes_do_not_depend_on_the_index fresh es_down 1000 req eq_refl)
    as (Hresp & Hstore & _ & _).
  destruct (writes_do_not_depend_on_the_index
              {| store := store fresh; redis := redis fresh; es := es_down |}
              es_down 1000 req eq_refl) as (_ & _ & _ & Hdown).
  split; [reflexivity |]. split; [exact Hresp |]. split; [exact Hstore |].
  apply Hdown. left. reflexivity.
Defined.

(** The second page of five of a store of twelve courses, and the same
    store read with a limit of 0. *)
Lemma list_pagination_is_consistent_witness :
  let q := {| lq_page := Some "2"; lq_limit := Some "5";
              lq_category := None; lq_instructor := None; lq_level := None;
              lq_status := None; lq_sort := None; lq_order := None;
              lq_search := None |} in
  let q0 := {| lq_page := None; lq_limit := Some "0";
               lq_category := None; lq_instructor := None; lq_level := None;
               lq_status := None; lq_sort := None; lq_order := None;
               lq_search := None |} in
  let pg := {| current_page := Some 2; total_pages := Some 3; total_items := 12;
               items_per_page := Some 5; has_next := true; has_prev := true |} in
  let pg0 := {| current_page := Some 1; total_pages := None; total_items := 12;
                items_per_page := Some 0; has_next := true; has_prev := false |} in
  list_result (store_of 12) q
  = Some (PList (numbered <$> [6; 5; 4; 3; 2]%nat) pg)
  ∧ (∃ pages : N, total_pages pg = Some (Z.of_N pages)
                  ∧ (12 ≤ pages * 5 < 12 + 5)%N)
  ∧ list_result (store_of 12) q0
    = Some (PList (numbered <$> rev (seq 0 12)) pg0)
  ∧ total_pages pg0 = None.
Proof.
  cbv zeta.
  set (q := {| lq_page := Some "2"; lq_limit := Some "5";
               lq_category := None; lq_instructor := None; lq_level := None;
               lq_status := None; lq_sort := None; lq_order := None;
               lq_search := None |}).
  set (q0 := {| lq_page := None; lq_limit := Some "0";
                lq_category := None; lq_instructor := None; lq_level := None;
                lq_status := None; lq_sort := None; lq_order := None;
                lq_search := None |}).
  set (pg := {| current_page := Some 2; total_pages := Some 3; total_items := 12;
                items_per_page := Some 5; has_next := true; has_prev := true |}).
  set (pg0 := {| current_page := Some 1; total_pages := None; total_items := 12;
                 items_per_page := Some 0; has_next := true; has_prev := false |}).
  assert (list_result (store_of 12) q
          = Some (PList (numbered <$> [6; 5; 4; 3; 2]%nat) pg)) as Hres
    by (vm_compute; reflexivity).
  assert (list_result (store_of 12) q0
          = Some (PList (numbered <$> rev (seq 0 12)) pg0)) as Hres0
    by (vm_compute; reflexivity).
  destruct (list_pagination_is_consistent (store_of 12) q 2 5 _ pg
              eq_refl eq_refl Hres)
    as (query & _ & _ & _ & _ & _ & Hpages & _).
  destruct (list_pagination_is_consistent (store_of 12) q0 1 0 _ pg0
              eq_refl eq_refl Hres0)
    as (query0 & _ & _ & _ & _ & _ & _ & Hnone).
  split; [exact Hres |].
  split.
  { destruct (Hpages ltac:(lia)) as (pages & Htp & Hb & _).
    exists pages. split; [exact Htp | exact Hb]. }
  split; [exact Hres0 |]. exact (proj1 (Hnone eq_refl)).
Defined.

(** The second page of five of a store of twelve courses. *)
Lemma list_page_shows_matching_courses_witness :
  let q := {| lq_page := Some "2"; lq_limit := Some "5";
              lq_category := None; lq_instructor := None; lq_level := None;
              lq_status := None; lq_sort := None; lq_order := None;
              lq_search := None |} in
  let query := list_match q None None in
  let sorted := rev (List.filter query (docs (store_of 12))) in
  page_number (lq_page q) = JS.Fin false 2
  ∧ page_size (lq_limit q) = JS.Fin false 5
  ∧ list_query q = Some query
  ∧ store_sort "created_at" true (List.filter query (docs (store_of 12)))
    = Some sorted
  ∧ sorted ≡ₚ List.filter query (docs (store_of 12))
  ∧ ∃ courses,
      list_result (store_of 12) q
      = Some (PList courses
                {| current_page := Some 2; total_pages := Some 3;
                   total_items := 12; items_per_page := Some 5;
                   has_next := true; has_prev := true |})
      ∧ courses = numbered <$> [6; 5; 4; 3; 2]%nat
      ∧ length courses = 5%nat
      ∧ ∀ c, c ∈ courses → status c = "published".
Proof.
  cbv zeta.
  set (q := {| lq_page := Some "2"; lq_limit := Some "5";
               lq_category := None; lq_instructor := None; lq_level := None;
               lq_status := None; lq_sort := None; lq_order := None;
               lq_search := None |}).
  set (query := list_match q None None).
  set (sorted := rev (List.filter query (docs (store_of 12)))).
  assert (page_number (lq_page q) = JS.Fin false 2) as Hpage by reflexivity.
  assert (page_size (lq_limit q) = JS.Fin false 5) as Hlimit by reflexivity.
  assert (list_query q = Some query) as Hq by reflexivity.
  assert (store_sort (default "created_at" (lq_sort q))
            (String.eqb (default "desc" (lq_order q)) "desc")
            (List.filter query (docs (store_of 12))) = Some sorted) as Hsort
    by reflexivity.
  assert (sorted ≡ₚ List.filter query (docs (store_of 12))) as Hperm
    by (symmetry; apply Permutation_rev).
  assert (0 < 2 ≤ JS.exact)%N as Hp by (unfold JS.exact; lia).
  assert (2 * 5 ≤ JS.exact)%N as Hpl by (unfold JS.exact; lia).
  destruct (list_page_shows_matching_courses (store_of 12) q 2 5 query sorted
              Hpage Hlimit Hp Hpl Hq Hsort Hperm)
    as (courses & Hres & _ & Htake & Hall & Hlen).
  split; [exact Hpage |]. split; [exact Hlimit |]. split; [exact Hq |].
  split; [exact Hsort |]. split; [exact Hperm |].
  exists courses. split; [rewrite Hres; vm_compute; reflexivity |].
  split; [rewrite (Htake ltac:(lia)); vm_compute; reflexivity |].
  split; [rewrite Hlen; vm_compute; reflexivity |].
  intros c Hc. exact (proj2 (proj2 (Hall c Hc))).
Defined.

(** A list filtered on an instructor pattern that is refused, and the
    page 0 of the list. *)
Lemma list_errors_are_answered_500_witness :
  let refused := {| lq_page := None; lq_limit := None;
                    lq_category := None; lq_instructor := Some "(";
                    lq_level := None; lq_status := None; lq_sort := None;
                    lq_order := None; lq_search := None |} in
  let page0 := {| lq_page := Some "0"; lq_limit := None;
                  lq_category := None; lq_instructor := None;
                  lq_level := None; lq_status := None; lq_sort := None;
                  lq_order := None; lq_search := None |} in
  let sv := {| store := store_of 2; redis := redis_up; es := es_up |} in
  pattern_of (lq_instructor refused) = None
  ∧ get_courses sv 0 refused
    = (reply 500 false "Internal server error while retrieving courses", sv)
  ∧ page_number (lq_page page0) = JS.Fin false 0
  ∧ get_courses sv 0 page0
    = (reply 500 false "Internal server error while retrieving courses", sv).
Proof.
  cbv zeta.
  set (refused := {| lq_page := None; lq_limit := None;
                     lq_category := None; lq_instructor := Some "(";
                     lq_level := None; lq_status := None; lq_sort := None;
                     lq_order := None; lq_search := None |}).
  set (page0 := {| lq_page := Some "0"; lq_limit := None;
                   lq_category := None; lq_instructor := None;
                   lq_level := None; lq_status := None; lq_sort := None;
                   lq_order := None; lq_search := None |}).
  set (sv := {| store := store_of 2; redis := redis_up; es := es_up |}).
  assert (pattern_of (lq_instructor refused) = None) as Hre by reflexivity.
  assert (page_number (lq_page page0) = JS.Fin false 0) as Hpage by reflexivity.
  split; [exact Hre |].
  split; [apply list_errors_are_answered_500; [reflexivity | by left] |].
  split; [exact Hpage |].
  apply list_errors_are_answered_500; [reflexivity |].
  right. right. exists 10%N. split; [exact Hpage |]. split; [reflexivity |].
  unfold JS.exact. lia.
Defined.

(** The statistics of a store of two courses, read again after an upload
    and just before the fifteen minutes are over. *)
Lemma read_is_cached_for_its_ttl_witness :
  let sv := {| store := store_of 2; redis := redis_up; es := es_up |} in
  let req := request None GET_courses_stats_overview in
  let steps :=
    [ Serve 60000 (request None (POST_courses_upload
                                   (Some (CsvRows [good_row "cs1" "Intro One"])))) ] in
  let later := run (snd (app sv 0 req)) steps in
  cache_up (redis sv)
  ∧ read_route (route req) = true
  ∧ cache_answer sv 0 (route req) = None
  ∧ res_status (fst (app sv 0 req)) = 200%nat
  ∧ length (docs (store later)) = 3%nat
  ∧ res_cached (fst (app later 899999 req)) = Some true
  ∧ res_data (fst (app later 899999 req)) = res_data (fst (app sv 0 req)).
Proof.
  cbv zeta.
  set (sv := {| store := store_of 2; redis := redis_up; es := es_up |}).
  set (req := request None GET_courses_stats_overview).
  set (steps := [ Serve 60000 (request None (POST_courses_upload
                                   (Some (CsvRows [good_row "cs1" "Intro One"])))) ]).
  assert (cache_up (redis sv)) as Hup by (split; reflexivity).
  assert (cache_answer sv 0 (route req) = None) as Hmiss by (vm_compute; reflexivity).
  assert (res_status (fst (app sv 0 req)) = 200%nat) as H200 by (vm_compute; reflexivity).
  destruct (read_is_cached_for_its_ttl sv 0 req Hup eq_refl Hmiss) as [Hcached _].
  destruct (Hcached H200) as [Hlater _].
  destruct (Hlater steps 899999) as (Hflag & Hdata & _);
    [repeat constructor | vm_compute; reflexivity |].
  split; [exact Hup |]. split; [reflexivity |]. split; [exact Hmiss |].
  split; [exact H200 |]. split; [vm_compute; reflexivity |].
  split; [exact Hflag | exact Hdata].
Defined.

(** The default list of a store of two courses, then the same list
    filtered on the category [all]. *)
Lemma category_all_is_served_unfiltered_witness :
  let sv := {| store := store_of 2; redis := redis_up; es := es_up |} in
  let after := snd (get_courses sv 0 no_list_query) in
  let filtered := with_category no_list_query (Some "all") in
  let unfiltered_page :=
    PList [numbered 1; numbered 0]
      {| current_page := Some 1; total_pages := Some 1; total_items := 2;
         items_per_page := Some 10; has_next := false; has_prev := false |} in
  cache_up (redis sv)
  ∧ RedisClient.get (redis sv) 0 (list_key no_list_query) = None
  ∧ list_result (store sv) no_list_query = Some unfiltered_page
  ∧ fst (get_courses after 1000 filtered)
    = reply_cached "Courses retrieved from cache" (DResult unfiltered_page)
  ∧ list_result (store sv) filtered ≠ list_result (store sv) no_list_query.
Proof.
  cbv zeta.
  set (sv := {| store := store_of 2; redis := redis_up; es := es_up |}).
  set (unfiltered_page :=
         PList [numbered 1; numbered 0]
           {| current_page := Some 1; total_pages := Some 1; total_items := 2;
              items_per_page := Some 10; has_next := false; has_prev := false |}).
  assert (cache_up (redis sv)) as Hup by (split; reflexivity).
  assert (RedisClient.get (redis sv) 0 (list_key no_list_query) = None) as Hmiss
    by (vm_compute; reflexivity).
  assert (list_result (store sv) no_list_query = Some unfiltered_page) as Hres
    by (vm_compute; reflexivity).
  destruct (category_all_is_served_unfiltered sv 0 no_list_query unfiltered_page
              Hup eq_refl Hmiss Hres)
    as (_ & _ & Hserved).
  split; [exact Hup |]. split; [exact Hmiss |]. split; [exact Hres |].
  rewrite (Hserved 1000) by lia. split; [reflexivity |].
  vm_compute. discriminate.
Defined.

(** Three courses stored while nothing was indexed, then a sweep. *)
Lemma sweep_indexes_the_swept_courses_witness :
  let sv := {| store := store_of 3; redis := redis_up; es := es_up |} in
  index_up (es sv)
  ∧ NoDup (_id <$> docs (store sv))
  ∧ numbered 2 ∈ swept (store sv)
  ∧ ElasticsearchClient.index (es (syncCoursesToElasticsearch sv)) !! 2%N
    = Some (ElasticsearchClient.body_of (numbered 2)).
Proof.
  cbv zeta.
  set (sv := {| store := store_of 3; redis := redis_up; es := es_up |}).
  assert (index_up (es sv)) as Hup by (repeat split).
  assert (NoDup (_id <$> docs (store sv))) as Hids
    by (apply (bool_decide_unpack _); vm_compute; exact I).
  assert (numbered 2 ∈ swept (store sv)) as Hin
    by (apply (list_elem_of_lookup_2 _ 2%nat); vm_compute; reflexivity).
  destruct (sweep_indexes_the_swept_courses sv Hup Hids) as (Hall & _ & _).
  split; [exact Hup |]. split; [exact Hids |]. split; [exact Hin |].
  exact (Hall (numbered 2) Hin).
Defined.
